(** * Persistence and remote-sync core of the Mermaid project IDE

    A shallow embedding of
    - [src/utils/normalization.js]   (simple <-> linked-data record shapes),
    - [src/concepts/storageConcept.js] (record store over IndexedDB),
    - the GitHub adapter ([unicodeBtoa], [_githubFetch], [getContents],
      [_buildApiUrl], [getTreeSha]),
    - the diagram concept, a client of the event bus,
    together with the properties the design specification states about them
    and further properties of the code.

    JavaScript objects are finite maps from property names to values, so two
    objects with the same properties are equal whatever the order in which
    the properties were written. *)

From stdpp Require Import gmap strings list fin_maps sorting.
From Stdlib Require Import ZArith NArith Ascii String Lia.

#[local] Set Warnings "-register-all".
#[local] Open Scope Z_scope.

(* ===================================================================== *)
(** ** JavaScript values and the built-ins the code calls                 *)
(* ===================================================================== *)

Module JS.

(** The values that reach the persistence layer.  Numbers are the
    integer-valued ones (identifiers, timestamps, status codes) plus NaN;
    a [VDate] carries its time value in milliseconds, [None] being the
    Invalid Date. *)
Inductive value : Type :=
  | VUndef
  | VNull
  | VBool (b : bool)
  | VNum (n : Z)
  | VNaN
  | VStr (s : string)
  | VDate (t : option Z)
  | VObj (o : gmap string value).

(** What a rejected promise or a [throw] carries. *)
Inductive error : Type :=
  | TypeError
  | RangeError
  | SyntaxError
  | DataError
  | ConstraintError
  | InvalidCharacterError
  | Error (message : string).

(** Property read [o[k]]: a missing property reads as [undefined]. *)
Definition get (o : gmap string value) (k : string) : value :=
  default VUndef (o !! k).

(** ToBoolean. *)
Definition truthy (v : value) : bool :=
  match v with
  | VUndef | VNull | VNaN => false
  | VBool b => b
  | VNum n => negb (n =? 0)
  | VStr s => negb (String.eqb s "")
  | VDate _ | VObj _ => true
  end.

(** Strict equality with a string literal, [v === lit]. *)
Definition is_string (lit : string) (v : value) : bool :=
  match v with
  | VStr s => String.eqb s lit
  | _ => false
  end.

(** *** Decimal text of integers *)

Definition digit_char (d : N) : ascii := ascii_of_N (48 + d).

Fixpoint digits_go (fuel : nat) (n : N) (acc : string) : string :=
  match fuel with
  | O => acc
  | S fuel' =>
      let acc' := String (digit_char (n mod 10)) acc in
      if (n / 10 =? 0)%N then acc' else digits_go fuel' (n / 10)%N acc'
  end.

Definition show_N (n : N) : string :=
  digits_go (S (N.to_nat (N.log2 n))) n "".

Definition show_Z (z : Z) : string :=
  match z with
  | Z0 => "0"
  | Zpos p => show_N (Npos p)
  | Zneg p => String "-" (show_N (Npos p))
  end.

(** Fixed-width decimal text, most significant digit first. *)
Fixpoint pad (width : nat) (n : N) (acc : string) : string :=
  match width with
  | O => acc
  | S w => pad w (n / 10)%N (String (digit_char (n mod 10)) acc)
  end.

(** *** parseInt *)

Definition is_space (c : ascii) : bool :=
  let n := N_of_ascii c in
  ((9 <=? n) && (n <=? 13) || (n =? 32))%N.

Fixpoint skip_spaces (s : string) : string :=
  match s with
  | String c s' => if is_space c then skip_spaces s' else s
  | EmptyString => s
  end.

Definition digit_val (radix : N) (c : ascii) : option N :=
  let n := N_of_ascii c in
  let d :=
    if ((48 <=? n) && (n <=? 57))%N then Some (n - 48)%N
    else if ((97 <=? n) && (n <=? 122))%N then Some (n - 87)%N
    else if ((65 <=? n) && (n <=? 90))%N then Some (n - 55)%N
    else None in
  match d with
  | Some d' => if (d' <? radix)%N then Some d' else None
  | None => None
  end.

(** Longest prefix of digits; [None] when there is not even one. *)
Fixpoint read_digits (radix : N) (s : string) (acc : option N) : option N :=
  match s with
  | String c s' =>
      match digit_val radix c with
      | Some d => read_digits radix s' (Some (radix * default 0%N acc + d)%N)
      | None => acc
      end
  | EmptyString => acc
  end.

Definition strip_hex_prefix (s : string) : option string :=
  match s with
  | String c1 (String c2 s') =>
      if Ascii.eqb c1 "0" && (Ascii.eqb c2 "x" || Ascii.eqb c2 "X") then Some s'
      else None
  | _ => None
  end.

(** [parseInt(s)] when [radix] is [None], [parseInt(s, r)] otherwise
    (the code only ever passes 10).  The result is the integer the digits
    denote; [parseInt] itself returns the nearest double, which is that
    integer up to 2^53 in magnitude. *)
Definition parseInt_string (radix : option N) (s : string) : value :=
  let s1 := skip_spaces s in
  let '(neg, s2) :=
    match s1 with
    | String c s' =>
        if Ascii.eqb c "-" then (true, s')
        else if Ascii.eqb c "+" then (false, s')
        else (false, s1)
    | EmptyString => (false, s1)
    end in
  let '(r, s3) :=
    match radix, strip_hex_prefix s2 with
    | None, Some s' => (16%N, s')
    | None, None => (10%N, s2)
    | Some r, _ => (r, s2)
    end in
  match read_digits r s3 None with
  | Some n => VNum (if neg : bool then - Z.of_N n else Z.of_N n)
  | None => VNaN
  end.

(** *** Dates: [toISOString] and the parsing of its output *)

Definition ms_per_day : Z := 86400000.
Definition max_time : Z := 8640000000000000.

(** Civil date of a day number counted from 1970-01-01. *)
Definition civil_from_days (z : Z) : Z * Z * Z :=
  let z := z + 719468 in
  let era := z / 146097 in
  let doe := z - era * 146097 in
  let yoe := (doe - doe / 1460 + doe / 36524 - doe / 146096) / 365 in
  let y := yoe + era * 400 in
  let doy := doe - (365 * yoe + yoe / 4 - yoe / 100) in
  let mp := (5 * doy + 2) / 153 in
  let d := doy - (153 * mp + 2) / 5 + 1 in
  let m := if mp <? 10 then mp + 3 else mp - 9 in
  (if m <=? 2 then y + 1 else y, m, d).

Definition days_from_civil (y m d : Z) : Z :=
  let y := if m <=? 2 then y - 1 else y in
  let era := y / 400 in
  let yoe := y - era * 400 in
  let doy := (153 * (if 2 <? m then m - 3 else m + 9) + 2) / 5 + d - 1 in
  let doe := yoe * 365 + yoe / 4 - yoe / 100 + doy in
  era * 146097 + doe - 719468.

Definition padZ (width : nat) (z : Z) (acc : string) : string :=
  pad width (Z.to_N z) acc.

Definition show_year (y : Z) (acc : string) : string :=
  if (0 <=? y) && (y <=? 9999) then padZ 4 y acc
  else String (if y <? 0 then "-"%char else "+"%char) (padZ 6 (Z.abs y) acc).

(** [Date.prototype.toISOString] of a valid time value. *)
Definition iso_of_time (t : Z) : string :=
  let '(y, m, d) := civil_from_days (t / ms_per_day) in
  let r := t mod ms_per_day in
  let hh := r / 3600000 in
  let mm := r / 60000 mod 60 in
  let ss := r / 1000 mod 60 in
  let ms := r mod 1000 in
  show_year y (String "-" (padZ 2 m (String "-" (padZ 2 d (String "T"
    (padZ 2 hh (String ":" (padZ 2 mm (String ":" (padZ 2 ss (String "."
    (padZ 3 ms "Z")))))))))))).

(** Exactly [width] decimal digits, then the rest of the text. *)
Fixpoint read_fixed (width : nat) (s : string) (acc : N) : option (N * string) :=
  match width with
  | O => Some (acc, s)
  | S w =>
      match s with
      | String c s' =>
          match digit_val 10 c with
          | Some d => read_fixed w s' (10 * acc + d)%N
          | None => None
          end
      | EmptyString => None
      end
  end.

Definition expect (c : ascii) (s : string) : option string :=
  match s with
  | String c' s' => if Ascii.eqb c c' then Some s' else None
  | EmptyString => None
  end.

Definition read_year (s : string) : option (Z * string) :=
  match s with
  | String c s' =>
      if Ascii.eqb c "+" then
        '(y, r) ← read_fixed 6 s' 0%N; Some (Z.of_N y, r)
      else if Ascii.eqb c "-" then
        '(y, r) ← read_fixed 6 s' 0%N;
        if (y =? 0)%N then None else Some (- Z.of_N y, r)
      else
        '(y, r) ← read_fixed 4 s 0%N; Some (Z.of_N y, r)
  | EmptyString => None
  end.

Definition time_clip (t : Z) : option Z :=
  if Z.abs t <=? max_time then Some t else None.

(** [Date.parse] on the complete UTC form [YYYY-MM-DDTHH:mm:ss.sssZ] (and
    its signed six-digit-year variant), which is what [toISOString]
    writes.  The shorter forms of the format and the engine-specific
    legacy formats are not recognised by this model: they read as the
    Invalid Date. *)
Definition date_parse (s : string) : option Z :=
  '(y, s) ← read_year s;
  s ← expect "-" s;
  '(m, s) ← read_fixed 2 s 0%N;
  s ← expect "-" s;
  '(d, s) ← read_fixed 2 s 0%N;
  s ← expect "T" s;
  '(hh, s) ← read_fixed 2 s 0%N;
  s ← expect ":" s;
  '(mm, s) ← read_fixed 2 s 0%N;
  s ← expect ":" s;
  '(ss, s) ← read_fixed 2 s 0%N;
  s ← expect "." s;
  '(ms, s) ← read_fixed 3 s 0%N;
  s ← expect "Z" s;
  if negb (String.eqb s "") then None
  else if negb ((1 <=? m) && (m <=? 12) && (1 <=? d) && (d <=? 31)
                 && (hh <=? 23) && (mm <=? 59) && (ss <=? 59))%N then None
  else time_clip (days_from_civil y (Z.of_N m) (Z.of_N d) * ms_per_day
                  + Z.of_N hh * 3600000 + Z.of_N mm * 60000
                  + Z.of_N ss * 1000 + Z.of_N ms).

(** [new Date(v)]: the time value of the created Date.  For a string it is
    what [date_parse] makes of it, that is, what every engine makes of a
    string written by [toISOString]; for an object the model takes the
    Invalid Date (see [portable_timestamp]). *)
Definition new_Date (v : value) : option Z :=
  match v with
  | VDate t => t
  | VNum n => time_clip n
  | VStr s => date_parse s
  | VNull => Some 0
  | VBool b => Some (if b then 1 else 0)
  | VUndef | VNaN | VObj _ => None
  end.

(** [d.toISOString()], which throws on the Invalid Date. *)
Definition toISOString (t : option Z) : error + string :=
  match t with
  | Some t => inr (iso_of_time t)
  | None => inl RangeError
  end.

(** ToString, as used by template literals.  It is the text the engine
    gives for [undefined], [null], booleans, NaN, strings and the integers
    up to 2^53 in magnitude (see [plain_text]).  Beyond that a number is
    printed from its shortest digits, in exponent form from 1e21 on; the
    text of a Date is [Date.prototype.toString], which depends on the
    host's time zone, and is rendered here by its UTC form; an object that
    has a property [toString] of its own makes the conversion throw (see
    [stringifies]). *)
Definition to_string (v : value) : string :=
  match v with
  | VUndef => "undefined"
  | VNull => "null"
  | VBool true => "true"
  | VBool false => "false"
  | VNum n => show_Z n
  | VNaN => "NaN"
  | VStr s => s
  | VDate (Some t) => iso_of_time t
  | VDate None => "Invalid Date"
  | VObj _ => "[object Object]"
  end.

(** [s.split(':').pop()]: the text after the last colon. *)
Fixpoint last_segment_go (s : string) (cur : string) : string :=
  match s with
  | String c s' =>
      if Ascii.eqb c ":" then last_segment_go s' s' else last_segment_go s' cur
  | EmptyString => cur
  end.

Definition last_segment (s : string) : string := last_segment_go s s.

(** [v.split(':').pop()] on an arbitrary value: only strings have [split]. *)
Definition split_pop (v : value) : error + string :=
  match v with
  | VStr s => inr (last_segment s)
  | _ => inl TypeError
  end.

(** [v[k]] on an arbitrary value: reading a property of [undefined] or
    [null] throws, primitives and dates have no such own property. *)
Definition get_prop (v : value) (k : string) : error + value :=
  match v with
  | VUndef | VNull => inl TypeError
  | VObj o => inr (get o k)
  | _ => inr VUndef
  end.

(** Substring test, [s.includes(p)]. *)
Fixpoint includes (p s : string) : bool :=
  String.prefix p s ||
  match s with
  | String _ s' => includes p s'
  | EmptyString => false
  end.

(** Sequencing of computations that may throw. *)
Definition bind {A B : Type} (m : error + A) (k : A -> error + B) : error + B :=
  match m with
  | inl e => inl e
  | inr a => k a
  end.

(** How a call that returns a promise ends: the promise is fulfilled or
    rejected, the call throws before a promise exists, or the promise
    stays pending because a request handler threw. *)
Inductive outcome (A : Type) : Type :=
  | Fulfilled (a : A)
  | Rejected (e : error)
  | Thrown (e : error)
  | Unsettled (e : error).
Arguments Fulfilled {A} a.
Arguments Rejected {A} e.
Arguments Thrown {A} e.
Arguments Unsettled {A} e.

(** [l.map(f)] for an [f] that may throw. *)
Fixpoint map_throw {A B : Type} (f : A -> error + B) (l : list A) : error + list B :=
  match l with
  | [] => inr []
  | x :: l' =>
      match f x with
      | inl e => inl e
      | inr y =>
          match map_throw f l' with
          | inl e => inl e
          | inr ys => inr (y :: ys)
          end
      end
  end.

(** [s.endsWith(suffix)] *)
Fixpoint endsWith (s suffix : string) : bool :=
  String.eqb s suffix ||
  match s with
  | String _ s' => endsWith s' suffix
  | EmptyString => false
  end.

(** [s.lastIndexOf(c)] for a one-character [c]; [None] stands for -1. *)
Fixpoint lastIndexOf (c : ascii) (s : string) : option nat :=
  match s with
  | EmptyString => None
  | String c' s' =>
      match lastIndexOf c s' with
      | Some i => Some (S i)
      | None => if Ascii.eqb c' c then Some 0%nat else None
      end
  end.

End JS.

Import JS.

Notation "'let*' x ':=' m 'in' k" := (JS.bind m (fun x => k))
  (at level 10, x binder, m at level 100, k at level 200).

Abbreviation obj := (gmap string value).

(* ===================================================================== *)
(** ** src/utils/normalization.js                                          *)
(* ===================================================================== *)

Module Normalization.

(** The [...rest] of a destructuring pattern: the object without the
    properties the pattern names. *)
Definition without (ks : list string) (o : obj) : obj := foldr delete o ks.

(** An object literal with distinct property names. *)
Definition object (fields : list (string * value)) : obj := list_to_map fields.

Definition CONTEXT : string := "https://mermaid-ide.org/context/v1.jsonld".
Definition DIAGRAM_TYPE : string := "bfo:BFO_0000031".
Definition PROJECT_TYPE : string := "bfo:BFO_0000027".

Definition diagram_urn (id : value) : string :=
  "urn:mermaid-ide:diagram:" +:+ to_string id.
Definition project_urn (id : value) : string :=
  "urn:mermaid-ide:project:" +:+ to_string id.

(** [parseInt(v.split(':').pop())] *)
Definition parse_urn (v : value) : error + value :=
  let* s := split_pop v in inr (parseInt_string None s).

(** [v ? new Date(v) : undefined] *)
Definition date_or_undefined (v : value) : value :=
  if truthy v then VDate (new_Date v) else VUndef.

(** [v ? new Date(v).toISOString() : undefined] *)
Definition iso_or_undefined (v : value) : error + value :=
  if truthy v then let* s := toISOString (new_Date v) in inr (VStr s)
  else inr VUndef.

Definition diagram_ld_keys : list string :=
  ["@context"; "@id"; "@type"; "schema:name"; "schema:text";
   "bfo:BFO_0000129"; "schema:dateCreated"; "schema:dateModified"].

Definition project_ld_keys : list string :=
  ["@context"; "@id"; "@type"; "schema:name";
   "schema:dateCreated"; "schema:dateModified"].

Definition diagram_simple_keys : list string :=
  ["id"; "projectId"; "title"; "content"; "createdAt"; "updatedAt";
   "lastModifiedRemoteSha"].

Definition project_simple_keys : list string :=
  ["id"; "name"; "createdAt"; "updatedAt"].

Definition normalizeDiagram (data : value) : error + value :=
  match data with
  | VObj o =>
      if truthy (get o "@context") && is_string DIAGRAM_TYPE (get o "@type") then
        let rest := without diagram_ld_keys o in
        let* id := parse_urn (get o "@id") in
        let* member := get_prop (get o "bfo:BFO_0000129") "@id" in
        let* projectId := parse_urn member in
        inr (VObj (rest ∪ object
          [("id", id);
           ("projectId", projectId);
           ("title", get o "schema:name");
           ("content", get o "schema:text");
           ("createdAt", date_or_undefined (get o "schema:dateCreated"));
           ("updatedAt", date_or_undefined (get o "schema:dateModified"))]))
      else inr data
  | _ => inr data
  end.

Definition normalizeProject (data : value) : error + value :=
  match data with
  | VObj o =>
      if truthy (get o "@context") && is_string PROJECT_TYPE (get o "@type") then
        let rest := without project_ld_keys o in
        let* id := parse_urn (get o "@id") in
        inr (VObj (rest ∪ object
          [("id", id);
           ("name", get o "schema:name");
           ("createdAt", date_or_undefined (get o "schema:dateCreated"));
           ("updatedAt", date_or_undefined (get o "schema:dateModified"))]))
      else inr data
  | _ => inr data
  end.

Definition toDiagramLD (diagram : obj) : error + obj :=
  if truthy (get diagram "@context") then inr diagram
  else
    let id := get diagram "id" in
    let projectId := get diagram "projectId" in
    let title := get diagram "title" in
    let rest := without diagram_simple_keys diagram in
    let* created := iso_or_undefined (get diagram "createdAt") in
    let* modified := iso_or_undefined (get diagram "updatedAt") in
    let ldObject := rest ∪ object
      [("@context", VStr CONTEXT);
       ("@id", VStr (diagram_urn id));
       ("@type", VStr DIAGRAM_TYPE);
       ("schema:name", title);
       ("schema:text", get diagram "content");
       ("bfo:BFO_0000129", VObj (object [("@id", VStr (project_urn projectId))]));
       ("schema:dateCreated", created);
       ("schema:dateModified", modified);
       ("lastModifiedRemoteSha", get diagram "lastModifiedRemoteSha");
       ("_name_for_index", title);
       ("projectId", projectId)] in
    inr (if truthy id then <["id" := id]> ldObject else ldObject).

Definition toProjectLD (project : obj) : error + obj :=
  if truthy (get project "@context") then inr project
  else
    let id := get project "id" in
    let name := get project "name" in
    let rest := without project_simple_keys project in
    let* created := iso_or_undefined (get project "createdAt") in
    let* modified := iso_or_undefined (get project "updatedAt") in
    let ldObject := rest ∪ object
      [("@context", VStr CONTEXT);
       ("@id", VStr (project_urn id));
       ("@type", VStr PROJECT_TYPE);
       ("schema:name", name);
       ("schema:dateCreated", created);
       ("schema:dateModified", modified);
       ("_name_for_index", name)] in
    inr (if truthy id then <["id" := id]> ldObject else ldObject).



End Normalization.

Import Normalization.

(* ===================================================================== *)
(** ** The IndexedDB object stores the concept works on                    *)
(* ===================================================================== *)

Module IndexedDB.

(** Valid keys: numbers, dates and strings (array keys only occur as the
    compound key of an index, see [index_key]). *)
Inductive key : Type :=
  | KNum (n : Z)
  | KDate (t : Z)
  | KStr (s : string).

#[export] Instance key_eq_dec : EqDecision key.
Proof. solve_decision. Defined.

Definition key_encode (k : key) : Z + Z + string :=
  match k with
  | KNum n => inl (inl n)
  | KDate t => inl (inr t)
  | KStr s => inr s
  end.

Definition key_decode (x : Z + Z + string) : key :=
  match x with
  | inl (inl n) => KNum n
  | inl (inr t) => KDate t
  | inr s => KStr s
  end.

#[export] Instance key_countable : Countable key.
Proof.
  refine (inj_countable' key_encode key_decode _).
  intros []; reflexivity.
Defined.

(** Conversion of a value to a key; [None] when the value is not a valid
    key. *)
Definition to_key (v : value) : option key :=
  match v with
  | VNum n => Some (KNum n)
  | VDate (Some t) => Some (KDate t)
  | VStr s => Some (KStr s)
  | _ => None
  end.

Definition of_key (k : key) : value :=
  match k with
  | KNum n => VNum n
  | KDate t => VDate (Some t)
  | KStr s => VStr s
  end.

(** Key order: numbers before dates before strings. *)
Fixpoint string_leb (a b : string) : bool :=
  match a, b with
  | EmptyString, _ => true
  | String _ _, EmptyString => false
  | String x a', String y b' =>
      let nx := N_of_ascii x in
      let ny := N_of_ascii y in
      if (nx <? ny)%N then true
      else if (ny <? nx)%N then false
      else string_leb a' b'
  end.

Definition key_leb (a b : key) : bool :=
  match a, b with
  | KNum x, KNum y => x <=? y
  | KNum _, _ => true
  | KDate _, KNum _ => false
  | KDate x, KDate y => x <=? y
  | KDate _, KStr _ => true
  | KStr x, KStr y => string_leb x y
  | KStr _, _ => false
  end.

(** An object store with [keyPath: 'id'] and [autoIncrement: true]. *)
Record object_store : Type := {
  records : gmap key obj;
  generator : Z;
}.

Definition empty_store : object_store := {| records := ∅; generator := 1 |}.

(** The records in key order, as a cursor or [getAll] visits them. *)
Definition entry_le (a b : key * obj) : Prop := Is_true (key_leb a.1 b.1).

#[export] Instance entry_le_dec : RelDecision entry_le.
Proof. intros a b. unfold entry_le. apply _. Defined.

Definition in_key_order (rs : gmap key obj) : list (key * obj) :=
  merge_sort entry_le (map_to_list rs).

(** Evaluating the key path ['id'] on a value to be stored. *)
Inductive extracted : Type :=
  | NoKey
  | InvalidKey
  | HasKey (k : key).

Definition extract_key (item : obj) : extracted :=
  match item !! "id" with
  | None | Some VUndef => NoKey
  | Some v =>
      match to_key v with
      | Some k => HasKey k
      | None => InvalidKey
      end
  end.

(** The key of a record in an index over the given key paths; a record
    that lacks a valid key at one of them is not in the index. *)
Definition index_key (paths : list string) (r : obj) : option (list key) :=
  mapM (fun p => r !! p ≫= to_key) paths.

Definition max_generated : Z := 2 ^ 53.

(** An explicit numeric key moves the key generator past it. *)
Definition bump (gen : Z) (k : key) : Z :=
  match k with
  | KNum n => let v := Z.min n max_generated in if gen <=? v then v + 1 else gen
  | _ => gen
  end.

(** Another record than the one at [k] already has the index key of
    [item] in the unique index. *)
Definition violates (unique : option (list string)) (rs : gmap key obj)
    (k : key) (item : obj) : bool :=
  match unique with
  | None => false
  | Some paths =>
      match index_key paths item with
      | None => false
      | Some ik =>
          existsb (fun kr : key * obj =>
                     bool_decide (kr.1 <> k)
                     && bool_decide (index_key paths kr.2 = Some ik))
                  (map_to_list rs)
      end
  end.

(** [store.put(item)].  On success the result is the key of the record; on
    an error the transaction aborts and the store is as before. *)
Definition put (unique : option (list string)) (st : object_store) (item : obj)
  : error + (key * object_store) :=
  let* target :=
    match extract_key item with
    | HasKey k => inr (k, item, bump (generator st) k)
    | InvalidKey => inl DataError
    | NoKey =>
        if max_generated <? generator st then inl ConstraintError
        else inr (KNum (generator st),
                  <["id" := VNum (generator st)]> item,
                  generator st + 1)
    end in
  let '(k, stored, gen) := target in
  if violates unique (records st) k stored then inl ConstraintError
  else inr (k, {| records := <[k := stored]> (records st); generator := gen |}).

(** [index.getAll(k)] and the cursor over [IDBKeyRange.only(k)] on the
    single-path index [path]. *)
Definition index_matches (path : string) (k : key) (rs : gmap key obj)
  : list (key * obj) :=
  filter (fun kr : key * obj => kr.2 !! path ≫= to_key = Some k) (in_key_order rs).

(** Every record the index holds, by index key and then by primary key. *)
Definition index_entry_le (path : string) (a b : key * obj) : Prop :=
  match a.2 !! path ≫= to_key, b.2 !! path ≫= to_key with
  | Some x, Some y =>
      Is_true (if key_leb x y then (if key_leb y x then key_leb a.1 b.1 else true)
               else false)
  | _, _ => True
  end.

#[export] Instance index_entry_le_dec path : RelDecision (index_entry_le path).
Proof.
  intros a b. unfold index_entry_le.
  destruct (a.2 !! path ≫= to_key), (b.2 !! path ≫= to_key); apply _.
Defined.

Definition index_all (path : string) (rs : gmap key obj) : list (key * obj) :=
  merge_sort (index_entry_le path)
    (filter (fun kr : key * obj => is_Some (kr.2 !! path ≫= to_key)) (map_to_list rs)).

End IndexedDB.

Import IndexedDB.

(* ===================================================================== *)
(** ** src/concepts/storageConcept.js                                      *)
(* ===================================================================== *)

Module StorageConcept.

Inductive store_name : Type := Projects | Diagrams | SyncQueue.

(** The database together with the concept's handle on it:
    [db] tells whether [storageConcept.state.db] is set. *)
Record world : Type := {
  db : bool;
  projects : object_store;
  diagrams : object_store;
  syncQueue : object_store;
}.

(** A database on which [init] has not run yet. *)
Definition fresh : world :=
  {| db := false; projects := empty_store; diagrams := empty_store;
     syncQueue := empty_store |}.

Definition store (n : store_name) (w : world) : object_store :=
  match n with
  | Projects => projects w
  | Diagrams => diagrams w
  | SyncQueue => syncQueue w
  end.

Definition set_store (n : store_name) (st : object_store) (w : world) : world :=
  match n with
  | Projects => {| db := db w; projects := st; diagrams := diagrams w; syncQueue := syncQueue w |}
  | Diagrams => {| db := db w; projects := projects w; diagrams := st; syncQueue := syncQueue w |}
  | SyncQueue => {| db := db w; projects := projects w; diagrams := diagrams w; syncQueue := st |}
  end.

(** The key paths of the unique index the schema of version 3 declares on
    each store: ['_name_for_index'] on projects,
    [['projectId', '_name_for_index']] on diagrams, none on the queue. *)
Definition PROJECT_INDEX : list string := ["_name_for_index"].
Definition DIAGRAM_INDEX : list string := ["projectId"; "_name_for_index"].

Definition unique_index (n : store_name) : option (list string) :=
  match n with
  | Projects => Some PROJECT_INDEX
  | Diagrams => Some DIAGRAM_INDEX
  | SyncQueue => None
  end.

Definition action (A : Type) : Type := world -> outcome A * world.

(** [await] inside an [async] function: a failure of the awaited call
    rejects the function's own promise.  The continuation runs on the state
    the awaited call left: the model lets no other caller's transaction and
    no close of the connection come in between. *)
Definition await_ {A B : Type} (m : action A) (k : A -> action B) : action B :=
  fun w =>
    match m w with
    | (Fulfilled a, w') => k a w'
    | (Rejected e, w') | (Thrown e, w') => (Rejected e, w')
    | (Unsettled e, w') => (Unsettled e, w')
    end.

Definition not_initialized : error :=
  Error "[StorageConcept] Database not initialized.".

(** [init()]: opens the database and keeps the handle.  The stores and
    indexes that the upgrade handler creates are the ones of this model
    ([unique_index]); a failing open request is not modelled. *)
Definition init : action unit :=
  fun w => (Fulfilled tt,
            {| db := true; projects := projects w; diagrams := diagrams w;
               syncQueue := syncQueue w |}).

Definition _getAll (storeName : store_name) : action (list value) :=
  fun w =>
    if negb (db w) then (Rejected not_initialized, w)
    else (Fulfilled (map (fun kr : key * obj => VObj kr.2)
                         (in_key_order (records (store storeName w)))), w).

(** A synchronous computation inside an [async] function. *)
Definition lift {A : Type} (m : error + A) : action A :=
  fun w =>
    match m with
    | inr a => (Fulfilled a, w)
    | inl e => (Rejected e, w)
    end.

(** A synchronous computation at the start of a plain function that goes
    on to return a promise. *)
Definition sync {A B : Type} (m : error + A) (k : A -> action B) : action B :=
  fun w =>
    match m with
    | inr a => k a w
    | inl e => (Thrown e, w)
    end.

Definition getAllProjects : action (list value) :=
  await_ (_getAll Projects) (fun rawProjects =>
  lift (map_throw normalizeProject rawProjects)).

(** The normalisation [_get] applies at the point of retrieval. *)
Definition normalize_for (storeName : store_name) (v : value) : error + value :=
  match storeName with
  | Projects => normalizeProject v
  | Diagrams => normalizeDiagram v
  | SyncQueue => inr v
  end.

(** [_get]: the [onsuccess] handler normalizes the result; if that throws,
    the promise is never settled. *)
Definition _get (storeName : store_name) (k : value) : action value :=
  fun w =>
    if negb (db w) then (Rejected not_initialized, w)
    else
      match to_key k with
      | None => (Rejected DataError, w)
      | Some k' =>
          let result :=
            match records (store storeName w) !! k' with
            | Some r => VObj r
            | None => VUndef
            end in
          match normalize_for storeName result with
          | inr v => (Fulfilled v, w)
          | inl e => (Unsettled e, w)
          end
      end.

(** [_put]: resolves with the key of the record, rejects with the error of
    the request. *)
Definition _put (storeName : store_name) (item : obj) : action key :=
  fun w =>
    if negb (db w) then (Rejected not_initialized, w)
    else
      match put (unique_index storeName) (store storeName w) item with
      | inr (k, st) => (Fulfilled k, set_store storeName st w)
      | inl e => (Rejected e, w)
      end.

Definition _delete (storeName : store_name) (k : value) : action unit :=
  fun w =>
    if negb (db w) then (Rejected not_initialized, w)
    else
      match to_key k with
      | None => (Rejected DataError, w)
      | Some k' =>
          let st := store storeName w in
          (Fulfilled tt,
           set_store storeName
             {| records := delete k' (records st); generator := generator st |} w)
      end.

(** [{ id: data.id, ...data }] *)
Definition with_id (data : obj) : obj := <["id" := get data "id"]> data.

(** [addDiagram]: the record is written once to learn its key, then
    [id] and ['@id'] are set from the key and it is written again. *)
Definition addDiagram (diagramData : obj) : action key :=
  let diagramWithId := with_id diagramData in
  await_ (lift (toDiagramLD diagramWithId)) (fun diagramLD =>
  await_ (_put Diagrams diagramLD) (fun newId =>
  let diagramLD := <["id" := of_key newId]> diagramLD in
  let diagramLD := <["@id" := VStr (diagram_urn (of_key newId))]> diagramLD in
  _put Diagrams diagramLD)).

Definition getDiagram (diagramId : value) : action value := _get Diagrams diagramId.

(** [updateDiagram] is not [async]: a failing conversion is thrown to the
    caller. *)
Definition updateDiagram (diagramData : obj) : action key :=
  sync (toDiagramLD diagramData) (fun diagramLD => _put Diagrams diagramLD).

Definition getProject (projectId : value) : action value := _get Projects projectId.

Definition deleteDiagram (diagramId : value) : action unit := _delete Diagrams diagramId.

Definition addProject (projectData : obj) : action key :=
  let projectWithId := with_id projectData in
  await_ (lift (toProjectLD projectWithId)) (fun projectLD =>
  await_ (_put Projects projectLD) (fun newId =>
  let projectLD := <["id" := of_key newId]> projectLD in
  let projectLD := <["@id" := VStr (project_urn (of_key newId))]> projectLD in
  _put Projects projectLD)).

Definition updateProject (projectData : obj) : action key :=
  sync (toProjectLD projectData) (fun projectLD => _put Projects projectLD).

(** [deleteProject]: one delete on the projects store. *)
Definition deleteProject (projectId : value) : action unit := _delete Projects projectId.

(** The cursor loop: [cursor.delete(); cursor.continue()] over the records
    the cursor visits. *)
Definition cursor_delete_all (visited : list (key * obj)) (rs : gmap key obj)
  : gmap key obj :=
  foldl (fun m kr => delete kr.1 m) rs visited.

Definition deleteDiagramsByProjectId (projectId : value) : action unit :=
  fun w =>
    if negb (db w) then (Rejected not_initialized, w)
    else
      match to_key projectId with
      | None => (Rejected DataError, w)
      | Some k =>
          let st := diagrams w in
          let visited := index_matches "projectId" k (records st) in
          (Fulfilled tt,
           set_store Diagrams
             {| records := cursor_delete_all visited (records st);
                generator := generator st |} w)
      end.

Definition getSyncQueueItems : action (list value) := _getAll SyncQueue.

Definition addSyncQueueItem (item : obj) : action key := _put SyncQueue item.

Definition deleteSyncQueueItem (itemId : value) : action unit := _delete SyncQueue itemId.

(** [index.getAll(query)]: no query (undefined or null) selects the whole
    index. *)
Definition index_getAll (query : value) (rs : gmap key obj)
  : error + list (key * obj) :=
  match query with
  | VUndef | VNull => inr (index_all "projectId" rs)
  | _ =>
      match to_key query with
      | Some k => inr (index_matches "projectId" k rs)
      | None => inl DataError
      end
  end.

Definition getDiagramsByProjectId (projectId : value) : action (list value) :=
  fun w =>
    if negb (db w) then (Rejected not_initialized, w)
    else
      match index_getAll projectId (records (diagrams w)) with
      | inl e => (Rejected e, w)
      | inr found =>
          match map_throw (fun kr : key * obj => normalizeDiagram (VObj kr.2)) found with
          | inr l => (Fulfilled l, w)
          | inl e => (Unsettled e, w)
          end
      end.

End StorageConcept.

Import StorageConcept.

Notation "'await' x ':=' m 'in' k" := (await_ m (fun x => k))
  (at level 10, x binder, m at level 100, k at level 200).

(* ===================================================================== *)
(** ** The GitHub adapter                                                  *)
(* ===================================================================== *)

Module GithubAdapter.

(** File contents are JavaScript strings, that is, sequences of UTF-16
    code units; base64 text and binary strings are such sequences too. *)
Abbreviation units := (list Z).

Definition units_of_string (s : string) : units :=
  map (fun c => Z.of_N (N_of_ascii c)) (list_ascii_of_string s).

Definition is_high_surrogate (c : Z) : bool := (0xD800 <=? c) && (c <=? 0xDBFF).
Definition is_low_surrogate (c : Z) : bool := (0xDC00 <=? c) && (c <=? 0xDFFF).

Definition utf8_of_code_point (cp : Z) : list Z :=
  if cp <? 0x80 then [cp]
  else if cp <? 0x800 then
    [Z.lor 0xC0 (Z.shiftr cp 6); Z.lor 0x80 (Z.land cp 0x3F)]
  else if cp <? 0x10000 then
    [Z.lor 0xE0 (Z.shiftr cp 12);
     Z.lor 0x80 (Z.land (Z.shiftr cp 6) 0x3F);
     Z.lor 0x80 (Z.land cp 0x3F)]
  else
    [Z.lor 0xF0 (Z.shiftr cp 18);
     Z.lor 0x80 (Z.land (Z.shiftr cp 12) 0x3F);
     Z.lor 0x80 (Z.land (Z.shiftr cp 6) 0x3F);
     Z.lor 0x80 (Z.land cp 0x3F)].

(** [new TextEncoder().encode(str)]: a surrogate pair is one code point,
    a lone surrogate is replaced by U+FFFD. *)
Fixpoint TextEncoder_encode (str : units) : list Z :=
  match str with
  | [] => []
  | c :: rest =>
      if is_high_surrogate c then
        match rest with
        | d :: rest' =>
            if is_low_surrogate d then
              utf8_of_code_point (0x10000 + (c - 0xD800) * 0x400 + (d - 0xDC00))
                ++ TextEncoder_encode rest'
            else utf8_of_code_point 0xFFFD ++ TextEncoder_encode rest
        | [] => utf8_of_code_point 0xFFFD
        end
      else if is_low_surrogate c then
        utf8_of_code_point 0xFFFD ++ TextEncoder_encode rest
      else utf8_of_code_point c ++ TextEncoder_encode rest
  end.

(** [String.fromCharCode.apply(null, bytes)] *)
Definition fromCharCode (codes : list Z) : units :=
  map (fun c => c mod 0x10000) codes.

Definition b64_char (i : Z) : Z :=
  if i <? 26 then 65 + i
  else if i <? 52 then 97 + (i - 26)
  else if i <? 62 then 48 + (i - 52)
  else if i =? 62 then 43
  else 47.

Definition PAD : Z := 61.

Fixpoint b64_encode (bytes : list Z) : units :=
  match bytes with
  | [] => []
  | [a] =>
      [b64_char (Z.shiftr a 2); b64_char (Z.shiftl (Z.land a 3) 4); PAD; PAD]
  | [a; b] =>
      [b64_char (Z.shiftr a 2);
       b64_char (Z.lor (Z.shiftl (Z.land a 3) 4) (Z.shiftr b 4));
       b64_char (Z.shiftl (Z.land b 15) 2); PAD]
  | a :: b :: c :: rest =>
      [b64_char (Z.shiftr a 2);
       b64_char (Z.lor (Z.shiftl (Z.land a 3) 4) (Z.shiftr b 4));
       b64_char (Z.lor (Z.shiftl (Z.land b 15) 2) (Z.shiftr c 6));
       b64_char (Z.land c 63)] ++ b64_encode rest
  end.

(** [btoa(s)]: defined on binary strings only. *)
Definition btoa (s : units) : error + units :=
  if forallb (fun c => c <=? 255) s then inr (b64_encode s)
  else inl InvalidCharacterError.

Definition unicodeBtoa (str : units) : error + units :=
  let utf8Bytes := TextEncoder_encode str in
  btoa (fromCharCode utf8Bytes).

Definition is_ascii_whitespace (c : Z) : bool :=
  (c =? 9) || (c =? 10) || (c =? 12) || (c =? 13) || (c =? 32).

Definition b64_value (c : Z) : option Z :=
  if (65 <=? c) && (c <=? 90) then Some (c - 65)
  else if (97 <=? c) && (c <=? 122) then Some (c - 71)
  else if (48 <=? c) && (c <=? 57) then Some (c + 4)
  else if c =? 43 then Some 62
  else if c =? 47 then Some 63
  else None.

(** One trailing [=] removed, if there is one. *)
Definition drop_pad (s : units) : units :=
  match reverse s with
  | c :: r => if c =? PAD then reverse r else s
  | [] => s
  end.

Definition strip_padding (s : units) : units :=
  if Z.of_nat (List.length s) mod 4 =? 0 then drop_pad (drop_pad s) else s.

Fixpoint b64_decode (sextets : list Z) : list Z :=
  match sextets with
  | a :: b :: c :: d :: rest =>
      [Z.lor (Z.shiftl a 2) (Z.shiftr b 4);
       Z.lor (Z.shiftl (Z.land b 15) 4) (Z.shiftr c 2);
       Z.lor (Z.shiftl (Z.land c 3) 6) d] ++ b64_decode rest
  | [a; b; c] =>
      [Z.lor (Z.shiftl a 2) (Z.shiftr b 4);
       Z.lor (Z.shiftl (Z.land b 15) 4) (Z.shiftr c 2)]
  | [a; b] => [Z.lor (Z.shiftl a 2) (Z.shiftr b 4)]
  | _ => []
  end.

(** [atob(s)], the forgiving base64 decoding: the result is a binary
    string, one code unit per decoded byte. *)
Definition atob (s : units) : error + units :=
  let s := filter (fun c => is_ascii_whitespace c = false) s in
  let s := strip_padding s in
  if Z.of_nat (List.length s) mod 4 =? 1 then inl InvalidCharacterError
  else
    match mapM b64_value s with
    | Some sextets => inr (b64_decode sextets)
    | None => inl InvalidCharacterError
    end.

(** The [content] that [putContents] puts in the request body. *)
Definition putContents_content (content : units) : error + units :=
  unicodeBtoa content.

(** The [content] that [getContents] returns for the [content] of the
    provider's response. *)
Definition getContents_content (response_content : units) : error + units :=
  atob response_content.

(** What [putContents] sends, read back by [getContents]. *)
Definition put_then_get (content : units) : error + units :=
  let* sent := putContents_content content in getContents_content sent.

(** *** [_githubFetch] *)

Record response : Type := {
  status : Z;
  statusText : string;
  json : option value;          (* [None]: the body is not JSON *)
  retryAfter : option string;   (* the [Retry-After] header *)
  oauthScopes : option string;  (* the [X-OAuth-Scopes] header *)
}.

Definition ok (r : response) : bool := (200 <=? status r) && (status r <=? 299).

(** [(await response.json().catch(() => ({ message: response.statusText }))).message],
    as the template literal renders it. *)
Definition error_message (r : response) : error + string :=
  match json r with
  | None => inr (statusText r)
  | Some body => let* m := get_prop body "message" in inr (to_string m)
  end.

Definition api_error (r : response) (message : string) : string :=
  "[GitHub API Error] " +:+ show_Z (status r) +:+ ": " +:+ message.

Definition scope_error : string :=
  "[GitHub Adapter] A 403 Forbidden error occurred. Please ensure your Personal Access Token has the 'repo' scope (for private repos) or 'public_repo' scope (for public repos).".

Definition exhausted_error (retries : nat) (lastError : option string) : string :=
  "[GitHub Adapter] Request failed after " +:+ show_Z (Z.of_nat retries)
    +:+ " retries. Last error: " +:+ default "undefined" lastError.

(** The wait after a rate-limit response at attempt [i]:
    [backoff * Math.pow(2, i)], or the seconds of [Retry-After] when the
    header is there and [parseInt] reads a number in it. *)
Definition wait_time (backoff : Z) (i : nat) (r : response) : Z :=
  let waitTime := backoff * 2 ^ Z.of_nat i in
  match retryAfter r with
  | Some header =>
      if negb (String.eqb header "") then
        match parseInt_string (Some 10%N) header with
        | VNum retryAfterSeconds => retryAfterSeconds * 1000
        | _ => waitTime
        end
      else waitTime
  | None => waitTime
  end.

(** What a call did: how it ended, how many requests it sent and how long
    it slept between them, in order. *)
Record run : Type := {
  result : outcome value;
  fetches : nat;
  sleeps : list Z;
}.

(** The loop of [_githubFetch] from attempt [i] on, [left] iterations
    remaining.  [net i] is the provider's answer to the request of index
    [i], [None] when the request fails at the network level. *)
Fixpoint fetch_loop (net : nat -> option response) (retries : nat) (backoff : Z)
    (left : nat) (i : nat) (lastError : option string) (slept : list Z) : run :=
  match left with
  | O =>
      let message :=
        match lastError with
        | Some m => if includes "403" m then scope_error
                    else exhausted_error retries lastError
        | None => exhausted_error retries lastError
        end in
      {| result := Rejected (Error message); fetches := i; sleeps := slept |}
  | S left' =>
      match net i with
      | None => {| result := Rejected TypeError; fetches := S i; sleeps := slept |}
      | Some r =>
          if ok r then
            {| result :=
                 if status r =? 204 then Fulfilled VNull
                 else match json r with
                      | Some v => Fulfilled v
                      | None => Rejected SyntaxError
                      end;
               fetches := S i; sleeps := slept |}
          else if (status r =? 403) || (status r =? 429) then
            match error_message r with
            | inl e => {| result := Rejected e; fetches := S i; sleeps := slept |}
            | inr m =>
                fetch_loop net retries backoff left' (S i)
                  (Some (api_error r m)) (slept ++ [wait_time backoff i r])
            end
          else
            match error_message r with
            | inl e => {| result := Rejected e; fetches := S i; sleeps := slept |}
            | inr m =>
                {| result := Rejected (Error (api_error r m));
                   fetches := S i; sleeps := slept |}
            end
      end
  end.

Definition _githubFetch (net : nat -> option response) (retries : nat) (backoff : Z)
  : run :=
  fetch_loop net retries backoff retries 0%nat None [].

Definition DEFAULT_RETRIES : nat := 3.
Definition DEFAULT_BACKOFF : Z := 1000.

(** *** [_buildApiUrl] *)

Definition GITHUB_API_BASE : string := "https://api.github.com".

(** [_buildApiUrl(path, apiBaseUrl)]; [apiBaseUrl] is whatever the adapter
    options hold, and only a string has [endsWith]. *)
Definition _buildApiUrl (path : string) (apiBaseUrl : value) : error + string :=
  if truthy apiBaseUrl then
    match apiBaseUrl with
    | VStr s =>
        let baseUrl := if endsWith s "/api/v3" then s else s +:+ "/api/v3" in
        inr (baseUrl +:+ "/" +:+ path)
    | _ => inl TypeError
    end
  else inr (GITHUB_API_BASE +:+ "/" +:+ path).

(** *** [getTreeSha] *)

(** [path.includes('/') ? path.substring(0, path.lastIndexOf('/')) : ''] *)
Definition parentPath (path : string) : string :=
  if includes "/" path then
    match lastIndexOf "/" path with
    | Some i => substring 0 i path
    | None => ""
    end
  else "".

(** What [await this.listContents(...)] resolves with: a JSON array of
    entries, or some other JSON value. *)
Inductive listing : Type :=
  | Entries (entries : list value)
  | NotAnArray (v : value).

(** The callback of [find]: [entry.path === path && entry.type === 'dir']. *)
Definition is_dir_at (path : string) (entry : value) : error + bool :=
  let* p := get_prop entry "path" in
  if is_string path p then
    let* t := get_prop entry "type" in inr (is_string "dir" t)
  else inr false.

(** [l.find(f)] for an [f] that may throw; [undefined] when nothing is found. *)
Fixpoint find_throw (f : value -> error + bool) (l : list value) : error + value :=
  match l with
  | [] => inr VUndef
  | x :: l' =>
      match f x with
      | inl e => inl e
      | inr found => if found : bool then inr x else find_throw f l'
      end
  end.

(** [error.message]: the text given to [new Error(...)]; for the errors the
    engine raises itself, the text the engine gives them ([native]). *)
Definition message_of (native : error -> string) (e : error) : string :=
  match e with
  | Error m => m
  | _ => native e
  end.

(** [getTreeSha], given how the listing of the parent directory ended
    ([inl e]: [listContents] rejected with [e]). *)
Definition getTreeSha (native : error -> string) (path : string)
    (parentContents : error + listing) : outcome value :=
  let tried :=
    match parentContents with
    | inl e => inl e
    | inr (NotAnArray _) => inl TypeError
    | inr (Entries entries) =>
        match find_throw (is_dir_at path) entries with
        | inl e => inl e
        | inr pathEntry =>
            if negb (truthy pathEntry) then inr VNull
            else get_prop pathEntry "sha"
        end
    end in
  match tried with
  | inr sha => Fulfilled sha
  | inl e =>
      if includes "404" (message_of native e) then Fulfilled VNull else Rejected e
  end.

End GithubAdapter.

Import GithubAdapter.

(* ===================================================================== *)
(** ** The diagram concept, a client of [createEventBus]                   *)
(* ===================================================================== *)

Module DiagramConcept.

(** What the concept hands to [bus.notify], one constructor per event it
    emits.  [createEventBus] calls every subscriber, in the order of
    subscription, with the event and its payload; the subscribers are taken
    not to call back into the concept while they are being notified, so
    the notifications of an action are the list it returns.  A payload is
    recorded as it is at the moment of the call; the objects of
    [state.diagrams] and the one of [state.currentDiagram] are taken to be
    distinct objects, as they are when they come from separate reads of
    the storage. *)
Inductive notification : Type :=
  | DoListDiagrams (projectId : value)
  | DiagramsUpdated (diagrams : list value) (currentDiagramId : value)
  | DiagramContentLoaded (diagram : value)
  | DoLoadDiagram (diagramId : value)
  | DoSaveDiagram (diagramData : value)
  | DoShowNewDiagramModal
  | DoDownloadFile (filename : string) (content : value) (mimeType : string)
  | DoDeleteDiagram (diagramId : value)
  | DiagramContentChanged (content : value).

Record state : Type := {
  diagrams : list value;
  currentDiagram : value;
}.

Definition initialState : state := {| diagrams := []; currentDiagram := VNull |}.

(** An action runs on the state, notifies as it goes, and returns or
    throws; what it did before a throw stays done. *)
Definition step (A : Type) : Type := state -> state * list notification * (error + A).

Definition ret {A : Type} (a : A) : step A := fun s => (s, [], inr a).

Definition and_then {A B : Type} (m : step A) (k : A -> step B) : step B :=
  fun s =>
    match m s with
    | (s1, n1, inr a) =>
        match k a s1 with
        | (s2, n2, r) => (s2, n1 ++ n2, r)
        end
    | (s1, n1, inl e) => (s1, n1, inl e)
    end.

Definition notify (n : notification) : step unit := fun s => (s, [n], inr tt).

Definition throws {A : Type} (m : error + A) : step A := fun s => (s, [], m).

Definition read : step state := fun s => (s, [], inr s).

Definition set_diagrams (l : list value) : step unit :=
  fun s => ({| diagrams := l; currentDiagram := currentDiagram s |}, [], inr tt).

Definition set_current (v : value) : step unit :=
  fun s => ({| diagrams := diagrams s; currentDiagram := v |}, [], inr tt).

(** [v?.k] *)
Definition opt_get (v : value) (k : string) : value :=
  match v with
  | VObj o => get o k
  | _ => VUndef
  end.

(** [a === b].  Two objects are strictly equal only when they are the same
    object; identifiers are primitives, so objects and dates compare as
    different. *)
Definition strict_eq (a b : value) : bool :=
  match a, b with
  | VUndef, VUndef | VNull, VNull => true
  | VBool x, VBool y => Bool.eqb x y
  | VNum x, VNum y => x =? y
  | VStr x, VStr y => String.eqb x y
  | _, _ => false
  end.

(** [l.find(d => d.id === id)] *)
Fixpoint find_by_id (id : value) (l : list value) : error + value :=
  match l with
  | [] => inr VUndef
  | d :: l' =>
      match get_prop d "id" with
      | inl e => inl e
      | inr i => if strict_eq i id then inr d else find_by_id id l'
      end
  end.

(** [v.k = x] in strict mode: a property of an object is set, a primitive
    takes none (of a Date the model keeps the time value only). *)
Definition set_prop (v : value) (k : string) (x : value) : error + value :=
  match v with
  | VObj o => inr (VObj (<[k := x]> o))
  | VDate t => inr (VDate t)
  | _ => inl TypeError
  end.

(** The own enumerable properties that [{ ...v }] copies. *)
Fixpoint chars_from (i : N) (s : string) : list (string * value) :=
  match s with
  | EmptyString => []
  | String c s' => (show_N i, VStr (String c "")) :: chars_from (i + 1) s'
  end.

Definition spread (v : value) : obj :=
  match v with
  | VObj o => o
  | VStr s => list_to_map (chars_from 0 s)
  | _ => ∅
  end.

Definition NEW_CONTENT : string :=
  "graph TD;" +:+ String (ascii_of_nat 10) "  A-->B;".

Definition _setDiagrams (l : list value) : step unit :=
  and_then (set_diagrams l) (fun _ =>
  and_then read (fun s =>
  and_then (notify (DiagramsUpdated (diagrams s) (opt_get (currentDiagram s) "id"))) (fun _ =>
  match currentDiagram s with
  | VNull => notify (DiagramContentLoaded VNull)
  | _ => ret tt
  end))).

Definition _loadDiagrams (projectId : value) : step unit :=
  if truthy projectId then notify (DoListDiagrams projectId)
  else
    and_then (_setDiagrams []) (fun _ =>
    and_then (set_current VNull) (fun _ =>
    notify (DiagramContentLoaded VNull))).

Definition _initializeUnsavedDiagram (content : value) : step unit :=
  and_then read (fun s =>
  and_then (if truthy (currentDiagram s) then ret tt
       else set_current (VObj (object [("id", VNull); ("name", VStr ""); ("content", content)])))
      (fun _ =>
  and_then read (fun s => notify (DiagramContentLoaded (currentDiagram s))))).

Definition _setCurrentDiagram (diagramId : value) : step unit :=
  if truthy diagramId then notify (DoLoadDiagram diagramId)
  else _initializeUnsavedDiagram (VStr "").

Definition _handleDiagramLoaded (diagram : value) : step unit :=
  and_then (set_current diagram) (fun _ =>
  and_then (notify (DiagramContentLoaded diagram)) (fun _ =>
  and_then read (fun s =>
  notify (DiagramsUpdated (diagrams s) (opt_get (currentDiagram s) "id"))))).

Definition _createDiagram (name projectId : value) : step unit :=
  notify (DoSaveDiagram (VObj (object [("name", name); ("projectId", projectId);
                                        ("content", VStr NEW_CONTENT)]))).

Definition _saveCurrentDiagram : step unit :=
  and_then read (fun s =>
  if negb (truthy (currentDiagram s)) then ret tt
  else if truthy (opt_get (currentDiagram s) "id")
       then notify (DoSaveDiagram (currentDiagram s))
       else notify DoShowNewDiagramModal).

Definition _exportCurrentDiagramAsMmd : step unit :=
  and_then read (fun s =>
  let currentDiagram := currentDiagram s in
  if truthy currentDiagram then
    let name := opt_get currentDiagram "name" in
    notify (DoDownloadFile
              (to_string (if truthy name then name else VStr "diagram") +:+ ".mmd")
              (opt_get currentDiagram "content")
              "text/plain;charset=utf-8")
  else ret tt).

Definition _renameDiagram (diagramId newName : value) : step unit :=
  and_then read (fun s =>
  and_then (throws (find_by_id diagramId (diagrams s))) (fun diagramToRename =>
  if truthy diagramToRename then
    notify (DoSaveDiagram (VObj (<["name" := newName]> (spread diagramToRename))))
  else ret tt)).

Definition _deleteDiagram (diagramId : value) : step unit :=
  notify (DoDeleteDiagram diagramId).

Definition _updateCurrentDiagramContent (content : value) : step unit :=
  and_then read (fun s =>
  and_then (if truthy (currentDiagram s) then
         and_then (throws (set_prop (currentDiagram s) "content" content)) set_current
       else ret tt) (fun _ =>
  notify (DiagramContentChanged content))).

Definition _handleDiagramSaved (savedDiagram : value) : step unit :=
  and_then (throws (get_prop savedDiagram "projectId")) _loadDiagrams.

Definition _handleDiagramDeleted (diagramId : value) : step unit :=
  and_then read (fun s =>
  and_then (if strict_eq (opt_get (currentDiagram s) "id") diagramId then
         and_then (set_current VNull) (fun _ => notify (DiagramContentLoaded VNull))
       else ret tt) (fun _ =>
  and_then read (fun s =>
  and_then (throws (find_by_id diagramId (diagrams s))) (fun found =>
  let projectId := opt_get found "projectId" in
  if truthy projectId then _loadDiagrams projectId else ret tt)))).

Definition _reset : step unit := fun _ => (initialState, [], inr tt).

(** The entries of [actions], each with the fields its handler takes from
    the payload ([debouncedUpdateCurrentDiagramContent], which needs a
    timer, is left out). *)
Inductive action : Type :=
  | LoadDiagrams (projectId : value)
  | SetDiagrams (diagrams : list value)
  | SetCurrentDiagram (diagramId : value)
  | HandleDiagramLoaded (diagram : value)
  | CreateDiagram (name projectId : value)
  | SaveCurrentDiagram
  | RenameDiagram (diagramId newName : value)
  | DeleteDiagram (diagramId : value)
  | ExportCurrentDiagramAsMmd
  | UpdateCurrentDiagramContent (content : value)
  | HandleDiagramSaved (savedDiagram : value)
  | InitializeUnsavedDiagram (content : value)
  | HandleDiagramDeleted (diagramId : value)
  | Reset.

(** [diagramConcept.listen(event, payload)] for the event of an action. *)
Definition listen (a : action) : step unit :=
  match a with
  | LoadDiagrams projectId => _loadDiagrams projectId
  | SetDiagrams l => _setDiagrams l
  | SetCurrentDiagram diagramId => _setCurrentDiagram diagramId
  | HandleDiagramLoaded diagram => _handleDiagramLoaded diagram
  | CreateDiagram name projectId => _createDiagram name projectId
  | SaveCurrentDiagram => _saveCurrentDiagram
  | RenameDiagram diagramId newName => _renameDiagram diagramId newName
  | DeleteDiagram diagramId => _deleteDiagram diagramId
  | ExportCurrentDiagramAsMmd => _exportCurrentDiagramAsMmd
  | UpdateCurrentDiagramContent content => _updateCurrentDiagramContent content
  | HandleDiagramSaved savedDiagram => _handleDiagramSaved savedDiagram
  | InitializeUnsavedDiagram content => _initializeUnsavedDiagram content
  | HandleDiagramDeleted diagramId => _handleDiagramDeleted diagramId
  | Reset => _reset
  end.

(** A script of calls to [listen], up to the first one that throws. *)
Fixpoint run (script : list action) : step unit :=
  match script with
  | [] => ret tt
  | a :: script' => and_then (listen a) (fun _ => run script')
  end.

End DiagramConcept.

(* ===================================================================== *)
(** ** Vocabulary of the statements and sample data                        *)
(* ===================================================================== *)

(** First binding of a name in the fields of an object literal. *)
Fixpoint assoc (k : string) (l : list (string * value)) : option value :=
  match l with
  | [] => None
  | (k', v) :: l' => if String.eqb k k' then Some v else assoc k l'
  end.



(** A record in the simple shape carries none of the linked-data
    properties. *)
Definition simple_diagram (R : obj) : Prop :=
  Forall (fun k => R !! k = None) diagram_ld_keys.

Definition simple_project (R : obj) : Prop :=
  Forall (fun k => R !! k = None) project_ld_keys.

(** The time values a Date can hold: at most 100,000,000 days from the
    epoch, either way. *)
Definition valid_time (t : Z) : Prop := Z.abs t <= max_time.

(** A timestamp field is absent or holds such a Date. *)
Definition timestamp_ok (v : value) : Prop :=
  v = VUndef \/ exists t, v = VDate (Some t) /\ valid_time t.


Definition dated_diagram : obj :=
  object [("id", VNum 1); ("projectId", VNum 2); ("title", VStr "A");
          ("content", VStr "graph TD;A-->B;");
          ("createdAt", VDate (Some 1700000000123));
          ("updatedAt", VDate (Some 1700000360000));
          ("lastModifiedRemoteSha", VStr "3f9a"); ("pinned", VBool true)].

(** A diagram as a read returns it, then renamed by the caller. *)
Definition renamed_diagram : obj :=
  object [("id", VNum 1); ("projectId", VNum 2); ("title", VStr "New");
          ("content", VStr "graph TD;A-->B;"); ("_name_for_index", VStr "Old")].

Definition renamed_project : obj :=
  object [("id", VNum 7); ("name", VStr "New"); ("_name_for_index", VStr "Old")].

(** Linked-data markers of a diagram, without the membership property. *)
Definition orphan_ld_diagram : obj :=
  object [("@context", VStr CONTEXT); ("@id", VStr "urn:mermaid-ide:diagram:1");
          ("@type", VStr DIAGRAM_TYPE); ("schema:name", VStr "A");
          ("schema:text", VStr "graph TD;A-->B;")].

(** Bytes, six-bit groups and code units. *)
Definition byte (b : Z) : Prop := 0 <= b < 256.
Definition sextet (x : Z) : Prop := 0 <= x < 64.

(** The six-bit groups [b64_encode] writes, before they become
    characters, and the padding it appends. *)
Fixpoint sextets (bytes : list Z) : list Z :=
  match bytes with
  | [] => []
  | [a] => [Z.shiftr a 2; Z.shiftl (Z.land a 3) 4]
  | [a; b] =>
      [Z.shiftr a 2; Z.lor (Z.shiftl (Z.land a 3) 4) (Z.shiftr b 4);
       Z.shiftl (Z.land b 15) 2]
  | a :: b :: c :: rest =>
      [Z.shiftr a 2; Z.lor (Z.shiftl (Z.land a 3) 4) (Z.shiftr b 4);
       Z.lor (Z.shiftl (Z.land b 15) 2) (Z.shiftr c 6); Z.land c 63]
      ++ sextets rest
  end.

Fixpoint padding (bytes : list Z) : list Z :=
  match bytes with
  | [] => []
  | [a] => [PAD; PAD]
  | [a; b] => [PAD]
  | a :: b :: c :: rest => padding rest
  end.

Definition code_unit (c : Z) : Prop := 0 <= c < 65536.
Definition ascii_unit (c : Z) : Prop := 0 <= c < 128.

Definition cafe : units := [99; 97; 102; 233; 32; 20013; 25991].

Definition plain (st : Z) (msg : string) : response :=
  {| status := st; statusText := ""; json := Some (VObj (object [("message", VStr msg)]));
     retryAfter := None; oauthScopes := None |}.

Definition rate_limited (retry_after : option string) : response :=
  {| status := 429; statusText := "Too Many Requests";
     json := Some (VObj (object [("message", VStr "slow down")]));
     retryAfter := retry_after; oauthScopes := None |}.

(** Three rate-limit answers, then a success. *)
Definition three_429_then_200 (i : nat) : option response :=
  Some (if (i <? 3)%nat then rate_limited None else plain 200 "ok").

Definition two_429_then_200 (i : nat) : option response :=
  Some (if (i <? 2)%nat then rate_limited None else plain 200 "ok").

Definition not_found : response :=
  {| status := 404; statusText := "Not Found";
     json := Some (VObj (object [("message", VStr "Not Found")]));
     retryAfter := None; oauthScopes := None |}.

Definition sample_diagram : obj :=
  object [("id", VNum 1); ("projectId", VNum 2); ("title", VStr "A");
          ("content", VStr "graph TD;A-->B;")].

Definition demo_world : world :=
  ((await _ := init in
   await p := addProject (object [("name", VStr "Demo"); ("gitProvider", VStr "local")]) in
   await d := addDiagram (object [("projectId", of_key p); ("title", VStr "A");
                                  ("content", VStr "graph TD;A-->B;")]) in
   lift (inr tt)) fresh).2.



(** Numeric keys in use lie below the key generator. *)
Definition store_ok (st : object_store) : Prop :=
  forall n r, records st !! KNum n = Some r -> n < generator st.

(** No stored record has the index key of [item] in the unique index. *)
Definition index_free (paths : list string) (rs : gmap key obj) (item : obj) : Prop :=
  forall k r ik, rs !! k = Some r -> index_key paths r = Some ik ->
                 index_key paths item <> Some ik.

(** What a caller passes to [addDiagram] for a new diagram titled [T] under
    project [P]: a simple record without an id of its own. *)
Definition new_diagram (d : obj) (P : value) (T : string) : Prop :=
  simple_diagram d /\ d !! "_name_for_index" = None
  /\ truthy (get d "id") = false
  /\ get d "projectId" = P /\ get d "title" = VStr T
  /\ timestamp_ok (get d "createdAt") /\ timestamp_ok (get d "updatedAt").

(** No stored diagram is titled [T] under the project with key [kp]. *)
Definition title_free (w : world) (kp : key) (T : string) : Prop :=
  forall k r, records (diagrams w) !! k = Some r ->
              index_key DIAGRAM_INDEX r <> Some [kp; KStr T].

(** The operations of the store, as requests. *)
Inductive call : Type :=
  | Call_getAll (storeName : store_name)
  | Call_getAllProjects
  | Call_get (storeName : store_name) (k : value)
  | Call_put (storeName : store_name) (item : obj)
  | Call_delete (storeName : store_name) (k : value)
  | Call_addDiagram (diagramData : obj)
  | Call_getDiagram (diagramId : value)
  | Call_updateDiagram (diagramData : obj)
  | Call_getProject (projectId : value)
  | Call_deleteDiagram (diagramId : value)
  | Call_addProject (projectData : obj)
  | Call_updateProject (projectData : obj)
  | Call_deleteProject (projectId : value)
  | Call_deleteDiagramsByProjectId (projectId : value)
  | Call_getSyncQueueItems
  | Call_addSyncQueueItem (item : obj)
  | Call_deleteSyncQueueItem (itemId : value)
  | Call_getDiagramsByProjectId (projectId : value).

(** How a call ended, whatever it returned. *)
Definition ended {A : Type} (r : outcome A * world) : outcome unit * world :=
  (match r.1 with
   | Fulfilled _ => Fulfilled tt
   | Rejected e => Rejected e
   | Thrown e => Thrown e
   | Unsettled e => Unsettled e
   end, r.2).

Definition perform (c : call) (w : world) : outcome unit * world :=
  match c with
  | Call_getAll n => ended (_getAll n w)
  | Call_getAllProjects => ended (getAllProjects w)
  | Call_get n k => ended (_get n k w)
  | Call_put n item => ended (_put n item w)
  | Call_delete n k => ended (_delete n k w)
  | Call_addDiagram d => ended (addDiagram d w)
  | Call_getDiagram k => ended (getDiagram k w)
  | Call_updateDiagram d => ended (updateDiagram d w)
  | Call_getProject k => ended (getProject k w)
  | Call_deleteDiagram k => ended (deleteDiagram k w)
  | Call_addProject d => ended (addProject d w)
  | Call_updateProject d => ended (updateProject d w)
  | Call_deleteProject k => ended (deleteProject k w)
  | Call_deleteDiagramsByProjectId k => ended (deleteDiagramsByProjectId k w)
  | Call_getSyncQueueItems => ended (getSyncQueueItems w)
  | Call_addSyncQueueItem item => ended (addSyncQueueItem item w)
  | Call_deleteSyncQueueItem k => ended (deleteSyncQueueItem k w)
  | Call_getDiagramsByProjectId k => ended (getDiagramsByProjectId k w)
  end.


(** A diagram whose [createdAt] is the Invalid Date, as
    [new Date("yesterday")] is. *)
Definition bad_timestamp_diagram : obj :=
  object [("projectId", VNum 1); ("title", VStr "A"); ("createdAt", VDate None)].

Definition opened : world := (init fresh).2.

Definition diagram_A (projectId : Z) : obj :=
  object [("projectId", VNum projectId); ("title", VStr "A");
          ("content", VStr "graph TD;A-->B;")].

Definition new_project : obj :=
  object [("name", VStr "Demo"); ("gitProvider", VStr "local")].

(** *** The retry loop *)

(** The request of index [j] is answered by [rs j], a rate-limit signal
    (403 or 429) in whose body the code reads the message [ms j]. *)
Definition limited (net : nat -> option response) (rs : nat -> response)
    (ms : nat -> string) (j : nat) : Prop :=
  net j = Some (rs j)
  /\ (status (rs j) = 403 \/ status (rs j) = 429)
  /\ error_message (rs j) = inr (ms j).

(** The waits after the rate-limit answers of the attempts [0 .. k-1]. *)
Definition waits (backoff : Z) (rs : nat -> response) (k : nat) : list Z :=
  map (fun j => wait_time backoff j (rs j)) (seq 0 k).

Definition total_wait (l : list Z) : Z := foldr Z.add 0 l.

Definition forbidden : response :=
  {| status := 403; statusText := "Forbidden";
     json := Some (VObj (object [("message", VStr "Resource not accessible by token")]));
     retryAfter := None; oauthScopes := Some "read:user" |}.

Definition no_content : response :=
  {| status := 204; statusText := "No Content"; json := None;
     retryAfter := None; oauthScopes := None |}.

(** One rate-limit answer that asks for seven seconds, then a 204. *)
Definition limited_then_no_content (i : nat) : option response :=
  Some (if (i <? 1)%nat then rate_limited (Some "7") else no_content).

(** *** Records and conversions *)

(** A timestamp the conversion to linked data cannot render: it is truthy,
    so a Date is made of it, and that Date is invalid. *)
Definition bad_timestamp (v : value) : Prop :=
  truthy v = true /\ new_Date v = None.




(** A simple diagram record as a caller has it: its [id], project and
    title, no index field of its own, timestamps absent or valid dates. *)
Definition given_diagram (d : obj) (id P : value) (T : string) : Prop :=
  simple_diagram d /\ d !! "_name_for_index" = None
  /\ get d "id" = id /\ get d "projectId" = P /\ get d "title" = VStr T
  /\ timestamp_ok (get d "createdAt") /\ timestamp_ok (get d "updatedAt").

(** What a caller passes to [addProject] for a new project: a simple
    record without an id of its own, with the given [name]. *)
Definition new_named_project (d : obj) (name : value) : Prop :=
  simple_project d /\ d !! "_name_for_index" = None
  /\ truthy (get d "id") = false
  /\ get d "name" = name
  /\ timestamp_ok (get d "createdAt") /\ timestamp_ok (get d "updatedAt").

(** No stored project has the name with key [kn]. *)
Definition name_free (w : world) (kn : key) : Prop :=
  forall k r, records (projects w) !! k = Some r ->
              index_key PROJECT_INDEX r <> Some [kn].

(** *** Records on which the engines agree *)

(** A timestamp that [new Date] reads alike on every engine: any value but
    an object or a string, the empty string (it is falsy, so no Date is
    made of it), and the strings that [toISOString] writes.  What is made
    of any other string is up to the engine. *)
Definition portable_timestamp (v : value) : Prop :=
  match v with
  | VStr s => s = ""%string \/ exists t, valid_time t /\ s = iso_of_time t
  | VObj _ => False
  | _ => True
  end.

(** A value that a template literal can render: rendering an object that
    has a property [toString] of its own throws. *)
Definition stringifies (v : value) : Prop :=
  match v with
  | VObj o => o !! "toString" = None
  | _ => True
  end.

(** A value whose text in a template literal is the one [to_string] gives:
    no object, no Date, no number beyond 2^53 in magnitude. *)
Definition plain_text (v : value) : Prop :=
  match v with
  | VNum n => Z.abs n <= 2 ^ 53
  | VDate _ | VObj _ => False
  | _ => True
  end.

(** A record that [toDiagramLD] and [toProjectLD] convert alike on every
    engine. *)
Definition portable_record (d : obj) : Prop :=
  stringifies (get d "id") /\ stringifies (get d "projectId")
  /\ portable_timestamp (get d "createdAt")
  /\ portable_timestamp (get d "updatedAt").

Definition portable_call (c : call) : Prop :=
  match c with
  | Call_addDiagram d | Call_updateDiagram d
  | Call_addProject d | Call_updateProject d => portable_record d
  | _ => True
  end.


(** The operations that run in one transaction: all but [addDiagram] and
    [addProject], which write, await the result and write again. *)
Definition one_transaction (c : call) : Prop :=
  match c with
  | Call_addDiagram _ | Call_addProject _ => False
  | _ => True
  end.

(** An error answer whose body is the JSON value [null]. *)
Definition null_body_error : response :=
  {| status := 500; statusText := "Internal Server Error"; json := Some VNull;
     retryAfter := None; oauthScopes := None |}.

(** *** States of the database *)

(** The states that the operations of the concept lead to, starting from
    a database that has just been created. *)
Inductive reachable : world -> Prop :=
  | reachable_fresh : reachable fresh
  | reachable_init w : reachable w -> reachable (init w).2
  | reachable_call c w : reachable w -> reachable (perform c w).2.

(** Every record carries its key at the key path ['id']. *)
Definition keys_inline (st : object_store) : Prop :=
  forall k r, records st !! k = Some r -> r !! "id" = Some (of_key k).

(** No two records have the same key in the index over [paths]. *)
Definition index_unique (paths : list string) (st : object_store) : Prop :=
  forall k1 k2 r1 r2 ik,
    records st !! k1 = Some r1 -> records st !! k2 = Some r2 ->
    index_key paths r1 = Some ik -> index_key paths r2 = Some ik -> k1 = k2.

(** The key generator is past every numeric key in use, unless it has run
    out. *)
Definition generator_ahead (st : object_store) : Prop :=
  1 <= generator st
  /\ forall n r, records st !! KNum n = Some r ->
                 n < generator st \/ max_generated < generator st.

(** The invariants of one store, [unique] being its unique index. *)
Definition store_inv (unique : option (list string)) (st : object_store) : Prop :=
  keys_inline st /\ generator_ahead st
  /\ forall paths, unique = Some paths -> index_unique paths st.

Definition world_inv (w : world) : Prop :=
  forall n, store_inv (unique_index n) (store n w).

(** A store that lost records and kept its key generator. *)
Definition shrunk (st st' : object_store) : Prop :=
  generator st' = generator st
  /\ forall k r, records st' !! k = Some r -> records st !! k = Some r.

(** An open database with one project and one diagram in it, and that
    diagram as a read returns it. *)
Definition stocked : world :=
  (perform (Call_addDiagram (diagram_A 1))
     (perform (Call_addProject new_project) opened).2).2.

Definition stocked_diagram : obj :=
  object [("id", VNum 1); ("projectId", VNum 1); ("title", VStr "A");
          ("content", VStr "graph TD;A-->B;"); ("createdAt", VUndef);
          ("updatedAt", VUndef); ("lastModifiedRemoteSha", VUndef);
          ("_name_for_index", VStr "A")].


Definition stocked_project : obj :=
  object [("id", VNum 1); ("name", VStr "Demo"); ("gitProvider", VStr "local");
          ("createdAt", VUndef); ("updatedAt", VUndef);
          ("_name_for_index", VStr "Demo")].

(** An open database into which [updateDiagram] was given a record that
    has the linked-data markers and no membership. *)
Definition broken : world :=
  (perform (Call_updateDiagram orphan_ld_diagram) opened).2.

Definition nameless_project : obj := object [("gitProvider", VStr "local")].

(** A new diagram titled "B". *)
Definition diagram_B (projectId : Z) : obj :=
  object [("projectId", VNum projectId); ("title", VStr "B");
          ("content", VStr "graph LR;B-->C;")].

(** [stocked] after its diagram was read, renamed to "B" by the caller and
    written back with [updateDiagram]; and then after a new diagram titled
    "B" was added to the same project. *)
Definition renamed_to_B : world :=
  (perform (Call_updateDiagram (<["title" := VStr "B"]> stocked_diagram)) stocked).2.

Definition two_titled_B : world :=
  (perform (Call_addDiagram (diagram_B 1)) renamed_to_B).2.

(** A record for [updateDiagram] with an id of its own and the project and
    title of the diagram of [stocked]. *)
Definition clashing_diagram : obj := <["id" := VNum 2]> (diagram_A 1).

Definition queued_item : obj :=
  object [("action", VStr "push"); ("diagramId", VNum 1)].

(** *** The editor *)


Definition open_diagram : obj :=
  object [("id", VNum 7); ("name", VStr "flow"); ("content", VStr "graph TD;")].


(* ===================================================================== *)
(** ** Sanity checks of the embedding on concrete inputs                   *)
(* ===================================================================== *)

Example cafe_encoded :
  unicodeBtoa cafe = inr (units_of_string "Y2Fmw6kg5Lit5paH").
Proof. vm_compute. reflexivity. Qed.

Example cafe_decoded :
  put_then_get cafe = inr [99; 97; 102; 195; 169; 32; 228; 184; 173; 230; 150; 135].
Proof. vm_compute. reflexivity. Qed.


Example demo_list :
  (getDiagramsByProjectId (VNum 1) demo_world).1 =
  Fulfilled [VObj (object [("id", VNum 1); ("projectId", VNum 1); ("title", VStr "A");
          ("content", VStr "graph TD;A-->B;"); ("createdAt", VUndef);
          ("updatedAt", VUndef); ("lastModifiedRemoteSha", VUndef);
          ("_name_for_index", VStr "A")])].
Proof. vm_compute. reflexivity. Qed.

Example demo_dup :
  (addDiagram (object [("projectId", VNum 1); ("title", VStr "A")]) demo_world).1
  = Rejected ConstraintError.
Proof. vm_compute. reflexivity. Qed.

Example show_Z_samples :
  show_Z 0 = "0"%string /\ show_Z 42 = "42"%string /\ show_Z (-7) = "-7"%string
  /\ show_Z 1000 = "1000"%string.
Proof. repeat split; reflexivity. Qed.

Example parseInt_samples :
  parseInt_string None "42" = VNum 42 /\ parseInt_string None "undefined" = VNaN
  /\ parseInt_string None " -12px" = VNum (-12) /\ parseInt_string None "0x1f" = VNum 31
  /\ parseInt_string (Some 10%N) "0x1f" = VNum 0 /\ parseInt_string None "" = VNaN.
Proof. repeat split; reflexivity. Qed.

Example iso_samples :
  iso_of_time 0 = "1970-01-01T00:00:00.000Z"%string
  /\ iso_of_time 1700000000123 = "2023-11-14T22:13:20.123Z"%string
  /\ iso_of_time (-1) = "1969-12-31T23:59:59.999Z"%string
  /\ date_parse "2023-11-14T22:13:20.123Z" = Some 1700000000123
  /\ date_parse "garbage" = None
  /\ iso_of_time 951782400000 = "2000-02-29T00:00:00.000Z"%string
  /\ date_parse "2000-02-29T00:00:00.000Z" = Some 951782400000
  /\ iso_of_time (-62198755200000) = "-000001-01-01T00:00:00.000Z"%string
  /\ date_parse "-000001-01-01T00:00:00.000Z" = Some (-62198755200000).
Proof. repeat split; vm_compute; reflexivity. Qed.

Example last_segment_samples :
  last_segment "urn:mermaid-ide:diagram:17" = "17"%string
  /\ last_segment "17" = "17"%string /\ last_segment "a:" = ""%string.
Proof. repeat split; reflexivity. Qed.

(* ===================================================================== *)
(** ** Dates survive [toISOString] followed by parsing                     *)
(* ===================================================================== *)

Lemma civil_from_days_spec z :
  exists y m d, civil_from_days z = (y, m, d)
    /\ days_from_civil y m d = z /\ 1 <= m <= 12 /\ 1 <= d <= 31
    /\ (-100000000 <= z <= 100000000 -> -999999 <= y <= 999999).
Proof.
  unfold civil_from_days.
  set (z' := z + 719468).
  set (era := z' / 146097).
  set (doe := z' - era * 146097).
  set (yoe := (doe - doe / 1460 + doe / 36524 - doe / 146096) / 365).
  set (doy := doe - (365 * yoe + yoe / 4 - yoe / 100)).
  set (mp := (5 * doy + 2) / 153).
  set (d := doy - (153 * mp + 2) / 5 + 1).
  set (m := if mp <? 10 then mp + 3 else mp - 9).
  assert (Hdoe : 0 <= doe <= 146096).
  { subst doe era. Z.div_mod_to_equations. lia. }
  assert (Hyoe : 0 <= yoe <= 399 /\ 0 <= doy <= 365).
  { subst doy yoe. clearbody doe. Z.div_mod_to_equations. lia. }
  assert (Hmp : 0 <= mp <= 11 /\ 1 <= d <= 31).
  { subst d mp. clearbody doy. Z.div_mod_to_equations. lia. }
  assert (Hm : 1 <= m <= 12 /\ (if 2 <? m then m - 3 else m + 9) = mp
               /\ ((m <=? 2) = (10 <=? mp))).
  { subst m. clearbody mp. destruct (Z.ltb_spec mp 10).
    - destruct (Z.ltb_spec 2 (mp + 3)); destruct (Z.leb_spec (mp + 3) 2);
        destruct (Z.leb_spec 10 mp); lia.
    - destruct (Z.ltb_spec 2 (mp - 9)); destruct (Z.leb_spec (mp - 9) 2);
        destruct (Z.leb_spec 10 mp); lia. }
  destruct Hm as (Hm1 & Hm2 & Hm3).
  eexists _, m, d. split; [reflexivity|].
  split; [|split; [lia|split; [lia|]]].
  - unfold days_from_civil. rewrite Hm2. rewrite Hm3.
    assert (Hy : (if 10 <=? mp
                  then (if 10 <=? mp then yoe + era * 400 + 1 else yoe + era * 400) - 1
                  else (if 10 <=? mp then yoe + era * 400 + 1 else yoe + era * 400))
                 = yoe + era * 400).
    { destruct (10 <=? mp); lia. }
    rewrite Hy.
    assert (He : (yoe + era * 400) / 400 = era).
    { clearbody yoe era. Z.div_mod_to_equations. lia. }
    rewrite He.
    replace (yoe + era * 400 - era * 400) with yoe by lia.
    fold mp.
    subst d doy. lia.
  - intros Hz. rewrite Hm3.
    assert (Hera : -700 <= era <= 700).
    { subst era z'. Z.div_mod_to_equations. lia. }
    clearbody era yoe mp.
    destruct (Z.leb_spec 10 mp); lia.
Qed.

Lemma digit_val_digit_char d : (d < 10)%N -> digit_val 10 (digit_char d) = Some d.
Proof.
  intros H. unfold digit_val, digit_char.
  rewrite N_ascii_embedding by lia.
  replace ((48 <=? 48 + d)%N && (48 + d <=? 57)%N) with true.
  2:{ symmetry. apply andb_true_intro. split; apply N.leb_le; lia. }
  replace (48 + d - 48)%N with d by lia.
  destruct (N.ltb_spec d 10); [reflexivity | lia].
Qed.

Lemma read_fixed_pad_go w : forall n rest a k,
  (n < 10 ^ N.of_nat w)%N ->
  read_fixed (w + k) (pad w n rest) a = read_fixed k rest (a * 10 ^ N.of_nat w + n)%N.
Proof.
  induction w as [|w IH]; intros n rest a k Hn.
  - simpl in *. f_equal. change (10 ^ 0)%N with 1%N in Hn. lia.
  - cbn [pad]. replace (S w + k)%nat with (w + S k)%nat by lia.
    assert (Hpow : (10 ^ N.of_nat (S w) = 10 * 10 ^ N.of_nat w)%N).
    { rewrite Nat2N.inj_succ, N.pow_succ_r'. reflexivity. }
    rewrite IH.
    2:{ rewrite Hpow in Hn. apply N.Div0.div_lt_upper_bound. lia. }
    cbn [read_fixed]. rewrite digit_val_digit_char by (apply N.mod_lt; lia).
    f_equal. rewrite Hpow.
    pose proof (N.div_mod n 10 ltac:(lia)). lia.
Qed.

Lemma read_fixed_padZ w z rest :
  0 <= z < 10 ^ Z.of_nat w ->
  read_fixed w (padZ w z rest) 0 = Some (Z.to_N z, rest).
Proof.
  intros H. unfold padZ.
  replace w with (w + 0)%nat at 1 by lia.
  rewrite read_fixed_pad_go.
  - cbn [read_fixed]. f_equal.
  - assert (Z.of_N (10 ^ N.of_nat w) = 10 ^ Z.of_nat w).
    { rewrite N2Z.inj_pow, nat_N_Z. reflexivity. }
    lia.
Qed.

Lemma digit_char_neq d c :
  (d < 10)%N -> (N_of_ascii c < 48 \/ 57 < N_of_ascii c)%N ->
  Ascii.eqb (digit_char d) c = false.
Proof.
  intros H Hc. apply Ascii.eqb_neq. intros E.
  apply (f_equal N_of_ascii) in E. unfold digit_char in E.
  rewrite N_ascii_embedding in E by lia. lia.
Qed.

Lemma read_year_padZ y rest :
  0 <= y <= 9999 -> read_year (padZ 4 y rest) = Some (y, rest).
Proof.
  intros H. unfold read_year.
  pose proof (read_fixed_padZ 4 y rest ltac:(lia)) as Hr.
  remember (padZ 4 y rest) as s eqn:Hs.
  unfold padZ in Hs. cbn [pad] in Hs.
  rewrite Hs at 1.
  rewrite !digit_char_neq by (try (apply N.mod_lt; lia); cbn; lia).
  rewrite Hr. cbn. f_equal. f_equal. lia.
Qed.

Lemma expect_same c s : expect c (String c s) = Some s.
Proof. unfold expect. rewrite Ascii.eqb_refl. reflexivity. Qed.

Lemma read_year_show_year y rest :
  -999999 <= y <= 999999 -> read_year (show_year y rest) = Some (y, rest).
Proof.
  intros H. unfold show_year.
  destruct (Z.leb_spec 0 y) as [Hy0|Hy0]; cbn [andb].
  - destruct (Z.leb_spec y 9999) as [Hy1|Hy1].
    + apply read_year_padZ. lia.
    + destruct (Z.ltb_spec y 0); [lia|].
      unfold read_year. change (Ascii.eqb "+" "+") with true. cbn iota.
      rewrite read_fixed_padZ by (change (10 ^ Z.of_nat 6) with 1000000; lia).
      cbn [mbind option_bind]. f_equal. f_equal. lia.
  - destruct (Z.ltb_spec y 0); [|lia].
    unfold read_year. change (Ascii.eqb "-" "+") with false.
    change (Ascii.eqb "-" "-") with true. cbn iota.
    rewrite read_fixed_padZ by (change (10 ^ Z.of_nat 6) with 1000000; lia).
    cbn [mbind option_bind].
    destruct (N.eqb_spec (Z.to_N (Z.abs y)) 0); [lia|].
    f_equal. f_equal. lia.
Qed.

Lemma date_parse_iso_of_time t :
  valid_time t -> date_parse (iso_of_time t) = Some t.
Proof.
  unfold valid_time, max_time. intros Ht.
  unfold iso_of_time, date_parse.
  destruct (civil_from_days_spec (t / ms_per_day)) as (y & m & d & Hc & Hr & Hm & Hd & Hy).
  rewrite Hc.
  assert (Hdays : -100000000 <= t / ms_per_day <= 100000000).
  { unfold ms_per_day. Z.div_mod_to_equations. lia. }
  specialize (Hy Hdays).
  set (r := t mod ms_per_day).
  assert (Hrange : 0 <= r < 86400000).
  { subst r. unfold ms_per_day. Z.div_mod_to_equations. lia. }
  rewrite read_year_show_year by lia. cbn [mbind option_bind].
  rewrite expect_same. cbn [mbind option_bind].
  rewrite read_fixed_padZ by (change (10 ^ Z.of_nat 2) with 100; lia). cbn [mbind option_bind].
  rewrite expect_same. cbn [mbind option_bind].
  rewrite read_fixed_padZ by (change (10 ^ Z.of_nat 2) with 100; lia). cbn [mbind option_bind].
  rewrite expect_same. cbn [mbind option_bind].
  rewrite read_fixed_padZ by (change (10 ^ Z.of_nat 2) with 100; clearbody r; Z.div_mod_to_equations; lia). cbn [mbind option_bind].
  rewrite expect_same. cbn [mbind option_bind].
  rewrite read_fixed_padZ by (change (10 ^ Z.of_nat 2) with 100; clearbody r; Z.div_mod_to_equations; lia). cbn [mbind option_bind].
  rewrite expect_same. cbn [mbind option_bind].
  rewrite read_fixed_padZ by (change (10 ^ Z.of_nat 2) with 100; clearbody r; Z.div_mod_to_equations; lia). cbn [mbind option_bind].
  rewrite expect_same. cbn [mbind option_bind].
  rewrite read_fixed_padZ by (change (10 ^ Z.of_nat 3) with 1000; clearbody r; Z.div_mod_to_equations; lia). cbn [mbind option_bind].
  rewrite expect_same. cbn [mbind option_bind].
  cbn [String.eqb negb].
  replace ((1 <=? Z.to_N m)%N && (Z.to_N m <=? 12)%N && (1 <=? Z.to_N d)%N && (Z.to_N d <=? 31)%N
           && (Z.to_N (r / 3600000) <=? 23)%N && (Z.to_N (r / 60000 mod 60) <=? 59)%N
           && (Z.to_N (r / 1000 mod 60) <=? 59)%N) with true.
  2:{ symmetry. repeat (apply andb_true_intro; split); apply N.leb_le;
      clearbody r; Z.div_mod_to_equations; lia. }
  cbn [negb].
  rewrite !Z2N.id by (clearbody r; Z.div_mod_to_equations; lia).
  rewrite Hr.
  replace (t / ms_per_day * ms_per_day + r / 3600000 * 3600000 + r / 60000 mod 60 * 60000
           + r / 1000 mod 60 * 1000 + r mod 1000) with t.
  2:{ subst r. unfold ms_per_day. Z.div_mod_to_equations. lia. }
  unfold time_clip, max_time.
  destruct (Z.leb_spec (Z.abs t) 8640000000000000); [reflexivity | lia].
Qed.

(* ===================================================================== *)
(** ** Normalization layer                                                 *)
(* ===================================================================== *)

Lemma lookup_object l k : object l !! k = assoc k l.
Proof.
  unfold object. induction l as [|[k' v] l IH]; cbn [assoc].
  - apply lookup_empty.
  - cbn [list_to_map foldr]. destruct (String.eqb_spec k k') as [->|Hne].
    + apply lookup_insert_eq.
    + rewrite lookup_insert_ne; [exact IH|]. cbn. congruence.
Qed.

Lemma lookup_without ks (o : obj) k :
  without ks o !! k = if existsb (String.eqb k) ks then None else o !! k.
Proof.
  unfold without. induction ks as [|k' ks IH]; cbn [foldr existsb]; [reflexivity|].
  destruct (String.eqb_spec k k') as [->|Hne]; cbn [orb].
  - apply lookup_delete_eq.
  - rewrite lookup_delete_ne by congruence. exact IH.
Qed.

Lemma lookup_union_obj (a b : obj) k :
  (a ∪ b) !! k = match a !! k with Some v => Some v | None => b !! k end.
Proof.
  rewrite lookup_union. destruct (a !! k), (b !! k); reflexivity.
Qed.

Lemma lookup_insert_obj (o : obj) k' v k :
  <[k' := v]> o !! k = if String.eqb k k' then Some v else o !! k.
Proof.
  destruct (String.eqb_spec k k') as [->|Hne].
  - apply lookup_insert_eq.
  - apply lookup_insert_ne. congruence.
Qed.

Lemma lookup_delete_obj (o : obj) k' k :
  delete k' o !! k = if String.eqb k k' then None else o !! k.
Proof.
  destruct (String.eqb_spec k k') as [->|Hne].
  - apply lookup_delete_eq.
  - apply lookup_delete_ne. congruence.
Qed.


Lemma date_roundtrip v :
  timestamp_ok v ->
  exists s, iso_or_undefined v = inr s /\ date_or_undefined s = v.
Proof.
  intros [->|(t & -> & Ht)].
  - exists VUndef. split; reflexivity.
  - exists (VStr (iso_of_time t)). split; [reflexivity|].
    pose proof (date_parse_iso_of_time t Ht) as Hp.
    unfold date_or_undefined. cbn [truthy new_Date].
    destruct (iso_of_time t) eqn:E; [discriminate Hp|].
    cbn [String.eqb negb]. rewrite Hp. reflexivity.
Qed.

Ltac lookups :=
  repeat first
    [ rewrite lookup_union_obj | rewrite lookup_insert_obj
    | rewrite lookup_without | rewrite lookup_object
    | rewrite lookup_delete_obj | rewrite lookup_empty ].








(** Where the derived field does mirror the name: records that do not
    carry a [_name_for_index] of their own. *)
Lemma toDiagramLD_index_name (R ld : obj) :
  truthy (get R "@context") = false ->
  R !! "_name_for_index" = None ->
  toDiagramLD R = inr ld ->
  get ld "_name_for_index" = get R "title".
Proof.
  intros Hctx Hn. unfold toDiagramLD. rewrite Hctx.
  destruct (iso_or_undefined (get R "createdAt")) as [|sc]; [discriminate|].
  destruct (iso_or_undefined (get R "updatedAt")) as [|su]; [discriminate|].
  cbn [JS.bind]. intros [= <-].
  unfold get at 1. destruct (truthy (get R "id")); lookups; cbn; rewrite Hn; reflexivity.
Qed.

Lemma toProjectLD_index_name (R ld : obj) :
  truthy (get R "@context") = false ->
  R !! "_name_for_index" = None ->
  toProjectLD R = inr ld ->
  get ld "_name_for_index" = get R "name".
Proof.
  intros Hctx Hn. unfold toProjectLD. rewrite Hctx.
  destruct (iso_or_undefined (get R "createdAt")) as [|sc]; [discriminate|].
  destruct (iso_or_undefined (get R "updatedAt")) as [|su]; [discriminate|].
  cbn [JS.bind]. intros [= <-].
  unfold get at 1. destruct (truthy (get R "id")); lookups; cbn; rewrite Hn; reflexivity.
Qed.

(** C5: denormalizing a record that still carries the [_name_for_index] of
    an earlier read keeps that stale value instead of the current name: the
    [...rest] spread comes after the freshly computed property and
    overrides it. *)
Theorem stale_index_name :
  (exists ld, toDiagramLD renamed_diagram = inr ld
     /\ get renamed_diagram "title" = VStr "New"
     /\ get ld "schema:name" = VStr "New"
     /\ get ld "_name_for_index" = VStr "Old")
  /\
  (exists ld, toProjectLD renamed_project = inr ld
     /\ get renamed_project "name" = VStr "New"
     /\ get ld "schema:name" = VStr "New"
     /\ get ld "_name_for_index" = VStr "Old").
Proof.
  split; eexists; (split; [reflexivity|]); repeat split; vm_compute; reflexivity.
Qed.

(** A record with the diagram markers and no membership property makes
    [normalizeDiagram] throw, whatever else it holds. *)
Lemma normalizeDiagram_without_membership (data : obj) :
  truthy (get data "@context") = true ->
  get data "@type" = VStr DIAGRAM_TYPE ->
  data !! "bfo:BFO_0000129" = None ->
  normalizeDiagram (VObj data) = inl TypeError.
Proof.
  intros Hctx Hty Hm. unfold normalizeDiagram.
  rewrite Hctx, Hty. cbn [is_string]. rewrite String.eqb_refl. cbn [andb].
  unfold parse_urn at 1.
  destruct (split_pop (get data "@id")) as [e|s] eqn:Hs.
  - destruct (get data "@id"); cbn in Hs; try discriminate; injection Hs as <-; reflexivity.
  - cbn [JS.bind]. unfold get at 1. rewrite Hm. reflexivity.
Qed.

(** C9: [normalizeDiagram] is not total on inputs with the diagram markers:
    without the ['bfo:BFO_0000129'] property it throws a TypeError. *)
Theorem normalizeDiagram_not_total :
  exists data : obj,
    truthy (get data "@context") = true
    /\ get data "@type" = VStr "bfo:BFO_0000031"
    /\ data !! "bfo:BFO_0000129" = None
    /\ normalizeDiagram (VObj data) = inl TypeError.
Proof.
  exists orphan_ld_diagram.
  assert (H1 : truthy (get orphan_ld_diagram "@context") = true) by reflexivity.
  assert (H2 : get orphan_ld_diagram "@type" = VStr DIAGRAM_TYPE) by reflexivity.
  assert (H3 : orphan_ld_diagram !! "bfo:BFO_0000129" = None) by reflexivity.
  split; [exact H1 | split; [exact H2 | split; [exact H3 |]]].
  apply normalizeDiagram_without_membership; assumption.
Qed.

(* ===================================================================== *)
(** ** GitHub adapter                                                      *)
(* ===================================================================== *)

(** Bit operations on small numbers as arithmetic. *)
Lemma lor_high_low x y k :
  0 <= k -> 0 <= y < 2 ^ k -> Z.lor (x * 2 ^ k) y = x * 2 ^ k + y.
Proof.
  intros Hk Hy. symmetry. apply Z.add_nocarry_lor.
  apply Z.bits_inj'. intros n Hn.
  rewrite Z.land_spec, Z.bits_0.
  destruct (Z.lt_ge_cases n k) as [Hlt|Hge].
  - rewrite Z.mul_pow2_bits_low by assumption. reflexivity.
  - destruct (Z.eq_dec y 0) as [->|Hy0].
    + rewrite Z.bits_0. apply andb_false_r.
    + rewrite (Z.bits_above_log2 y n); [apply andb_false_r | lia |].
      apply Z.log2_lt_pow2; [lia|].
      apply Z.lt_le_trans with (2 ^ k); [lia|].
      apply Z.pow_le_mono_r; lia.
Qed.

Lemma land_low a k : 0 <= k -> Z.land a (2 ^ k - 1) = a mod 2 ^ k.
Proof.
  intros Hk. rewrite <- Z.land_ones by assumption.
  rewrite Z.ones_equiv, Z.sub_1_r. reflexivity.
Qed.

Ltac bits_to_arith :=
  repeat first
    [ rewrite Z.shiftr_div_pow2 by lia
    | rewrite Z.shiftl_mul_pow2 by lia
    | change 3 with (2 ^ 2 - 1); rewrite land_low by lia
    | change 15 with (2 ^ 4 - 1); rewrite land_low by lia
    | change 63 with (2 ^ 6 - 1); rewrite land_low by lia ].

Lemma list_ind3 {A : Type} (P : list A -> Prop) :
  P [] -> (forall a, P [a]) -> (forall a b, P [a; b]) ->
  (forall a b c l, P l -> P (a :: b :: c :: l)) ->
  forall l, P l.
Proof.
  intros H0 H1 H2 H3.
  assert (H : forall l, P l /\ (forall a, P (a :: l)) /\ (forall a b, P (a :: b :: l))).
  { induction l as [|x l (IH0 & IH1 & IH2)].
    - repeat split; auto.
    - repeat split; auto. }
  intros l. apply H.
Qed.

Lemma b64_encode_split bytes :
  b64_encode bytes = map b64_char (sextets bytes) ++ padding bytes.
Proof.
  induction bytes as [|a|a b|a b c l IH] using list_ind3; try reflexivity.
  cbn [b64_encode sextets padding]. rewrite IH.
  rewrite map_app. cbn [map app]. reflexivity.
Qed.

Lemma sextets_range bytes : Forall byte bytes -> Forall sextet (sextets bytes).
Proof.
  unfold byte, sextet.
  induction bytes as [|a|a b|a b c l IH] using list_ind3; intros H; cbn [sextets].
  - constructor.
  - apply Forall_cons in H as [Ha _].
    repeat constructor; bits_to_arith;
      change (2 ^ 2) with 4; change (2 ^ 4) with 16; Z.div_mod_to_equations; lia.
  - apply Forall_cons in H as [Ha H]. apply Forall_cons in H as [Hb _].
    repeat constructor; bits_to_arith;
      rewrite ?(lor_high_low (a mod 2 ^ 2) (b / 2 ^ 4) 4)
        by (try lia; change (2 ^ 4) with 16; Z.div_mod_to_equations; lia);
      change (2 ^ 2) with 4; change (2 ^ 4) with 16; Z.div_mod_to_equations; lia.
  - apply Forall_cons in H as [Ha H]. apply Forall_cons in H as [Hb H].
    apply Forall_cons in H as [Hc H].
    apply Forall_app. split; [|apply IH, H].
    repeat constructor; bits_to_arith;
      rewrite ?(lor_high_low (a mod 2 ^ 2) (b / 2 ^ 4) 4)
        by (try lia; change (2 ^ 4) with 16; Z.div_mod_to_equations; lia);
      rewrite ?(lor_high_low (b mod 2 ^ 4) (c / 2 ^ 6) 2)
        by (try lia; change (2 ^ 6) with 64; change (2 ^ 2) with 4;
            Z.div_mod_to_equations; lia);
      change (2 ^ 2) with 4; change (2 ^ 4) with 16; change (2 ^ 6) with 64;
      Z.div_mod_to_equations; lia.
Qed.

Lemma b64_decode_sextets bytes : Forall byte bytes -> b64_decode (sextets bytes) = bytes.
Proof.
  unfold byte.
  induction bytes as [|a|a b|a b c l IH] using list_ind3; intros H;
    cbn [sextets b64_decode app].
  - reflexivity.
  - apply Forall_cons in H as [Ha _]. f_equal.
    bits_to_arith.
    rewrite (lor_high_low (a / 2 ^ 2) _ 2);
      change (2 ^ 2) with 4; change (2 ^ 4) with 16; Z.div_mod_to_equations; lia.
  - apply Forall_cons in H as [Ha H]. apply Forall_cons in H as [Hb _].
    bits_to_arith.
    rewrite (lor_high_low (a mod 2 ^ 2) (b / 2 ^ 4) 4)
      by (try lia; change (2 ^ 4) with 16; Z.div_mod_to_equations; lia).
    f_equal; [|f_equal].
    + rewrite (lor_high_low (a / 2 ^ 2) _ 2);
        change (2 ^ 2) with 4; change (2 ^ 4) with 16; Z.div_mod_to_equations; lia.
    + rewrite (lor_high_low _ _ 4);
        change (2 ^ 2) with 4; change (2 ^ 4) with 16; Z.div_mod_to_equations; lia.
  - apply Forall_cons in H as [Ha H]. apply Forall_cons in H as [Hb H].
    apply Forall_cons in H as [Hc H].
    rewrite IH by exact H.
    bits_to_arith.
    rewrite (lor_high_low (a mod 2 ^ 2) (b / 2 ^ 4) 4)
      by (try lia; change (2 ^ 4) with 16; Z.div_mod_to_equations; lia).
    rewrite (lor_high_low (b mod 2 ^ 4) (c / 2 ^ 6) 2)
      by (try lia; change (2 ^ 6) with 64; change (2 ^ 2) with 4;
          Z.div_mod_to_equations; lia).
    f_equal; [|f_equal; [|f_equal]].
    + rewrite (lor_high_low (a / 2 ^ 2) _ 2);
        change (2 ^ 2) with 4; change (2 ^ 4) with 16; Z.div_mod_to_equations; lia.
    + rewrite (lor_high_low _ _ 4);
        change (2 ^ 2) with 4; change (2 ^ 4) with 16; change (2 ^ 6) with 64;
        Z.div_mod_to_equations; lia.
    + rewrite (lor_high_low _ _ 6);
        change (2 ^ 2) with 4; change (2 ^ 4) with 16; change (2 ^ 6) with 64;
        Z.div_mod_to_equations; lia.
Qed.

Lemma b64_char_spec x :
  sextet x ->
  b64_value (b64_char x) = Some x
  /\ is_ascii_whitespace (b64_char x) = false
  /\ b64_char x <> PAD.
Proof.
  unfold sextet, b64_char, b64_value, is_ascii_whitespace, PAD. intros H.
  destruct (Z.ltb_spec x 26); [|destruct (Z.ltb_spec x 52);
    [|destruct (Z.ltb_spec x 62); [|destruct (Z.eqb_spec x 62)]]];
    repeat match goal with
    | |- context [Z.leb ?a ?b] => destruct (Z.leb_spec a b); try lia
    | |- context [Z.eqb ?a ?b] => destruct (Z.eqb_spec a b); try lia
    end; cbn [andb orb]; repeat split; try lia; f_equal; lia.
Qed.

Lemma mapM_b64_value sx :
  Forall sextet sx -> mapM b64_value (map b64_char sx) = Some sx.
Proof.
  induction 1 as [|x sx Hx _ IH]; [reflexivity|].
  cbn [map mapM]. destruct (b64_char_spec x Hx) as (-> & _ & _).
  cbn. rewrite IH. reflexivity.
Qed.

Lemma filter_all {A : Type} (P : A -> Prop) `{forall x, Decision (P x)} (l : list A) :
  Forall P l -> filter P l = l.
Proof.
  induction 1 as [|x l Hx _ IH]; [reflexivity|].
  rewrite filter_cons_True by assumption. f_equal. exact IH.
Qed.

Lemma padding_cases bytes :
  padding bytes = [] \/ padding bytes = [PAD] \/ padding bytes = [PAD; PAD].
Proof.
  induction bytes as [|a|a b|a b c l IH] using list_ind3; cbn [padding]; auto.
Qed.

Lemma encode_no_whitespace bytes :
  Forall byte bytes ->
  Forall (fun c => is_ascii_whitespace c = false) (b64_encode bytes).
Proof.
  intros H. rewrite b64_encode_split. apply Forall_app. split.
  - apply Forall_fmap. eapply Forall_impl; [apply sextets_range, H|].
    intros x Hx. apply b64_char_spec, Hx.
  - destruct (padding_cases bytes) as [-> | [-> | ->]]; repeat constructor.
Qed.

Lemma drop_pad_snoc l : drop_pad (l ++ [PAD]) = l.
Proof.
  unfold drop_pad. rewrite reverse_snoc. rewrite Z.eqb_refl. apply reverse_involutive.
Qed.

Lemma drop_pad_chars sx :
  Forall sextet sx -> drop_pad (map b64_char sx) = map b64_char sx.
Proof.
  intros H. unfold drop_pad.
  destruct (reverse (map b64_char sx)) as [|c r] eqn:E; [reflexivity|].
  destruct (Z.eqb_spec c PAD) as [->|]; [|reflexivity].
  exfalso.
  assert (Hin : PAD ∈ map b64_char sx).
  { apply elem_of_reverse. rewrite E. apply list_elem_of_here. }
  apply list_elem_of_fmap in Hin as (x & Hx & Hin).
  rewrite Forall_forall in H. specialize (H x Hin).
  destruct (b64_char_spec x H) as (_ & _ & Hne). congruence.
Qed.

Lemma lengths bytes :
  Z.of_nat (List.length (b64_encode bytes)) mod 4 = 0
  /\ Z.of_nat (List.length (map b64_char (sextets bytes))) mod 4 <> 1.
Proof.
  induction bytes as [|a|a b|a b c l [IH1 IH2]] using list_ind3;
    try (split; [reflexivity | discriminate]).
  cbn [b64_encode sextets]. rewrite map_app, !length_app. cbn [map List.length].
  rewrite !Nat2Z.inj_add. change (Z.of_nat 4) with 4.
  split; [clear IH2 | clear IH1]; Z.div_mod_to_equations; lia.
Qed.

Lemma strip_padding_encode bytes :
  Forall byte bytes ->
  strip_padding (b64_encode bytes) = map b64_char (sextets bytes).
Proof.
  intros H. unfold strip_padding.
  destruct (lengths bytes) as [-> _]. cbn [Z.eqb].
  rewrite b64_encode_split.
  pose proof (drop_pad_chars _ (sextets_range _ H)) as Hd.
  destruct (padding_cases bytes) as [-> | [-> | ->]].
  - rewrite app_nil_r, !Hd. reflexivity.
  - rewrite drop_pad_snoc. exact Hd.
  - change [PAD; PAD] with ([PAD] ++ [PAD]). rewrite app_assoc.
    rewrite !drop_pad_snoc. reflexivity.
Qed.

(** Base64 decoding undoes base64 encoding, on every sequence of bytes. *)
Lemma atob_b64_encode bytes : Forall byte bytes -> atob (b64_encode bytes) = inr bytes.
Proof.
  intros H. unfold atob.
  rewrite (filter_all _ _ (encode_no_whitespace bytes H)).
  rewrite strip_padding_encode by exact H.
  destruct (lengths bytes) as [_ Hl].
  destruct (Z.eqb_spec (Z.of_nat (List.length (map b64_char (sextets bytes))) mod 4) 1);
    [contradiction|].
  rewrite mapM_b64_value by (apply sextets_range, H).
  rewrite b64_decode_sextets by exact H. reflexivity.
Qed.

Lemma btoa_bytes bytes : Forall byte bytes -> btoa bytes = inr (b64_encode bytes).
Proof.
  intros H. unfold btoa.
  replace (forallb (fun c => c <=? 255) bytes) with true; [reflexivity|].
  symmetry. apply forallb_forall. intros c Hc.
  rewrite Forall_forall in H. apply list_elem_of_In in Hc. specialize (H c Hc).
  unfold byte in H. apply Z.leb_le. lia.
Qed.

Lemma fromCharCode_bytes bytes : Forall byte bytes -> fromCharCode bytes = bytes.
Proof.
  unfold fromCharCode. induction 1 as [|b l Hb _ IH]; [reflexivity|].
  cbn [map]. rewrite IH. f_equal. unfold byte in Hb. apply Z.mod_small. lia.
Qed.

Lemma utf8_of_code_point_range cp :
  0 <= cp < 0x110000 -> Forall byte (utf8_of_code_point cp).
Proof.
  intros H. unfold utf8_of_code_point, byte.
  destruct (Z.ltb_spec cp 0x80); [repeat constructor; lia|].
  destruct (Z.ltb_spec cp 0x800); [|destruct (Z.ltb_spec cp 0x10000)];
    repeat constructor;
    rewrite ?Z.shiftr_div_pow2 by lia;
    change 0x3F with (2 ^ 6 - 1); rewrite ?land_low by lia;
    change 0xC0 with (3 * 2 ^ 6); change 0x80 with (2 * 2 ^ 6);
    change 0xE0 with (7 * 2 ^ 5); change 0xF0 with (15 * 2 ^ 4);
    rewrite lor_high_low;
    change (2 ^ 6) with 64 in *; change (2 ^ 5) with 32 in *; change (2 ^ 4) with 16 in *;
    change (2 ^ 12) with 4096 in *; change (2 ^ 18) with 262144 in *;
    try (Z.div_mod_to_equations; lia).
Qed.

Lemma list_ind2 {A : Type} (P : list A -> Prop) :
  P [] -> (forall a, P [a]) ->
  (forall a b l, P l -> P (b :: l) -> P (a :: b :: l)) ->
  forall l, P l.
Proof.
  intros H0 H1 H2.
  assert (H : forall l, P l /\ forall a, P (a :: l)).
  { induction l as [|x l [IH0 IH1]]; split; auto. }
  intros l. apply H.
Qed.

Lemma surrogate_pair_range c d :
  is_high_surrogate c = true -> is_low_surrogate d = true ->
  0x10000 <= 0x10000 + (c - 0xD800) * 0x400 + (d - 0xDC00) < 0x110000.
Proof.
  unfold is_high_surrogate, is_low_surrogate.
  intros [H1 H2]%andb_prop [H3 H4]%andb_prop.
  apply Z.leb_le in H1, H2, H3, H4. lia.
Qed.

Lemma TextEncoder_encode_cons c rest :
  TextEncoder_encode (c :: rest) =
    if is_high_surrogate c then
      match rest with
      | d :: rest' =>
          if is_low_surrogate d then
            utf8_of_code_point (0x10000 + (c - 0xD800) * 0x400 + (d - 0xDC00))
              ++ TextEncoder_encode rest'
          else utf8_of_code_point 0xFFFD ++ TextEncoder_encode rest
      | [] => utf8_of_code_point 0xFFFD
      end
    else if is_low_surrogate c then
      utf8_of_code_point 0xFFFD ++ TextEncoder_encode rest
    else utf8_of_code_point c ++ TextEncoder_encode rest.
Proof. reflexivity. Qed.

Lemma TextEncoder_encode_bytes s :
  Forall code_unit s -> Forall byte (TextEncoder_encode s).
Proof.
  unfold code_unit.
  induction s as [|c|c d l IH1 IH2] using list_ind2; intros H.
  - constructor.
  - apply Forall_cons in H as [Hc _]. rewrite TextEncoder_encode_cons.
    destruct (is_high_surrogate c); [apply utf8_of_code_point_range; lia|].
    destruct (is_low_surrogate c); cbn [TextEncoder_encode]; rewrite app_nil_r;
      apply utf8_of_code_point_range; lia.
  - pose proof H as H'. apply Forall_cons in H as [Hc H].
    pose proof H as H''. apply Forall_cons in H as [Hd H].
    rewrite TextEncoder_encode_cons.
    destruct (is_high_surrogate c) eqn:Ec.
    + destruct (is_low_surrogate d) eqn:Ed.
      * apply Forall_app. split; [|apply IH1, H].
        apply utf8_of_code_point_range.
        pose proof (surrogate_pair_range c d Ec Ed). lia.
      * apply Forall_app. split; [apply utf8_of_code_point_range; lia | apply IH2, H''].
    + destruct (is_low_surrogate c);
        (apply Forall_app; split; [apply utf8_of_code_point_range; lia | apply IH2, H'']).
Qed.

Lemma ascii_not_surrogate c :
  ascii_unit c -> is_high_surrogate c = false /\ is_low_surrogate c = false
                  /\ utf8_of_code_point c = [c].
Proof.
  unfold ascii_unit, is_high_surrogate, is_low_surrogate, utf8_of_code_point. intros H.
  destruct (Z.leb_spec 0xD800 c); [lia|]. destruct (Z.leb_spec 0xDC00 c); [lia|].
  destruct (Z.ltb_spec c 0x80); [|lia]. repeat split.
Qed.

Lemma TextEncoder_encode_ascii s :
  Forall ascii_unit s -> TextEncoder_encode s = s.
Proof.
  induction 1 as [|c s Hc _ IH]; [reflexivity|].
  destruct (ascii_not_surrogate c Hc) as (Hh & Hl & Hu).
  rewrite TextEncoder_encode_cons, Hh, Hl, Hu, IH. reflexivity.
Qed.

Lemma utf8_length cp :
  (List.length (utf8_of_code_point cp) = 1%nat /\ cp < 0x80)
  \/ ((2 <= List.length (utf8_of_code_point cp))%nat /\ 0x80 <= cp).
Proof.
  unfold utf8_of_code_point.
  destruct (Z.ltb_spec cp 0x80); [left; split; [reflexivity | lia]|].
  right. destruct (Z.ltb_spec cp 0x800); [|destruct (Z.ltb_spec cp 0x10000)];
    cbn [List.length]; split; lia.
Qed.

Lemma TextEncoder_encode_length s :
  Forall code_unit s ->
  (List.length s <= List.length (TextEncoder_encode s))%nat
  /\ (List.length (TextEncoder_encode s) = List.length s -> Forall ascii_unit s).
Proof.
  unfold code_unit.
  induction s as [|c|c d l IH1 IH2] using list_ind2; intros H.
  - split; [reflexivity | constructor].
  - apply Forall_cons in H as [Hc _]. rewrite TextEncoder_encode_cons.
    destruct (is_high_surrogate c); [split; [cbn; lia | cbn; lia]|].
    destruct (is_low_surrogate c); cbn [TextEncoder_encode]; rewrite app_nil_r.
    + split; cbn; lia.
    + destruct (utf8_length c) as [[Hl Hlt]|[Hl Hge]]; cbn [List.length]; split; try lia.
      intros _. repeat constructor; unfold ascii_unit; lia.
  - pose proof H as H'. apply Forall_cons in H as [Hc H].
    pose proof H as H''. apply Forall_cons in H as [Hd H].
    destruct (IH1 H) as [L1 A1]. destruct (IH2 H'') as [L2 A2].
    rewrite TextEncoder_encode_cons.
    destruct (is_high_surrogate c) eqn:Ec.
    + destruct (is_low_surrogate d) eqn:Ed.
      * pose proof (surrogate_pair_range c d Ec Ed) as Hr.
        destruct (utf8_length (0x10000 + (c - 0xD800) * 0x400 + (d - 0xDC00)))
          as [[Hl Hlt]|[Hl Hge]]; [lia|].
        assert (Hfour : List.length
                  (utf8_of_code_point (0x10000 + (c - 0xD800) * 0x400 + (d - 0xDC00)))
                = 4%nat).
        { unfold utf8_of_code_point.
          destruct (Z.ltb_spec (0x10000 + (c - 0xD800) * 0x400 + (d - 0xDC00)) 0x80); [lia|].
          destruct (Z.ltb_spec (0x10000 + (c - 0xD800) * 0x400 + (d - 0xDC00)) 0x800); [lia|].
          destruct (Z.ltb_spec (0x10000 + (c - 0xD800) * 0x400 + (d - 0xDC00)) 0x10000); [lia|].
          reflexivity. }
        rewrite length_app, Hfour. cbn [List.length]. split; lia.
      * rewrite length_app. change (List.length (utf8_of_code_point 0xFFFD)) with 3%nat.
        cbn [List.length] in *. split; lia.
    + destruct (is_low_surrogate c) eqn:Elc.
      * rewrite length_app. change (List.length (utf8_of_code_point 0xFFFD)) with 3%nat.
        cbn [List.length] in *. split; lia.
      * rewrite length_app.
        destruct (utf8_length c) as [[Hl Hlt]|[Hl Hge]]; cbn [List.length] in *;
          split; try lia.
        intros Heq. constructor; [unfold ascii_unit; lia|]. apply A2. lia.
Qed.

(** What comes back is the UTF-8 encoding of what was sent, one code unit
    per byte. *)
Lemma put_then_get_utf8 (content : units) :
  Forall code_unit content -> put_then_get content = inr (TextEncoder_encode content).
Proof.
  intros H. pose proof (TextEncoder_encode_bytes content H) as Hb.
  unfold put_then_get, putContents_content, getContents_content, unicodeBtoa.
  rewrite fromCharCode_bytes, btoa_bytes by exact Hb. cbn [JS.bind].
  apply atob_b64_encode, Hb.
Qed.

(** The round trip is exact on ASCII text, and only there. *)
Lemma put_then_get_exact_iff (content : units) :
  Forall code_unit content ->
  put_then_get content = inr content <-> Forall ascii_unit content.
Proof.
  intros H. rewrite put_then_get_utf8 by exact H. split.
  - intros [= Heq]. apply TextEncoder_encode_length; [exact H|]. rewrite Heq. reflexivity.
  - intros Ha. rewrite TextEncoder_encode_ascii by exact Ha. reflexivity.
Qed.

(** C1: what [putContents] sends for "café 中文" comes back from
    [getContents] as twelve code units, one per UTF-8 byte, not as the seven
    code units of the original: [getContents] decodes with plain [atob] and
    never undoes the UTF-8 step of [unicodeBtoa]. *)
Theorem unicode_content_garbled :
  put_then_get cafe
    = inr [99; 97; 102; 195; 169; 32; 228; 184; 173; 230; 150; 135]
  /\ put_then_get cafe <> inr cafe.
Proof.
  assert (H : put_then_get cafe
              = inr [99; 97; 102; 195; 169; 32; 228; 184; 173; 230; 150; 135])
    by (vm_compute; reflexivity).
  split; [exact H|]. rewrite H. discriminate.
Qed.

(** One turn of the loop on a rate-limit answer. *)
Lemma fetch_loop_rate_limited net retries backoff left i lastError slept r m :
  net i = Some r -> status r = 403 \/ status r = 429 ->
  error_message r = inr m ->
  fetch_loop net retries backoff (S left) i lastError slept
  = fetch_loop net retries backoff left (S i) (Some (api_error r m))
      (slept ++ [wait_time backoff i r]).
Proof.
  intros Hnet Hs Hm. cbn [fetch_loop]. rewrite Hnet.
  assert (Hok : ok r = false).
  { unfold ok. destruct Hs as [-> | ->]; reflexivity. }
  assert (Hrl : (status r =? 403) || (status r =? 429) = true).
  { destruct Hs as [-> | ->]; reflexivity. }
  rewrite Hok, Hrl, Hm. reflexivity.
Qed.

(** The loop never sends more requests than it has iterations left. *)
Lemma fetch_loop_fetches net retries backoff left : forall i lastError slept,
  (fetches (fetch_loop net retries backoff left i lastError slept) <= i + left)%nat.
Proof.
  induction left as [|left IH]; intros i lastError slept; cbn [fetch_loop].
  - cbn. lia.
  - destruct (net i) as [r|]; [|cbn; lia].
    destruct (ok r); [cbn; lia|].
    destruct ((status r =? 403) || (status r =? 429)).
    + destruct (error_message r); [cbn; lia|].
      specialize (IH (S i) (Some (api_error r s)) (slept ++ [wait_time backoff i r])). lia.
    + destruct (error_message r); cbn; lia.
Qed.

(** [retries] bounds the number of requests of a call. *)
Lemma _githubFetch_fetches net retries backoff :
  (fetches (_githubFetch net retries backoff) <= retries)%nat.
Proof. unfold _githubFetch. apply (fetch_loop_fetches net retries backoff retries 0%nat). Qed.

(** C4: at the defaults a request that is answered by three consecutive
    429 responses, with a 200 ready as the fourth answer, does not resolve.
    The loop counts requests, not retries: the three 429 answers use up its
    three iterations, the third wait (4000 ms) is followed by no request,
    the 200 is never asked for and the call is rejected. *)
Theorem three_rate_limits_exhaust :
  _githubFetch three_429_then_200 DEFAULT_RETRIES DEFAULT_BACKOFF
  = {| result := Rejected (Error "[GitHub Adapter] Request failed after 3 retries. Last error: [GitHub API Error] 429: slow down");
       fetches := 3; sleeps := [1000; 2000; 4000] |}
  /\ (exists v, (three_429_then_200 3 ≫= json) = Some v).
Proof. split; [vm_compute; reflexivity | eexists; reflexivity]. Qed.

Lemma wait_time_no_header backoff i r :
  retryAfter r = None -> wait_time backoff i r = backoff * 2 ^ Z.of_nat i.
Proof. intros H. unfold wait_time. rewrite H. reflexivity. Qed.

Lemma wait_time_header backoff i r s n :
  retryAfter r = Some s -> s <> ""%string ->
  parseInt_string (Some 10%N) s = VNum n ->
  wait_time backoff i r = n * 1000.
Proof.
  intros H Hs Hp. unfold wait_time. rewrite H.
  destruct (String.eqb_spec s ""); [contradiction|]. cbn [negb].
  rewrite Hp. reflexivity.
Qed.

(** With one rate-limit answer less the call resolves: two 429 answers and
    a 200 are the three requests the loop can make. *)
Example two_rate_limits_then_ok :
  _githubFetch two_429_then_200 DEFAULT_RETRIES DEFAULT_BACKOFF
  = {| result := Fulfilled (VObj (object [("message", VStr "ok")]));
       fetches := 3; sleeps := [1000; 2000] |}.
Proof. vm_compute. reflexivity. Qed.

(** The message the code reads off an error response: the [message]
    property of a JSON object body, the status text when the body is not
    JSON. *)
Lemma error_message_object (r : response) (body : obj) :
  json r = Some (VObj body) ->
  error_message r = inr (to_string (get body "message")).
Proof. intros H. unfold error_message. rewrite H. reflexivity. Qed.

Lemma error_message_text (r : response) :
  json r = None -> error_message r = inr (statusText r).
Proof. intros H. unfold error_message. rewrite H. reflexivity. Qed.

(** C8: an error answer (status 500) whose body is the JSON value [null]
    ends the call at the first attempt, but the error raised is a bare
    TypeError: reading [message] off [null] throws before the error text
    with the status code and the message is built. *)
Theorem null_body_error_unreported :
  ok null_body_error = false
  /\ status null_body_error <> 403 /\ status null_body_error <> 429
  /\ _githubFetch (fun _ => Some null_body_error) DEFAULT_RETRIES DEFAULT_BACKOFF
     = {| result := Rejected TypeError; fetches := 1; sleeps := [] |}
  /\ (forall text, TypeError <> Error text).
Proof.
  split; [reflexivity|]. split; [discriminate|]. split; [discriminate|].
  split; [vm_compute; reflexivity | discriminate].
Qed.

(** Every other answer whose status is neither a success nor a rate-limit
    signal ends the call at the first attempt, with one request and no
    wait, and the error carries the status code and a text: the status text
    when the body is not JSON, the [message] of a JSON object body, the
    word "undefined" when that body has no message. *)
Lemma other_errors_fail_immediately (net : nat -> option response)
    (retries : nat) (backoff : Z) (r : response) :
  (0 < retries)%nat ->
  net 0%nat = Some r ->
  ok r = false -> status r <> 403 -> status r <> 429 ->
  let reported (text : string) : outcome value :=
    Rejected (Error ("[GitHub API Error] " +:+ show_Z (status r) +:+ ": " +:+ text)) in
  fetches (_githubFetch net retries backoff) = 1%nat
  /\ sleeps (_githubFetch net retries backoff) = []
  /\ (json r = None ->
      result (_githubFetch net retries backoff) = reported (statusText r))
  /\ (forall body m, json r = Some (VObj body) -> body !! "message" = Some (VStr m) ->
        result (_githubFetch net retries backoff) = reported m)
  /\ (forall body, json r = Some (VObj body) -> body !! "message" = None ->
        result (_githubFetch net retries backoff) = reported "undefined")
  /\ (json r = Some VNull ->
      result (_githubFetch net retries backoff) = Rejected TypeError).
Proof.
  intros Hr Hnet Hok H403 H429 reported.
  assert (E : _githubFetch net retries backoff
              = match error_message r with
                | inl e => {| result := Rejected e; fetches := 1; sleeps := [] |}
                | inr m => {| result := Rejected (Error (api_error r m));
                              fetches := 1; sleeps := [] |}
                end).
  { unfold _githubFetch. destruct retries as [|n]; [lia|].
    cbn [fetch_loop]. rewrite Hnet, Hok.
    destruct (Z.eqb_spec (status r) 403); [contradiction|].
    destruct (Z.eqb_spec (status r) 429); [contradiction|].
    cbn [orb]. destruct (error_message r); reflexivity. }
  rewrite E. unfold error_message.
  split; [destruct (json r) as [body|]; [destruct (get_prop body "message")|]; reflexivity|].
  split; [destruct (json r) as [body|]; [destruct (get_prop body "message")|]; reflexivity|].
  split; [intros ->; reflexivity|].
  split; [|split].
  - intros body m -> Hm. cbn [get_prop JS.bind]. unfold get. rewrite Hm. reflexivity.
  - intros body -> Hm. cbn [get_prop JS.bind]. unfold get. rewrite Hm. reflexivity.
  - intros ->. reflexivity.
Qed.

Example not_found_reported :
  _githubFetch (fun _ => Some not_found) DEFAULT_RETRIES DEFAULT_BACKOFF
  = {| result := Rejected (Error "[GitHub API Error] 404: Not Found");
       fetches := 1; sleeps := [] |}.
Proof. vm_compute. reflexivity. Qed.

(* ===================================================================== *)
(** ** Identifiers in text                                                 *)
(* ===================================================================== *)
















(* ===================================================================== *)
(** ** Record store                                                        *)
(* ===================================================================== *)

Lemma elem_of_in_key_order (rs : gmap key obj) k r :
  (k, r) ∈ in_key_order rs <-> rs !! k = Some r.
Proof.
  unfold in_key_order. rewrite merge_sort_Permutation.
  apply elem_of_map_to_list.
Qed.

Lemma elem_of_index_matches path pk (rs : gmap key obj) k r :
  (k, r) ∈ index_matches path pk rs <->
  rs !! k = Some r /\ r !! path ≫= to_key = Some pk.
Proof.
  unfold index_matches. rewrite list_elem_of_filter, elem_of_in_key_order.
  cbn. tauto.
Qed.

Lemma cursor_delete_all_lookup visited : forall (rs : gmap key obj) k,
  cursor_delete_all visited rs !! k =
    if bool_decide (k ∈ visited.*1) then None else rs !! k.
Proof.
  unfold cursor_delete_all.
  induction visited as [|[k' r'] visited IH]; intros rs k; cbn [foldl fmap list_fmap].
  - rewrite bool_decide_eq_false_2; [reflexivity | apply not_elem_of_nil].
  - rewrite IH. cbn [fst].
    destruct (decide (k = k')) as [->|Hne].
    + rewrite (bool_decide_eq_true_2 (k' ∈ k' :: visited.*1)) by apply list_elem_of_here.
      rewrite lookup_delete_eq. destruct (bool_decide _); reflexivity.
    + rewrite lookup_delete_ne by congruence.
      destruct (bool_decide (k ∈ visited.*1)) eqn:E.
      * apply bool_decide_eq_true_1 in E.
        rewrite bool_decide_eq_true_2; [reflexivity | apply list_elem_of_further, E].
      * apply bool_decide_eq_false_1 in E.
        rewrite bool_decide_eq_false_2; [reflexivity|].
        intros [?|?]%elem_of_cons; [congruence | contradiction].
Qed.

Lemma index_matches_after_cursor path pk (rs : gmap key obj) :
  index_matches path pk (cursor_delete_all (index_matches path pk rs) rs) = [].
Proof.
  destruct (index_matches path pk (cursor_delete_all _ rs)) as [|[k r] l] eqn:E; [reflexivity|].
  exfalso.
  assert (Hin : (k, r) ∈ index_matches path pk (cursor_delete_all (index_matches path pk rs) rs)).
  { rewrite E. apply list_elem_of_here. }
  apply elem_of_index_matches in Hin as [Hl Hm].
  rewrite cursor_delete_all_lookup in Hl.
  destruct (bool_decide (k ∈ (index_matches path pk rs).*1)) eqn:Hd; [discriminate|].
  apply bool_decide_eq_false_1 in Hd. apply Hd.
  apply list_elem_of_fmap. exists (k, r). split; [reflexivity|].
  apply elem_of_index_matches. split; assumption.
Qed.

Lemma cursor_removes_matches path pk (rs : gmap key obj) k r :
  cursor_delete_all (index_matches path pk rs) rs !! k = Some r ->
  rs !! k = Some r /\ r !! path ≫= to_key <> Some pk.
Proof.
  rewrite cursor_delete_all_lookup.
  destruct (bool_decide (k ∈ (index_matches path pk rs).*1)) eqn:Hd; [discriminate|].
  intros Hl. split; [exact Hl|]. intros Hm.
  apply bool_decide_eq_false_1 in Hd. apply Hd.
  apply list_elem_of_fmap. exists (k, r). split; [reflexivity|].
  apply elem_of_index_matches. split; assumption.
Qed.

Lemma cursor_keeps_others path pk (rs : gmap key obj) k r :
  rs !! k = Some r -> r !! path ≫= to_key <> Some pk ->
  cursor_delete_all (index_matches path pk rs) rs !! k = Some r.
Proof.
  intros Hl Hm. rewrite cursor_delete_all_lookup.
  rewrite bool_decide_eq_false_2; [exact Hl|].
  intros Hin. apply list_elem_of_fmap in Hin as ([k' r'] & Hk & Hin). cbn in Hk. subst k'.
  apply elem_of_index_matches in Hin as [Hl' Hm'].
  rewrite Hl in Hl'. injection Hl' as <-. contradiction.
Qed.

(** C3, as stated, fails: after [deleteProject] alone the project is gone
    and its diagram is still returned by [getDiagramsByProjectId]. *)
Lemma deleteProject_leaves_diagrams :
  (getProject (VNum 1) demo_world).1
    = Fulfilled (VObj (object [("id", VNum 1); ("name", VStr "Demo");
                               ("gitProvider", VStr "local"); ("createdAt", VUndef);
                               ("updatedAt", VUndef); ("_name_for_index", VStr "Demo")]))
  /\ ((await _ := deleteProject (VNum 1) in getProject (VNum 1)) demo_world).1
      = Fulfilled VUndef
  /\ ((await _ := deleteProject (VNum 1) in getDiagramsByProjectId (VNum 1)) demo_world).1
      = Fulfilled [VObj (object [("id", VNum 1); ("projectId", VNum 1);
                                 ("title", VStr "A"); ("content", VStr "graph TD;A-->B;");
                                 ("createdAt", VUndef); ("updatedAt", VUndef);
                                 ("lastModifiedRemoteSha", VUndef);
                                 ("_name_for_index", VStr "A")])].
Proof. repeat split; vm_compute; reflexivity. Qed.

(** C3 (amended): [deleteProject] removes the project and nothing else;
    the diagrams of the project go with the separate action
    [deleteDiagramsByProjectId].  Run for the same id on an open database,
    the two leave no project under that id and no diagram whose [projectId]
    is that id, keep every other diagram, and [getDiagramsByProjectId] for
    the id then returns the empty collection. *)
Theorem cascade_needs_both_actions (w : world) (projectId : value) (kp : key) :
  db w = true ->
  to_key projectId = Some kp ->
  exists w1 w2,
    deleteProject projectId w = (Fulfilled tt, w1)
    /\ records (projects w1) !! kp = None
    /\ diagrams w1 = diagrams w
    /\ deleteDiagramsByProjectId projectId w1 = (Fulfilled tt, w2)
    /\ records (projects w2) !! kp = None
    /\ (forall k r, records (diagrams w2) !! k = Some r ->
          records (diagrams w) !! k = Some r /\ r !! "projectId" ≫= to_key <> Some kp)
    /\ (forall k r, records (diagrams w) !! k = Some r ->
          r !! "projectId" ≫= to_key <> Some kp ->
          records (diagrams w2) !! k = Some r)
    /\ getDiagramsByProjectId projectId w2 = (Fulfilled [], w2).
Proof.
  intros Hdb Hk.
  unfold deleteProject, _delete. rewrite Hdb, Hk. cbn [negb].
  eexists _, _. split; [reflexivity|].
  cbn [set_store store projects diagrams records].
  split; [apply lookup_delete_eq|]. split; [reflexivity|].
  unfold deleteDiagramsByProjectId. cbn [db negb]. rewrite ?Hdb, Hk. cbn [negb].
  split; [reflexivity|].
  cbn [set_store store projects diagrams records].
  split; [apply lookup_delete_eq|].
  split; [intros k r; apply cursor_removes_matches|].
  split; [intros k r; apply cursor_keeps_others|].
  unfold getDiagramsByProjectId. cbn [db]. rewrite ?Hdb. cbn [negb].
  unfold index_getAll. rewrite Hk.
  cbn [diagrams records].
  rewrite index_matches_after_cursor.
  destruct projectId; try discriminate Hk; reflexivity.
Qed.

Lemma cascade_needs_both_actions_witness :
  exists w1 w2,
    deleteProject (VNum 1) demo_world = (Fulfilled tt, w1)
    /\ deleteDiagramsByProjectId (VNum 1) w1 = (Fulfilled tt, w2)
    /\ getDiagramsByProjectId (VNum 1) w2 = (Fulfilled [], w2).
Proof.
  destruct (cascade_needs_both_actions demo_world (VNum 1) (KNum 1) eq_refl eq_refl)
    as (w1 & w2 & H1 & _ & _ & H2 & _ & _ & _ & H3).
  exists w1, w2. split; [exact H1 | split; [exact H2 | exact H3]].
Defined.

Lemma violates_true paths (rs : gmap key obj) k item k' r' ik :
  index_key paths item = Some ik ->
  rs !! k' = Some r' -> k' <> k -> index_key paths r' = Some ik ->
  violates (Some paths) rs k item = true.
Proof.
  intros Hi Hl Hne Hr. unfold violates. rewrite Hi.
  apply existsb_exists. exists (k', r'). split.
  - apply list_elem_of_In, elem_of_map_to_list, Hl.
  - cbn. rewrite !bool_decide_eq_true_2 by assumption. reflexivity.
Qed.

Lemma violates_false paths (rs : gmap key obj) k item :
  (forall k' r' ik, rs !! k' = Some r' -> k' <> k ->
     index_key paths r' = Some ik -> index_key paths item <> Some ik) ->
  violates (Some paths) rs k item = false.
Proof.
  intros H. unfold violates.
  destruct (index_key paths item) as [ik|] eqn:Hi; [|reflexivity].
  destruct (existsb _ _) eqn:E; [|reflexivity]. exfalso.
  apply existsb_exists in E as ([k' r'] & Hin & Hb).
  apply list_elem_of_In, elem_of_map_to_list in Hin.
  cbn in Hb. apply andb_prop in Hb as [Hb1 Hb2].
  apply bool_decide_eq_true_1 in Hb1, Hb2.
  apply (H k' r' ik Hin Hb1 Hb2). reflexivity.
Qed.

Lemma index_key_insert paths (r : obj) k v :
  k ∉ paths -> index_key paths (<[k := v]> r) = index_key paths r.
Proof.
  unfold index_key. intros Hk. induction paths as [|p paths IH]; [reflexivity|].
  apply not_elem_of_cons in Hk as [Hp Hk].
  cbn [mapM]. rewrite lookup_insert_ne by congruence. rewrite IH by assumption. reflexivity.
Qed.

Lemma store_set_store n st w : store n (set_store n st w) = st.
Proof. destruct n; reflexivity. Qed.

Lemma db_set_store n st w : db (set_store n st w) = db w.
Proof. destruct n; reflexivity. Qed.

Lemma set_store_twice n st st' w : set_store n st' (set_store n st w) = set_store n st' w.
Proof. destruct n; reflexivity. Qed.

(** The two writes of [addDiagram] / [addProject] when the key is generated. *)
Lemma put_twice_generated (n : store_name) (paths : list string) (urn : value -> string)
    (w : world) (ld : obj) :
  unique_index n = Some paths -> "id" ∉ paths -> "@id" ∉ paths ->
  db w = true ->
  extract_key ld = NoKey ->
  generator (store n w) <= max_generated ->
  index_free paths (records (store n w)) ld ->
  let g := generator (store n w) in
  await_ (_put n ld) (fun newId =>
    _put n (<["@id" := VStr (urn (of_key newId))]> (<["id" := of_key newId]> ld))) w
  = (Fulfilled (KNum g),
     set_store n
       {| records := <[KNum g := <["@id" := VStr (urn (VNum g))]> (<["id" := VNum g]> ld)]>
                       (records (store n w));
          generator := g + 1 |} w).
Proof.
  intros Hu Hid Hat Hdb Hk Hgen Hfree g.
  unfold await_, _put at 1. rewrite Hdb. cbn [negb].
  unfold put at 1. rewrite Hk.
  destruct (Z.ltb_spec max_generated (generator (store n w))) as [|_]; [lia|].
  cbn [JS.bind]. fold g. rewrite Hu.
  rewrite violates_false.
  2:{ intros k' r' ik Hl _ Hr. rewrite index_key_insert by assumption.
      eapply Hfree; eassumption. }
  unfold _put. rewrite db_set_store, Hdb. cbn [negb].
  rewrite store_set_store. unfold put. cbn [of_key].
  assert (He : extract_key (<["@id":=VStr (urn (VNum g))]> (<["id":=VNum g]> ld)) = HasKey (KNum g)).
  { unfold extract_key. rewrite lookup_insert_ne by discriminate.
    rewrite lookup_insert_eq. reflexivity. }
  rewrite He. cbn [JS.bind records generator]. rewrite Hu.
  rewrite violates_false.
  2:{ intros k' r' ik Hl Hne Hr. rewrite lookup_insert_ne in Hl by congruence.
      rewrite !index_key_insert by assumption.
      eapply Hfree; eassumption. }
  rewrite set_store_twice. rewrite insert_insert_eq.
  f_equal. f_equal. f_equal.
  unfold bump.
  assert (Z.min g max_generated = g) as -> by (subst g; lia).
  destruct (Z.leb_spec (g + 1) g); [lia | reflexivity].
Qed.

Lemma _put_conflict (n : store_name) (paths : list string) (w : world) (item : obj)
    (k' : key) (r' : obj) (ik : list key) :
  unique_index n = Some paths -> "id" ∉ paths ->
  db w = true ->
  extract_key item = NoKey ->
  index_key paths item = Some ik ->
  records (store n w) !! k' = Some r' ->
  k' <> KNum (generator (store n w)) ->
  index_key paths r' = Some ik ->
  _put n item w = (Rejected ConstraintError, w).
Proof.
  intros Hu Hid Hdb He Hi Hl Hne Hr.
  unfold _put. rewrite Hdb. cbn [negb]. unfold put. rewrite He.
  destruct (max_generated <? generator (store n w)); [reflexivity|].
  cbn [JS.bind]. rewrite Hu.
  rewrite (violates_true paths _ _ _ k' r' ik); try assumption; [reflexivity|].
  rewrite index_key_insert by assumption. exact Hi.
Qed.

Lemma get_with_id (d : obj) k : get (with_id d) k = get d k.
Proof.
  unfold with_id, get. destruct (String.eqb_spec k "id") as [->|Hne].
  - rewrite lookup_insert_eq. reflexivity.
  - rewrite lookup_insert_ne by congruence. reflexivity.
Qed.

Lemma lookup_with_id (d : obj) k : k <> "id"%string -> with_id d !! k = d !! k.
Proof. intros H. unfold with_id. apply lookup_insert_ne. congruence. Qed.

Lemma iso_or_undefined_ok v : timestamp_ok v -> exists s, iso_or_undefined v = inr s.
Proof. intros H. destruct (date_roundtrip v H) as (s & Hs & _). eauto. Qed.

Lemma toDiagramLD_new (d : obj) :
  simple_diagram d -> truthy (get d "id") = false ->
  timestamp_ok (get d "createdAt") -> timestamp_ok (get d "updatedAt") ->
  exists ld, toDiagramLD (with_id d) = inr ld
    /\ ld !! "id" = None
    /\ ld !! "@context" = Some (VStr CONTEXT)
    /\ ld !! "@type" = Some (VStr DIAGRAM_TYPE)
    /\ ld !! "bfo:BFO_0000129"
       = Some (VObj (object [("@id", VStr (project_urn (get d "projectId")))]))
    /\ ld !! "projectId" = Some (get d "projectId")
    /\ ld !! "_name_for_index"
       = Some (default (get d "title") (d !! "_name_for_index")).
Proof.
  intros Hs Hid Hc Hu.
  unfold simple_diagram, diagram_ld_keys in Hs.
  repeat (apply Forall_cons in Hs; destruct Hs as [? Hs]).
  destruct (iso_or_undefined_ok _ Hc) as (sc & Hsc).
  destruct (iso_or_undefined_ok _ Hu) as (su & Hsu).
  unfold toDiagramLD. rewrite !get_with_id, Hsc, Hsu, Hid.
  assert (Hctx : get d "@context" = VUndef) by (unfold get; rewrite H; reflexivity).
  rewrite Hctx. cbn [truthy JS.bind].
  eexists. split; [reflexivity|].
  unfold diagram_simple_keys.
  repeat split; lookups; cbn -[project_urn]; rewrite ?lookup_with_id by discriminate;
    try match goal with H : d !! ?k = None |- context [d !! ?k] => rewrite H end;
    try reflexivity.
  destruct (d !! "_name_for_index"); reflexivity.
Qed.

Lemma toProjectLD_new (d : obj) :
  simple_project d -> truthy (get d "id") = false ->
  timestamp_ok (get d "createdAt") -> timestamp_ok (get d "updatedAt") ->
  exists ld, toProjectLD (with_id d) = inr ld
    /\ ld !! "id" = None
    /\ ld !! "@context" = Some (VStr CONTEXT)
    /\ ld !! "@type" = Some (VStr PROJECT_TYPE)
    /\ ld !! "_name_for_index"
       = Some (default (get d "name") (d !! "_name_for_index")).
Proof.
  intros Hs Hid Hc Hu.
  unfold simple_project, project_ld_keys in Hs.
  repeat (apply Forall_cons in Hs; destruct Hs as [? Hs]).
  destruct (iso_or_undefined_ok _ Hc) as (sc & Hsc).
  destruct (iso_or_undefined_ok _ Hu) as (su & Hsu).
  unfold toProjectLD. rewrite !get_with_id, Hsc, Hsu, Hid.
  assert (Hctx : get d "@context" = VUndef) by (unfold get; rewrite H; reflexivity).
  rewrite Hctx. cbn [truthy JS.bind].
  eexists. split; [reflexivity|].
  unfold project_simple_keys.
  repeat split; lookups; cbn -[project_urn]; rewrite ?lookup_with_id by discriminate;
    try match goal with H : d !! ?k = None |- context [d !! ?k] => rewrite H end;
    try reflexivity.
  destruct (d !! "_name_for_index"); reflexivity.
Qed.

Lemma extract_key_absent (ld : obj) : ld !! "id" = None -> extract_key ld = NoKey.
Proof. intros H. unfold extract_key. rewrite H. reflexivity. Qed.

Lemma addDiagram_unfold d ld w :
  toDiagramLD (with_id d) = inr ld ->
  addDiagram d w =
  await_ (_put Diagrams ld) (fun newId =>
    _put Diagrams (<["@id" := VStr (diagram_urn (of_key newId))]>
                     (<["id" := of_key newId]> ld))) w.
Proof. intros H. unfold addDiagram. rewrite H. reflexivity. Qed.

Lemma addProject_unfold d ld w :
  toProjectLD (with_id d) = inr ld ->
  addProject d w =
  await_ (_put Projects ld) (fun newId =>
    _put Projects (<["@id" := VStr (project_urn (of_key newId))]>
                     (<["id" := of_key newId]> ld))) w.
Proof. intros H. unfold addProject. rewrite H. reflexivity. Qed.

Lemma new_diagram_index_key d P T kp ld :
  new_diagram d P T -> to_key P = Some kp ->
  ld !! "projectId" = Some (get d "projectId") ->
  ld !! "_name_for_index" = Some (default (get d "title") (d !! "_name_for_index")) ->
  index_key DIAGRAM_INDEX ld = Some [kp; KStr T].
Proof.
  intros (_ & Hn & _ & HP & HT & _) Hk H1 H2.
  unfold index_key, DIAGRAM_INDEX. cbn [mapM].
  rewrite H1, H2, Hn, HP, HT. cbn. rewrite Hk. reflexivity.
Qed.

(** Where the rule on titles does hold: on an open store whose unique
    index has no entry for [T] under the projects [P] and [P'], a first new
    diagram titled [T] under [P] is added; a second one under the same [P]
    is rejected with the ConstraintError of the unique index (which is none
    of the generic [Error]s) and leaves the store as it was; a diagram
    titled [T] under the other project [P'] is added. *)
Lemma duplicate_title_rejected (w : world) (d1 d2 d3 : obj) (P P' : value)
    (kp kp' : key) (T : string) :
  db w = true ->
  generator (diagrams w) < max_generated ->
  to_key P = Some kp -> to_key P' = Some kp' -> kp <> kp' ->
  new_diagram d1 P T -> new_diagram d2 P T -> new_diagram d3 P' T ->
  title_free w kp T -> title_free w kp' T ->
  exists k1 w1,
    addDiagram d1 w = (Fulfilled k1, w1)
    /\ addDiagram d2 w1 = (Rejected ConstraintError, w1)
    /\ (forall message, ConstraintError <> Error message)
    /\ exists k3 w3, addDiagram d3 w1 = (Fulfilled k3, w3) /\ k3 <> k1.
Proof.
  intros Hdb Hgen HkP HkP' Hne N1 N2 N3 F1 F3.
  pose proof N1 as (S1 & _ & I1 & _ & _ & C1 & U1).
  pose proof N2 as (S2 & _ & I2 & _ & _ & C2 & U2).
  pose proof N3 as (S3 & _ & I3 & _ & _ & C3 & U3).
  destruct (toDiagramLD_new d1 S1 I1 C1 U1) as (ld1 & E1 & A1 & _ & _ & _ & B1 & D1).
  destruct (toDiagramLD_new d2 S2 I2 C2 U2) as (ld2 & E2 & A2 & _ & _ & _ & B2 & D2).
  destruct (toDiagramLD_new d3 S3 I3 C3 U3) as (ld3 & E3 & A3 & _ & _ & _ & B3 & D3).
  pose proof (new_diagram_index_key _ _ _ _ _ N1 HkP B1 D1) as K1.
  pose proof (new_diagram_index_key _ _ _ _ _ N2 HkP B2 D2) as K2.
  pose proof (new_diagram_index_key _ _ _ _ _ N3 HkP' B3 D3) as K3.
  set (g := generator (diagrams w)) in *.
  unfold title_free in F1, F3.
  assert (Hin : ("id" ∉ DIAGRAM_INDEX) /\ ("@id" ∉ DIAGRAM_INDEX)).
  { split; intros H; repeat (apply elem_of_cons in H as [H|H]; [discriminate H|]);
      apply elem_of_nil in H; exact H. }
  destruct Hin as [Hin1 Hin2].
  pose proof (put_twice_generated Diagrams _ diagram_urn w ld1
                eq_refl Hin1 Hin2 Hdb (extract_key_absent _ A1)) as Hput1.
  cbn [store] in Hput1. fold g in Hput1.
  specialize (Hput1 ltac:(lia)).
  rewrite <- (addDiagram_unfold d1 ld1 w E1) in Hput1.
  eexists _, _. split.
  { apply Hput1. intros k r ik Hl Hr. rewrite K1. intros [= <-]. exact (F1 k r Hl Hr). }
  set (r1 := <["@id":=VStr (diagram_urn (VNum g))]> (<["id":=VNum g]> ld1)).
  set (w1 := set_store Diagrams _ w).
  assert (Hr1 : index_key DIAGRAM_INDEX r1 = Some [kp; KStr T]).
  { subst r1. rewrite !index_key_insert by assumption. exact K1. }
  split; [|split; [discriminate|]].
  - rewrite (addDiagram_unfold d2 ld2 w1 E2). unfold await_.
    rewrite (_put_conflict Diagrams _ w1 ld2 (KNum g) r1 [kp; KStr T] eq_refl Hin1);
      [reflexivity | exact Hdb | apply extract_key_absent, A2 | exact K2
      | apply lookup_insert_eq | cbn; intros [= H]; lia | exact Hr1].
  - pose proof (put_twice_generated Diagrams _ diagram_urn w1 ld3
                  eq_refl Hin1 Hin2) as Hput3.
    subst w1. cbn [set_store db store diagrams generator records] in Hput3.
    specialize (Hput3 Hdb (extract_key_absent _ A3) ltac:(lia)).
    rewrite <- (addDiagram_unfold d3 ld3 _ E3) in Hput3.
    eexists _, _. split.
    + apply Hput3. intros k r ik Hl Hr. rewrite K3. intros [= <-].
      destruct (decide (k = KNum g)) as [->|Hk].
      * rewrite lookup_insert_eq in Hl. injection Hl as <-.
        rewrite Hr1 in Hr. injection Hr as Heq. contradiction.
      * rewrite lookup_insert_ne in Hl by congruence. exact (F3 k r Hl Hr).
    + intros [= H]. lia.
Qed.

Lemma empty_title_free kp T : title_free opened kp T.
Proof.
  intros k r H. change ((∅ : gmap key obj) !! k = Some r) in H.
  rewrite lookup_empty in H. discriminate H.
Qed.

Lemma new_diagram_A p : new_diagram (diagram_A p) (VNum p) "A".
Proof.
  unfold new_diagram. split; [repeat constructor|].
  split; [reflexivity|]. split; [reflexivity|]. split; [reflexivity|].
  split; [reflexivity|]. split; left; reflexivity.
Qed.

Lemma duplicate_title_rejected_on_empty :
  exists k1 w1,
    addDiagram (diagram_A 1) opened = (Fulfilled k1, w1)
    /\ addDiagram (diagram_A 1) w1 = (Rejected ConstraintError, w1)
    /\ exists k3 w3, addDiagram (diagram_A 2) w1 = (Fulfilled k3, w3).
Proof.
  destruct (duplicate_title_rejected opened (diagram_A 1) (diagram_A 1) (diagram_A 2)
              (VNum 1) (VNum 2) (KNum 1) (KNum 2) "A"
              eq_refl eq_refl eq_refl eq_refl ltac:(discriminate)
              (new_diagram_A 1) (new_diagram_A 1) (new_diagram_A 2)
              (empty_title_free _ _) (empty_title_free _ _))
    as (k1 & w1 & H1 & H2 & _ & k3 & w3 & H3 & _).
  exists k1, w1. split; [exact H1 | split; [exact H2 | exists k3, w3; exact H3]].
Qed.

(** C6: a second diagram with the title of an existing one is accepted
    under the same project when the existing one got its title by a
    rename.  The diagram of [stocked], titled "A", is read, renamed to "B"
    and written back with [updateDiagram]; the stored record keeps the
    index name "A", so a new diagram titled "B" under the same project is
    added without an error, and the project then lists two diagrams titled
    "B". *)
Theorem renamed_title_not_unique :
  (getDiagram (VNum 1) stocked).1 = Fulfilled (VObj stocked_diagram)
  /\ get stocked_diagram "title" = VStr "A"
  /\ (updateDiagram (<["title" := VStr "B"]> stocked_diagram) stocked).1
     = Fulfilled (KNum 1)
  /\ (addDiagram (diagram_B 1) renamed_to_B).1 = Fulfilled (KNum 2)
  /\ (getDiagramsByProjectId (VNum 1) two_titled_B).1
     = Fulfilled
         [VObj (object [("id", VNum 1); ("projectId", VNum 1); ("title", VStr "B");
                        ("content", VStr "graph TD;A-->B;"); ("createdAt", VUndef);
                        ("updatedAt", VUndef); ("lastModifiedRemoteSha", VUndef);
                        ("_name_for_index", VStr "A")]);
          VObj (object [("id", VNum 2); ("projectId", VNum 1); ("title", VStr "B");
                        ("content", VStr "graph LR;B-->C;"); ("createdAt", VUndef);
                        ("updatedAt", VUndef); ("lastModifiedRemoteSha", VUndef);
                        ("_name_for_index", VStr "B")])].
Proof.
  split; [vm_compute; reflexivity|]. split; [reflexivity|].
  split; [vm_compute; reflexivity|]. split; [vm_compute; reflexivity|].
  vm_compute. reflexivity.
Qed.




Lemma store_ok_fresh st : store_ok st -> records st !! KNum (generator st) = None.
Proof.
  intros H. destruct (records st !! KNum (generator st)) as [r|] eqn:E; [|reflexivity].
  apply H in E. lia.
Qed.










(* ===================================================================== *)
(** ** The retry loop of [_githubFetch] in general                         *)
(* ===================================================================== *)

(** A run of rate-limit answers takes the loop that many turns on. *)
Lemma fetch_loop_limited net retries backoff rs ms : forall k left i lastError slept,
  (forall j, (i <= j < i + k)%nat -> limited net rs ms j) ->
  fetch_loop net retries backoff (k + left) i lastError slept
  = fetch_loop net retries backoff left (i + k)
      (match k with
       | O => lastError
       | S k' => Some (api_error (rs (i + k')%nat) (ms (i + k')%nat))
       end)
      (slept ++ map (fun j => wait_time backoff j (rs j)) (seq i k)).
Proof.
  induction k as [|k IH]; intros left i lastError slept H.
  - cbn [seq map Nat.add]. rewrite app_nil_r, Nat.add_0_r. reflexivity.
  - assert (Hi : (i <= i < i + S k)%nat) by lia.
    destruct (H i Hi) as (Hn & Hs & Hm).
    change (S k + left)%nat with (S (k + left)).
    rewrite (fetch_loop_rate_limited _ _ _ _ _ _ _ (rs i) (ms i)) by assumption.
    rewrite IH by (intros j Hj; apply H; lia).
    cbn [seq map]. rewrite <- app_assoc. cbn [app].
    replace (S i + k)%nat with (i + S k)%nat by lia.
    f_equal. destruct k as [|k'].
    + rewrite Nat.add_0_r. reflexivity.
    + replace (S i + k')%nat with (i + S k')%nat by lia. reflexivity.
Qed.



(** X2: when the first [k] answers are rate-limit signals, [k] being less
    than [retries], and the next answer is a success, the call resolves
    after [k + 1] requests and [k] waits, with [null] for a 204 and with
    the JSON body otherwise. *)
Theorem githubFetch_succeeds_within_budget (net : nat -> option response)
    (retries k : nat) (backoff : Z) (rs : nat -> response) (ms : nat -> string)
    (r : response) (v : value) :
  (k < retries)%nat ->
  (forall j, (j < k)%nat -> limited net rs ms j) ->
  net k = Some r -> ok r = true ->
  (status r <> 204 -> json r = Some v) ->
  _githubFetch net retries backoff
  = {| result := Fulfilled (if status r =? 204 then VNull else v);
       fetches := S k; sleeps := waits backoff rs k |}.
Proof.
  intros Hk Hl Hn Hok Hj. unfold _githubFetch.
  replace retries with (k + S (retries - S k))%nat at 2 by lia.
  rewrite (fetch_loop_limited net retries backoff rs ms) by (intros j Hjk; apply Hl; lia).
  cbn [Nat.add app fetch_loop]. rewrite Hn, Hok.
  unfold waits. f_equal.
  destruct (Z.eqb_spec (status r) 204) as [|Hne]; [reflexivity|].
  rewrite (Hj Hne). reflexivity.
Qed.

Lemma githubFetch_succeeds_within_budget_witness :
  _githubFetch limited_then_no_content DEFAULT_RETRIES DEFAULT_BACKOFF
  = {| result := Fulfilled VNull; fetches := 2; sleeps := [7000] |}.
Proof.
  apply (githubFetch_succeeds_within_budget limited_then_no_content DEFAULT_RETRIES 1
           DEFAULT_BACKOFF (fun _ => rate_limited (Some "7")) (fun _ => "slow down"%string)
           no_content VUndef).
  - unfold DEFAULT_RETRIES. lia.
  - intros j Hj. assert (j = 0%nat) as -> by lia.
    split; [reflexivity|]. split; [right; reflexivity | reflexivity].
  - reflexivity.
  - reflexivity.
  - intros H. exfalso. apply H. reflexivity.
Defined.

(** When every one of the [retries] attempts is answered by a rate-limit
    signal, the loop runs out. *)
Lemma fetch_exhausted (net : nat -> option response)
    (retries : nat) (backoff : Z) (rs : nat -> response) (ms : nat -> string) :
  (0 < retries)%nat ->
  (forall j, (j < retries)%nat -> limited net rs ms j) ->
  let last := api_error (rs (retries - 1)%nat) (ms (retries - 1)%nat) in
  _githubFetch net retries backoff
  = {| result := Rejected (Error (if includes "403" last then scope_error
                                  else exhausted_error retries (Some last)));
       fetches := retries; sleeps := waits backoff rs retries |}.
Proof.
  intros Hr Hl last. unfold _githubFetch.
  replace retries with (retries + 0)%nat at 2 by lia.
  rewrite (fetch_loop_limited net retries backoff rs ms) by (intros j Hjk; apply Hl; lia).
  destruct retries as [|n]; [lia|].
  cbn [Nat.add app fetch_loop]. subst last.
  replace (S n - 1)%nat with n by lia. reflexivity.
Qed.

Lemma three_429_limited j :
  (j < 3)%nat ->
  limited three_429_then_200 (fun _ => rate_limited None) (fun _ => "slow down"%string) j.
Proof.
  intros Hj. destruct j as [|[|[|j]]]; [| | | lia];
    (split; [reflexivity|]; split; [right; reflexivity | reflexivity]).
Qed.

(** X3: when every one of the [retries] attempts is answered by a
    rate-limit signal, the call sends [retries] requests, waits after each
    of them, the last one included, and is then rejected; unless the
    message of the last answer contains "403", the error names the number
    of attempts and quotes the status and message of the last answer. *)
Theorem githubFetch_gives_up_after_last_wait (net : nat -> option response)
    (retries : nat) (backoff : Z) (rs : nat -> response) (ms : nat -> string) :
  (0 < retries)%nat ->
  (forall j, (j < retries)%nat -> limited net rs ms j) ->
  includes "403" (api_error (rs (retries - 1)%nat) (ms (retries - 1)%nat)) = false ->
  _githubFetch net retries backoff
  = {| result := Rejected (Error
         ("[GitHub Adapter] Request failed after " +:+ show_Z (Z.of_nat retries)
          +:+ " retries. Last error: [GitHub API Error] "
          +:+ show_Z (status (rs (retries - 1)%nat)) +:+ ": " +:+ ms (retries - 1)%nat));
       fetches := retries; sleeps := waits backoff rs retries |}.
Proof.
  intros Hr Hl Hi. rewrite (fetch_exhausted net retries backoff rs ms Hr Hl).
  cbn zeta. rewrite Hi. unfold exhausted_error, api_error. cbn [default].
  reflexivity.
Qed.

Lemma githubFetch_gives_up_after_last_wait_witness :
  _githubFetch three_429_then_200 3 1000
  = {| result := Rejected (Error "[GitHub Adapter] Request failed after 3 retries. Last error: [GitHub API Error] 429: slow down");
       fetches := 3; sleeps := [1000; 2000; 4000] |}.
Proof.
  exact (githubFetch_gives_up_after_last_wait three_429_then_200 3 1000
           (fun _ => rate_limited None) (fun _ => "slow down"%string)
           ltac:(lia) three_429_limited eq_refl).
Defined.

Lemma string_prefix_app p s : String.prefix p (p +:+ s) = true.
Proof.
  induction p as [|a p IH].
  - destruct s; reflexivity.
  - change (String a p +:+ s) with (String a (p +:+ s)). cbn [String.prefix].
    destruct (ascii_dec a a); [exact IH | congruence].
Qed.

Lemma includes_app_r pre p s : includes p s = true -> includes p (pre +:+ s) = true.
Proof.
  intros H. induction pre as [|c pre IH]; [exact H|].
  change (String c pre +:+ s) with (String c (pre +:+ s)).
  cbn [includes]. rewrite IH. apply orb_true_r.
Qed.

Lemma includes_mid pre p post : includes p (pre +:+ p +:+ post) = true.
Proof.
  apply includes_app_r. destruct (p +:+ post) eqn:E; cbn [includes];
    rewrite <- E, string_prefix_app; reflexivity.
Qed.

(** X4: when every attempt is answered by a rate-limit signal and the last
    answer is a 403, the call is rejected with the hint about the scopes of
    the token, whatever the provider's message was. *)
Theorem githubFetch_forbidden_reports_scopes (net : nat -> option response)
    (retries : nat) (backoff : Z) (rs : nat -> response) (ms : nat -> string) :
  (0 < retries)%nat ->
  (forall j, (j < retries)%nat -> limited net rs ms j) ->
  status (rs (retries - 1)%nat) = 403 ->
  result (_githubFetch net retries backoff) = Rejected (Error scope_error)
  /\ fetches (_githubFetch net retries backoff) = retries.
Proof.
  intros Hr Hl Hs. rewrite (fetch_exhausted net retries backoff rs ms Hr Hl).
  cbn zeta. cbn [result fetches]. unfold api_error. rewrite Hs.
  change (show_Z 403) with "403"%string.
  rewrite includes_mid. split; reflexivity.
Qed.

Lemma githubFetch_forbidden_reports_scopes_witness :
  result (_githubFetch (fun _ => Some forbidden) DEFAULT_RETRIES DEFAULT_BACKOFF)
    = Rejected (Error scope_error)
  /\ fetches (_githubFetch (fun _ => Some forbidden) DEFAULT_RETRIES DEFAULT_BACKOFF)
     = 3%nat.
Proof.
  apply (githubFetch_forbidden_reports_scopes (fun _ => Some forbidden) DEFAULT_RETRIES
           DEFAULT_BACKOFF (fun _ => forbidden)
           (fun _ => "Resource not accessible by token"%string)).
  - unfold DEFAULT_RETRIES. lia.
  - intros j _. split; [reflexivity|]. split; [left; reflexivity | reflexivity].
  - reflexivity.
Defined.

Lemma total_wait_powers backoff n : forall i,
  total_wait (map (fun j => backoff * 2 ^ Z.of_nat j) (seq i n))
  = backoff * 2 ^ Z.of_nat i * (2 ^ Z.of_nat n - 1).
Proof.
  induction n as [|n IH]; intros i.
  - cbn. lia.
  - cbn [seq map total_wait foldr].
    fold (total_wait (map (fun j => backoff * 2 ^ Z.of_nat j) (seq (S i) n))).
    rewrite IH. rewrite !Nat2Z.inj_succ, !Z.pow_succ_r by lia. lia.
Qed.

(** X5: when every attempt is answered by a rate-limit signal without a
    [Retry-After] header, the wait after attempt [j] is [backoff * 2^j],
    and the call has waited [backoff * (2^retries - 1)] in all when it
    gives up. *)
Theorem githubFetch_backoff_doubles (net : nat -> option response)
    (retries : nat) (backoff : Z) (rs : nat -> response) (ms : nat -> string) :
  (0 < retries)%nat ->
  (forall j, (j < retries)%nat -> limited net rs ms j /\ retryAfter (rs j) = None) ->
  sleeps (_githubFetch net retries backoff)
    = map (fun j => backoff * 2 ^ Z.of_nat j) (seq 0 retries)
  /\ total_wait (sleeps (_githubFetch net retries backoff))
     = backoff * (2 ^ Z.of_nat retries - 1).
Proof.
  intros Hr Hl.
  rewrite (fetch_exhausted net retries backoff rs ms Hr) by (intros j Hj; apply Hl, Hj).
  cbn zeta. cbn [sleeps].
  assert (E : waits backoff rs retries
              = map (fun j => backoff * 2 ^ Z.of_nat j) (seq 0 retries)).
  { unfold waits. apply map_ext_in. intros j Hj%in_seq.
    apply wait_time_no_header. apply Hl. lia. }
  rewrite E. split; [reflexivity|].
  rewrite total_wait_powers. cbn [Z.of_nat]. rewrite Z.pow_0_r. lia.
Qed.

Lemma githubFetch_backoff_doubles_witness :
  sleeps (_githubFetch three_429_then_200 3 1000) = [1000; 2000; 4000]
  /\ total_wait (sleeps (_githubFetch three_429_then_200 3 1000)) = 7000.
Proof.
  exact (githubFetch_backoff_doubles three_429_then_200 3 1000
           (fun _ => rate_limited None) (fun _ => "slow down"%string)
           ltac:(lia) (fun j Hj => conj (three_429_limited j Hj) eq_refl)).
Defined.

(* ===================================================================== *)
(** ** URLs, paths and file contents of the GitHub adapter                 *)
(* ===================================================================== *)

Lemma string_app_assoc (x y z : string) : (x +:+ y) +:+ z = x +:+ (y +:+ z).
Proof.
  induction x as [|c x IH]; [reflexivity|].
  change (String c ((x +:+ y) +:+ z) = String c (x +:+ (y +:+ z))). f_equal. exact IH.
Qed.

Lemma string_app_length (a b : string) :
  String.length (a +:+ b) = (String.length a + String.length b)%nat.
Proof.
  induction a as [|c a IH]; [reflexivity|].
  change (String c a +:+ b) with (String c (a +:+ b)). cbn [String.length].
  rewrite IH. reflexivity.
Qed.

Lemma endsWith_app b suffix : endsWith (b +:+ suffix) suffix = true.
Proof.
  induction b as [|c b IH].
  - change ("" +:+ suffix) with suffix.
    destruct suffix; cbn [endsWith]; rewrite String.eqb_refl; reflexivity.
  - change (String c b +:+ suffix) with (String c (b +:+ suffix)).
    cbn [endsWith]. rewrite IH. apply orb_true_r.
Qed.

Lemma endsWith_trailing_slash b : endsWith (b +:+ "/api/v3/") "/api/v3" = false.
Proof.
  induction b as [|c b IH]; [reflexivity|].
  change (String c b +:+ "/api/v3/") with (String c (b +:+ "/api/v3/")).
  cbn [endsWith]. rewrite IH, orb_false_r.
  destruct (String.eqb _ _) eqn:E; [|reflexivity].
  apply String.eqb_eq in E. apply (f_equal String.length) in E.
  cbn [String.length] in E. rewrite string_app_length in E.
  cbn [String.length] in E. lia.
Qed.

(** X6: for a GitHub Enterprise base URL the API root "/api/v3" appears
    exactly once in the request URL: a base that already ends with it is
    used as it is, any other non-empty base gets it appended; so the base
    may be given with or without it. *)
Theorem buildApiUrl_suffix_once (path b : string) :
  _buildApiUrl path (VStr (b +:+ "/api/v3")) = inr (b +:+ "/api/v3/" +:+ path)
  /\ (b <> ""%string -> endsWith b "/api/v3" = false ->
      _buildApiUrl path (VStr b) = inr (b +:+ "/api/v3/" +:+ path)).
Proof.
  split.
  - unfold _buildApiUrl.
    assert (T : truthy (VStr (b +:+ "/api/v3")) = true).
    { cbn [truthy]. destruct b; reflexivity. }
    rewrite T, endsWith_app, string_app_assoc. reflexivity.
  - intros Hb He. unfold _buildApiUrl. rewrite He.
    assert (T : truthy (VStr b) = true).
    { cbn [truthy]. destruct (String.eqb_spec b ""); [contradiction | reflexivity]. }
    rewrite T, string_app_assoc. reflexivity.
Qed.

Lemma buildApiUrl_suffix_once_witness :
  _buildApiUrl "repos/o/r" (VStr "https://git.example.com/api/v3")
    = inr "https://git.example.com/api/v3/repos/o/r"%string
  /\ _buildApiUrl "repos/o/r" (VStr "https://git.example.com")
     = inr "https://git.example.com/api/v3/repos/o/r"%string.
Proof.
  destruct (buildApiUrl_suffix_once "repos/o/r" "https://git.example.com") as [H1 H2].
  split; [exact H1|]. apply H2; [discriminate | reflexivity].
Defined.

(** X7: a base URL that ends with "/api/v3/", with a slash after the API
    root, is not recognised as ending with the API root: the root is
    appended a second time. *)
Theorem buildApiUrl_trailing_slash (path b : string) :
  _buildApiUrl path (VStr (b +:+ "/api/v3/"))
  = inr (b +:+ "/api/v3//api/v3/" +:+ path).
Proof.
  unfold _buildApiUrl.
  assert (T : truthy (VStr (b +:+ "/api/v3/")) = true).
  { cbn [truthy]. destruct b; reflexivity. }
  rewrite T, endsWith_trailing_slash. rewrite !string_app_assoc. reflexivity.
Qed.

Lemma no_slash_lastIndexOf s : includes "/" s = false -> lastIndexOf "/" s = None.
Proof.
  induction s as [|c s IH]; [reflexivity|].
  cbn [includes lastIndexOf String.prefix]. intros H.
  apply orb_false_elim in H as [H1 H2]. rewrite (IH H2).
  destruct (ascii_dec "/" c) as [<-|Hne].
  - destruct s; discriminate H1.
  - destruct (Ascii.eqb_spec c "/"); [congruence | reflexivity].
Qed.

Lemma lastIndexOf_join dir name :
  includes "/" name = false ->
  lastIndexOf "/" (dir +:+ "/" +:+ name) = Some (String.length dir).
Proof.
  intros H. induction dir as [|c dir IH].
  - change ("" +:+ "/" +:+ name) with (String "/" name).
    cbn [lastIndexOf]. rewrite (no_slash_lastIndexOf _ H). reflexivity.
  - change (String c dir +:+ "/" +:+ name) with (String c (dir +:+ "/" +:+ name)).
    cbn [lastIndexOf String.length]. rewrite IH. reflexivity.
Qed.

Lemma string_substring_app dir rest : substring 0 (String.length dir) (dir +:+ rest) = dir.
Proof.
  induction dir as [|c dir IH].
  - destruct rest; reflexivity.
  - change (String c dir +:+ rest) with (String c (dir +:+ rest)).
    cbn [String.length substring]. rewrite IH. reflexivity.
Qed.

(** X8: the directory [getTreeSha] lists to find the entry of a path is
    the path without its last segment: [dir] for "dir/name", whatever
    slashes [dir] has, and the root of the repository (the empty path) for
    a path without a slash. *)
Theorem parentPath_of_join (dir name : string) :
  includes "/" name = false ->
  parentPath (dir +:+ "/" +:+ name) = dir /\ parentPath name = ""%string.
Proof.
  intros H. split.
  - unfold parentPath.
    rewrite (includes_app_r dir "/" ("/" +:+ name))
      by (destruct name; cbn [includes]; reflexivity).
    rewrite lastIndexOf_join by exact H. apply string_substring_app.
  - unfold parentPath. rewrite H. reflexivity.
Qed.

Lemma parentPath_of_join_witness :
  parentPath "mermaid/flows/login" = "mermaid/flows"%string
  /\ parentPath "login" = ""%string.
Proof. exact (parentPath_of_join "mermaid/flows" "login" eq_refl). Defined.

(** X9: a 404 answer to the listing makes [_githubFetch] reject at once
    with an error whose text carries "404", and [getTreeSha] turns that
    rejection into the result [null]: a directory that does not exist is
    reported as absent, not as a failure.  An error whose text does not
    carry "404" is passed on. *)
Theorem getTreeSha_absent_on_404 (native : error -> string) (path : string)
    (net : nat -> option response) (retries : nat) (backoff : Z)
    (r : response) (m : string) :
  (0 < retries)%nat ->
  net 0%nat = Some r -> status r = 404 -> error_message r = inr m ->
  result (_githubFetch net retries backoff)
    = Rejected (Error ("[GitHub API Error] 404: " +:+ m))
  /\ getTreeSha native path (inl (Error ("[GitHub API Error] 404: " +:+ m)))
     = Fulfilled VNull
  /\ (forall e, includes "404" (message_of native e) = false ->
                getTreeSha native path (inl e) = Rejected e).
Proof.
  intros Hr Hn Hs Hm. split; [|split].
  - unfold _githubFetch. destruct retries as [|n]; [lia|].
    cbn [fetch_loop]. rewrite Hn. unfold ok. rewrite Hs. cbn. rewrite Hm.
    cbn. unfold api_error. rewrite Hs. reflexivity.
  - unfold getTreeSha. cbn [message_of].
    change ("[GitHub API Error] 404: " +:+ m)
      with ("[GitHub API Error] " +:+ "404" +:+ (": " +:+ m)).
    rewrite includes_mid. reflexivity.
  - intros e He. unfold getTreeSha. rewrite He. reflexivity.
Qed.

Lemma getTreeSha_absent_on_404_witness :
  result (_githubFetch (fun _ => Some not_found) DEFAULT_RETRIES DEFAULT_BACKOFF)
    = Rejected (Error "[GitHub API Error] 404: Not Found")
  /\ getTreeSha (fun _ => ""%string) "mermaid"
       (inl (Error "[GitHub API Error] 404: Not Found")) = Fulfilled VNull.
Proof.
  destruct (getTreeSha_absent_on_404 (fun _ => ""%string) "mermaid"
              (fun _ => Some not_found) DEFAULT_RETRIES DEFAULT_BACKOFF not_found
              "Not Found" ltac:(unfold DEFAULT_RETRIES; lia) eq_refl eq_refl eq_refl)
    as (H1 & H2 & _).
  split; [exact H1 | exact H2].
Defined.

Lemma filter_idem {A : Type} (P : A -> Prop) `{forall x, Decision (P x)} (l : list A) :
  filter P (filter P l) = filter P l.
Proof.
  induction l as [|x l IH]; [reflexivity|].
  rewrite filter_cons. destruct (decide (P x)) as [Hp|Hp]; [|exact IH].
  rewrite filter_cons. destruct (decide (P x)); [|contradiction]. rewrite IH. reflexivity.
Qed.

Lemma atob_ignores_whitespace s :
  atob (filter (fun c => is_ascii_whitespace c = false) s) = atob s.
Proof. unfold atob. rewrite filter_idem. reflexivity. Qed.

(** X10: [getContents] decodes base64 text as the provider sends it, with
    line breaks or other ASCII whitespace anywhere in it: if the text
    without its whitespace is the base64 encoding of some bytes, the
    content returned is those bytes, one code unit each. *)
Theorem getContents_ignores_line_breaks (response_content : units) (bytes : list Z) :
  Forall byte bytes ->
  filter (fun c => is_ascii_whitespace c = false) response_content = b64_encode bytes ->
  getContents_content response_content = inr bytes.
Proof.
  intros Hb Hf. unfold getContents_content.
  rewrite <- atob_ignores_whitespace, Hf. apply atob_b64_encode, Hb.
Qed.

Lemma getContents_ignores_line_breaks_witness :
  getContents_content [97; 71; 86; 115; 10; 98; 71; 56; 61; 10]
  = inr [104; 101; 108; 108; 111].
Proof.
  apply (getContents_ignores_line_breaks _ [104; 101; 108; 108; 111]).
  - repeat (apply Forall_cons_2; [unfold byte; lia|]). apply Forall_nil_2.
  - vm_compute. reflexivity.
Defined.

(* ===================================================================== *)
(** ** The two conversions, record by record                               *)
(* ===================================================================== *)

Lemma not_in_keys k ks : k ∉ ks -> existsb (String.eqb k) ks = false.
Proof.
  induction ks as [|k' ks IH]; intros H; [reflexivity|].
  apply not_elem_of_cons in H as [Hne H]. cbn [existsb].
  destruct (String.eqb_spec k k'); [contradiction|]. cbn. apply IH, H.
Qed.

Lemma lookup_result {A : Type} (f : A -> option value) (x y : error + A) :
  x = y -> match x with inr m => f m | _ => None end
           = match y with inr m => f m | _ => None end.
Proof. intros ->. reflexivity. Qed.

(** X11: converting to linked data is idempotent on every record whose
    ['@context'] is absent or truthy: what [toDiagramLD] or [toProjectLD]
    returns is returned unchanged when it is converted again. *)
Theorem conversion_is_idempotent (d ld : obj) :
  d !! "@context" = None \/ truthy (get d "@context") = true ->
  (toDiagramLD d = inr ld -> toDiagramLD ld = inr ld)
  /\ (toProjectLD d = inr ld -> toProjectLD ld = inr ld).
Proof.
  intros Hc. split.
  - unfold toDiagramLD at 1. destruct (truthy (get d "@context")) eqn:Et.
    + intros [= <-]. unfold toDiagramLD. rewrite Et. reflexivity.
    + destruct Hc as [Hc|Hc]; [|congruence].
      destruct (iso_or_undefined (get d "createdAt")) as [e|sc]; [discriminate|].
      destruct (iso_or_undefined (get d "updatedAt")) as [e|su]; [discriminate|].
      cbn [JS.bind]. intros Heq.
      assert (Hl : ld !! "@context" = Some (VStr CONTEXT)).
      { apply (lookup_result (fun m : obj => m !! "@context")) in Heq.
        cbn beta iota in Heq. rewrite <- Heq.
        destruct (truthy (get d "id")); lookups; cbn; rewrite Hc; reflexivity. }
      unfold toDiagramLD, get. rewrite Hl. reflexivity.
  - unfold toProjectLD at 1. destruct (truthy (get d "@context")) eqn:Et.
    + intros [= <-]. unfold toProjectLD. rewrite Et. reflexivity.
    + destruct Hc as [Hc|Hc]; [|congruence].
      destruct (iso_or_undefined (get d "createdAt")) as [e|sc]; [discriminate|].
      destruct (iso_or_undefined (get d "updatedAt")) as [e|su]; [discriminate|].
      cbn [JS.bind]. intros Heq.
      assert (Hl : ld !! "@context" = Some (VStr CONTEXT)).
      { apply (lookup_result (fun m : obj => m !! "@context")) in Heq.
        cbn beta iota in Heq. rewrite <- Heq.
        destruct (truthy (get d "id")); lookups; cbn; rewrite Hc; reflexivity. }
      unfold toProjectLD, get. rewrite Hl. reflexivity.
Qed.

Lemma conversion_is_idempotent_witness :
  exists ld, toDiagramLD sample_diagram = inr ld /\ toDiagramLD ld = inr ld.
Proof.
  destruct (toDiagramLD sample_diagram) as [e|ld] eqn:E; [discriminate E|].
  exists ld. split; [reflexivity|].
  exact (proj1 (conversion_is_idempotent sample_diagram ld (or_introl eq_refl)) E).
Defined.

(** X12: both conversions pass on every property they do not name: a
    property of the input other than the simple fields (for [toDiagramLD]
    and [toProjectLD]) or other than the linked-data fields (for
    [normalizeDiagram] and [normalizeProject]) is in the result with the
    same value, also where the conversion computes a property of that name
    itself. *)
Theorem other_fields_pass_through (d r : obj) (k : string) (v : value) :
  d !! k = Some v ->
  (k ∉ diagram_simple_keys -> toDiagramLD d = inr r -> r !! k = Some v)
  /\ (k ∉ project_simple_keys -> toProjectLD d = inr r -> r !! k = Some v)
  /\ (k ∉ diagram_ld_keys -> normalizeDiagram (VObj d) = inr (VObj r) -> r !! k = Some v)
  /\ (k ∉ project_ld_keys -> normalizeProject (VObj d) = inr (VObj r) -> r !! k = Some v).
Proof.
  intros Hk. split; [|split; [|split]]; intros Hn.
  - assert (Hid : k <> "id"%string).
    { intros ->. apply Hn. unfold diagram_simple_keys. apply list_elem_of_here. }
    unfold toDiagramLD. destruct (truthy (get d "@context")); [intros [= <-]; exact Hk|].
    destruct (iso_or_undefined (get d "createdAt")) as [e|sc]; [discriminate|].
    destruct (iso_or_undefined (get d "updatedAt")) as [e|su]; [discriminate|].
    cbn [JS.bind]. intros Heq.
    apply (lookup_result (fun m : obj => m !! k)) in Heq. cbn beta iota in Heq.
    rewrite <- Heq.
    destruct (truthy (get d "id")); rewrite ?lookup_insert_ne by congruence;
      rewrite lookup_union_obj, lookup_without, (not_in_keys _ _ Hn), Hk; reflexivity.
  - assert (Hid : k <> "id"%string).
    { intros ->. apply Hn. unfold project_simple_keys. apply list_elem_of_here. }
    unfold toProjectLD. destruct (truthy (get d "@context")); [intros [= <-]; exact Hk|].
    destruct (iso_or_undefined (get d "createdAt")) as [e|sc]; [discriminate|].
    destruct (iso_or_undefined (get d "updatedAt")) as [e|su]; [discriminate|].
    cbn [JS.bind]. intros Heq.
    apply (lookup_result (fun m : obj => m !! k)) in Heq. cbn beta iota in Heq.
    rewrite <- Heq.
    destruct (truthy (get d "id")); rewrite ?lookup_insert_ne by congruence;
      rewrite lookup_union_obj, lookup_without, (not_in_keys _ _ Hn), Hk; reflexivity.
  - unfold normalizeDiagram.
    destruct (truthy (get d "@context") && is_string DIAGRAM_TYPE (get d "@type"));
      [|intros [= <-]; exact Hk].
    destruct (parse_urn _) as [e|i]; cbn [JS.bind]; [discriminate|].
    destruct (get_prop _ _) as [e|m]; cbn [JS.bind]; [discriminate|].
    destruct (parse_urn _) as [e|p]; cbn [JS.bind]; [discriminate|].
    intros Heq.
    apply (lookup_result (fun m : value => match m with VObj m => m !! k | _ => None end)) in Heq.
    cbn beta iota in Heq. rewrite <- Heq.
    rewrite lookup_union_obj, lookup_without, (not_in_keys _ _ Hn), Hk; reflexivity.
  - unfold normalizeProject.
    destruct (truthy (get d "@context") && is_string PROJECT_TYPE (get d "@type"));
      [|intros [= <-]; exact Hk].
    destruct (parse_urn _) as [e|i]; cbn [JS.bind]; [discriminate|].
    intros Heq.
    apply (lookup_result (fun m : value => match m with VObj m => m !! k | _ => None end)) in Heq.
    cbn beta iota in Heq. rewrite <- Heq.
    rewrite lookup_union_obj, lookup_without, (not_in_keys _ _ Hn), Hk; reflexivity.
Qed.

Lemma other_fields_pass_through_witness :
  exists ld, toDiagramLD dated_diagram = inr ld /\ ld !! "pinned" = Some (VBool true).
Proof.
  destruct (toDiagramLD dated_diagram) as [e|ld] eqn:E; [discriminate E|].
  exists ld. split; [reflexivity|].
  apply (proj1 (other_fields_pass_through dated_diagram ld "pinned" (VBool true) eq_refl));
    [|exact E].
  unfold diagram_simple_keys. intros H.
  repeat (apply elem_of_cons in H as [H|H]; [discriminate H|]).
  apply elem_of_nil in H. exact H.
Defined.

Lemma iso_or_undefined_fails v e :
  iso_or_undefined v = inl e <-> e = RangeError /\ bad_timestamp v.
Proof.
  unfold iso_or_undefined, bad_timestamp.
  destruct (truthy v); [|split; [discriminate | intros (_ & [=] & _)]].
  destruct (new_Date v) as [t|]; cbn [toISOString JS.bind].
  - split; [discriminate | intros (_ & _ & [=])].
  - split; [intros [= <-]; auto | intros (-> & _); reflexivity].
Qed.

Lemma conversion_fails_iff (created updated : value) {A : Type}
    (k : value -> value -> error + A) (e : error) :
  (forall sc su, exists a, k sc su = inr a) ->
  (let* sc := iso_or_undefined created in
   let* su := iso_or_undefined updated in k sc su) = inl e
  <-> e = RangeError /\ (bad_timestamp created \/ bad_timestamp updated).
Proof.
  intros Hk.
  destruct (iso_or_undefined created) as [ec|sc] eqn:Ec; cbn [JS.bind].
  - apply iso_or_undefined_fails in Ec as [-> Hb].
    split; [intros [= <-]; auto | intros (-> & _); reflexivity].
  - destruct (iso_or_undefined updated) as [eu|su] eqn:Eu; cbn [JS.bind].
    + apply iso_or_undefined_fails in Eu as [-> Hb].
      split; [intros [= <-]; auto | intros (-> & _); reflexivity].
    + destruct (Hk sc su) as (a & ->). split; [discriminate|].
      intros (_ & [Hb|Hb]).
      * assert (H : iso_or_undefined created = inl RangeError)
          by (apply iso_or_undefined_fails; auto).
        congruence.
      * assert (H : iso_or_undefined updated = inl RangeError)
          by (apply iso_or_undefined_fails; auto).
        congruence.
Qed.

(** X13: on the records on which the engines agree, [toDiagramLD] and
    [toProjectLD] fail on one kind of record only: one that is not linked
    data yet and has a [createdAt] or [updatedAt] that is truthy and makes
    an invalid Date; the error is then the RangeError of [toISOString]. *)
Theorem conversion_fails_on_bad_timestamps_only (d : obj) (e : error) :
  portable_record d ->
  (toDiagramLD d = inl e <->
     truthy (get d "@context") = false /\ e = RangeError
     /\ (bad_timestamp (get d "createdAt") \/ bad_timestamp (get d "updatedAt")))
  /\ (toProjectLD d = inl e <->
        truthy (get d "@context") = false /\ e = RangeError
        /\ (bad_timestamp (get d "createdAt") \/ bad_timestamp (get d "updatedAt"))).
Proof.
  intros _. split.
  - unfold toDiagramLD. destruct (truthy (get d "@context")).
    { split; [discriminate | intros ([=] & _)]. }
    rewrite conversion_fails_iff by eauto. tauto.
  - unfold toProjectLD. destruct (truthy (get d "@context")).
    { split; [discriminate | intros ([=] & _)]. }
    rewrite conversion_fails_iff by eauto. tauto.
Qed.

Lemma conversion_fails_on_bad_timestamps_only_witness :
  toDiagramLD bad_timestamp_diagram = inl RangeError
  /\ forall e, toDiagramLD dated_diagram <> inl e.
Proof.
  split.
  - apply (proj1 (conversion_fails_on_bad_timestamps_only bad_timestamp_diagram
                    RangeError ltac:(repeat split))).
    split; [reflexivity|]. split; [reflexivity|]. left. split; reflexivity.
  - intros e H.
    apply (proj1 (conversion_fails_on_bad_timestamps_only dated_diagram e
                    ltac:(repeat split))) in H.
    destruct H as (_ & _ & [(_ & H)|(_ & H)]); discriminate H.
Defined.













(* ===================================================================== *)
(** ** What the record store keeps true                                    *)
(* ===================================================================== *)

Lemma to_key_of_key k : to_key (of_key k) = Some k.
Proof. destruct k; reflexivity. Qed.

Lemma to_key_inv v k : to_key v = Some k -> v = of_key k.
Proof.
  destruct v as [| | | | | |[t|]|]; cbn; intros [= <-]; reflexivity.
Qed.

Lemma store_set_store_ne n n' st w : n <> n' -> store n' (set_store n st w) = store n' w.
Proof. destruct n, n'; try congruence; reflexivity. Qed.

(** What a successful [put] did. *)
Lemma put_inr unique st item k st' :
  put unique st item = inr (k, st') ->
  exists stored,
    records st' = <[k := stored]> (records st)
    /\ stored !! "id" = Some (of_key k)
    /\ (forall p, p <> "id"%string -> stored !! p = item !! p)
    /\ violates unique (records st) k stored = false
    /\ generator st <= generator st'
    /\ (forall n, k = KNum n -> n < generator st' \/ max_generated < generator st')
    /\ (extract_key item = NoKey -> k = KNum (generator st) /\ generator st <= max_generated
          /\ stored = <["id" := VNum (generator st)]> item)
    /\ (extract_key item = HasKey k -> stored = item).
Proof.
  unfold put. destruct (extract_key item) as [| |k0] eqn:E; cbn [JS.bind].
  - destruct (Z.ltb_spec max_generated (generator st)); cbn [JS.bind]; [discriminate|].
    destruct (violates _ _ _ _) eqn:V; [discriminate|]. intros [= <- <-].
    eexists. cbn [records generator]. split; [reflexivity|].
    split; [apply lookup_insert_eq|].
    split; [intros p Hp; apply lookup_insert_ne; congruence|].
    split; [exact V|]. split; [lia|].
    split; [intros n [= <-]; left; lia|].
    split; [intros _; repeat split; [lia]|discriminate].
  - discriminate.
  - destruct (violates _ _ _ _) eqn:V; [discriminate|]. intros [= <- <-].
    exists item. cbn [records generator]. split; [reflexivity|].
    split.
    { unfold extract_key in E. destruct (item !! "id") as [v|]; [|discriminate].
      destruct v as [| | | | | |[t|]|]; cbn in E; try discriminate; injection E as <-; reflexivity. }
    split; [reflexivity|]. split; [exact V|].
    assert (B : generator st <= bump (generator st) k0).
    { unfold bump. destruct k0; try lia. destruct (Z.leb_spec (generator st) (Z.min n max_generated)); lia. }
    split; [exact B|].
    split.
    { intros n ->. unfold bump.
      destruct (Z.leb_spec (generator st) (Z.min n max_generated)); lia. }
    split; [discriminate|]. reflexivity.
Qed.

Lemma violates_false_inv paths (rs : gmap key obj) k item :
  violates (Some paths) rs k item = false ->
  forall k' r' ik, rs !! k' = Some r' -> k' <> k ->
    index_key paths r' = Some ik -> index_key paths item <> Some ik.
Proof.
  unfold violates. intros H k' r' ik Hl Hne Hr Hi. rewrite Hi in H.
  assert (E : existsb (fun kr : key * obj => bool_decide (kr.1 <> k)
                         && bool_decide (index_key paths kr.2 = Some ik))
                      (map_to_list rs) = true); [|congruence].
  apply existsb_exists. exists (k', r'). split.
  - apply list_elem_of_In, elem_of_map_to_list, Hl.
  - cbn. rewrite !bool_decide_eq_true_2 by assumption. reflexivity.
Qed.

Lemma store_inv_empty unique : store_inv unique empty_store.
Proof.
  split; [|split].
  - intros k r H. cbn in H. rewrite lookup_empty in H. discriminate.
  - split; [cbn; lia|]. intros n r H. cbn in H. rewrite lookup_empty in H. discriminate.
  - intros paths _ k1 k2 r1 r2 ik H. cbn in H. rewrite lookup_empty in H. discriminate.
Qed.

Lemma store_inv_put unique st item k st' :
  store_inv unique st -> put unique st item = inr (k, st') -> store_inv unique st'.
Proof.
  intros (HK & (HG1 & HG2) & HU) Hp.
  destruct (put_inr _ _ _ _ _ Hp) as (stored & Hr & Hid & _ & Hv & Hg & Hn & _).
  split; [|split].
  - intros k0 r. rewrite Hr. destruct (decide (k0 = k)) as [->|Hne].
    + rewrite lookup_insert_eq. intros [= <-]. exact Hid.
    + rewrite lookup_insert_ne by congruence. apply HK.
  - split; [lia|]. intros n r. rewrite Hr.
    destruct (decide (KNum n = k)) as [<-|Hne].
    + intros _. apply Hn. reflexivity.
    + rewrite lookup_insert_ne by congruence. intros H.
      destruct (HG2 n r H); [left | right]; lia.
  - intros paths -> k1 k2 r1 r2 ik. rewrite Hr.
    pose proof (violates_false_inv paths _ _ _ Hv) as Hfree.
    destruct (decide (k1 = k)) as [->|N1], (decide (k2 = k)) as [->|N2];
      rewrite ?lookup_insert_eq, ?lookup_insert_ne by congruence.
    + reflexivity.
    + intros [= <-] H2 I1 I2. exfalso. exact (Hfree k2 r2 ik H2 N2 I2 I1).
    + intros H1 [= <-] I1 I2. exfalso. exact (Hfree k1 r1 ik H1 N1 I1 I2).
    + apply (HU paths eq_refl).
Qed.

Lemma store_inv_shrunk unique st st' :
  store_inv unique st -> shrunk st st' -> store_inv unique st'.
Proof.
  intros (HK & (HG1 & HG2) & HU) (Hg & Hs). split; [|split].
  - intros k r H. apply HK, Hs, H.
  - unfold generator_ahead. rewrite Hg. split; [exact HG1|]. intros n r H. apply (HG2 n r), Hs, H.
  - intros paths Hp k1 k2 r1 r2 ik H1 H2. apply (HU paths Hp k1 k2 r1 r2 ik); apply Hs; assumption.
Qed.

Lemma world_inv_set_store n st w :
  world_inv w -> store_inv (unique_index n) st -> world_inv (set_store n st w).
Proof.
  intros Hw Hst n'.
  destruct n, n'; try exact Hst; exact (Hw _).
Qed.

Lemma world_inv_put n item w : world_inv w -> world_inv (_put n item w).2.
Proof.
  intros Hw. unfold _put. destruct (negb (db w)); [exact Hw|].
  destruct (put _ _ _) as [e|[k st]] eqn:E; [exact Hw|]. cbn [snd].
  apply world_inv_set_store; [exact Hw|].
  exact (store_inv_put _ _ _ _ _ (Hw n) E).
Qed.

Lemma world_inv_delete n k w : world_inv w -> world_inv (_delete n k w).2.
Proof.
  intros Hw. unfold _delete. destruct (negb (db w)); [exact Hw|].
  destruct (to_key k) as [k'|]; [|exact Hw]. cbn [snd].
  apply world_inv_set_store; [exact Hw|].
  apply (store_inv_shrunk _ (store n w)); [apply Hw|].
  split; [reflexivity|]. cbn [records]. intros k0 r H.
  apply lookup_delete_Some in H as [_ H]. exact H.
Qed.

Lemma world_inv_cursor P w : world_inv w -> world_inv (deleteDiagramsByProjectId P w).2.
Proof.
  intros Hw. unfold deleteDiagramsByProjectId. destruct (negb (db w)); [exact Hw|].
  destruct (to_key P) as [k'|]; [|exact Hw]. cbn [snd].
  apply (world_inv_set_store Diagrams); [exact Hw|].
  apply (store_inv_shrunk _ (diagrams w)); [apply (Hw Diagrams)|].
  split; [reflexivity|]. cbn [records]. intros k0 r H.
  apply cursor_removes_matches in H as [H _]. exact H.
Qed.

Lemma world_inv_init w : world_inv w -> world_inv (init w).2.
Proof. intros Hw n. destruct n; exact (Hw _). Qed.

(** The second write of [addDiagram] and [addProject] cannot fail once the
    first one went through. *)
Lemma second_put_succeeds n (urn : value -> string) item k w w' :
  "id" ∉ default [] (unique_index n) -> "@id" ∉ default [] (unique_index n) ->
  _put n item w = (Fulfilled k, w') ->
  exists w'', _put n (<["@id" := VStr (urn (of_key k))]> (<["id" := of_key k]> item)) w'
              = (Fulfilled k, w'').
Proof.
  intros Hid Hat. unfold _put at 1.
  destruct (db w) eqn:Hdb; cbn [negb]; [|discriminate].
  destruct (put _ _ _) as [e|[k0 st]] eqn:E; [discriminate|]. intros [= -> <-].
  destruct (put_inr _ _ _ _ _ E) as (stored & Hr & Hsid & Hsame & Hv & _).
  unfold _put. rewrite db_set_store, Hdb, store_set_store. cbn [negb].
  unfold put.
  assert (He : extract_key (<["@id" := VStr (urn (of_key k))]> (<["id" := of_key k]> item))
               = HasKey k).
  { unfold extract_key. rewrite lookup_insert_ne by discriminate. rewrite lookup_insert_eq.
    rewrite to_key_of_key. destruct k; reflexivity. }
  rewrite He. cbn [JS.bind].
  assert (V : violates (unique_index n) (records st) k
                (<["@id" := VStr (urn (of_key k))]> (<["id" := of_key k]> item)) = false).
  { destruct (unique_index n) as [paths|] eqn:U; [|reflexivity].
    cbn [default] in Hid, Hat.
    apply violates_false. intros k' r' ik Hl Hne Hi.
    rewrite Hr, lookup_insert_ne in Hl by congruence.
    rewrite !index_key_insert by assumption.
    assert (Hs : index_key paths stored = index_key paths item).
    { unfold index_key. clear -Hsame Hid.
      induction paths as [|p paths IH]; [reflexivity|].
      apply not_elem_of_cons in Hid as [Hp Hid].
      cbn [mapM]. rewrite Hsame by congruence. rewrite IH by exact Hid. reflexivity. }
    rewrite <- Hs. exact (violates_false_inv paths _ _ _ Hv k' r' ik Hl Hne Hi). }
  rewrite V. eexists. reflexivity.
Qed.

Lemma id_not_indexed n :
  ("id" ∉ default [] (unique_index n)) /\ ("@id" ∉ default [] (unique_index n)).
Proof.
  destruct n; cbn; split; intros H;
    repeat (apply elem_of_cons in H as [H|H]; [discriminate H|]);
    apply elem_of_nil in H; exact H.
Qed.

(** Reads leave the database as it is. *)
Lemma _getAll_reads n w : (_getAll n w).2 = w.
Proof. unfold _getAll. destruct (negb (db w)); reflexivity. Qed.

Lemma getAllProjects_reads w : (getAllProjects w).2 = w.
Proof.
  unfold getAllProjects, await_, lift, _getAll. destruct (negb (db w)); [reflexivity|].
  destruct (map_throw _ _); reflexivity.
Qed.

Lemma _get_reads n k w : (_get n k w).2 = w.
Proof.
  unfold _get. destruct (negb (db w)); [reflexivity|].
  destruct (to_key k); [|reflexivity]. destruct (normalize_for _ _); reflexivity.
Qed.

Lemma getDiagramsByProjectId_reads P w : (getDiagramsByProjectId P w).2 = w.
Proof.
  unfold getDiagramsByProjectId. destruct (negb (db w)); [reflexivity|].
  destruct (index_getAll _ _); [reflexivity|]. destruct (map_throw _ _); reflexivity.
Qed.

Lemma world_inv_perform c w : world_inv w -> world_inv (perform c w).2.
Proof.
  intros Hw.
  destruct c; cbn [perform ended snd];
    unfold getDiagram, getProject, deleteDiagram, deleteProject,
      getSyncQueueItems, addSyncQueueItem, deleteSyncQueueItem;
    rewrite ?_getAll_reads, ?getAllProjects_reads, ?_get_reads,
      ?getDiagramsByProjectId_reads;
    try exact Hw;
    try (apply world_inv_put, Hw); try (apply world_inv_delete, Hw);
    try (apply world_inv_cursor, Hw).
  - unfold addDiagram, await_, lift.
    destruct (toDiagramLD _) as [e|ld]; [exact Hw|].
    pose proof (world_inv_put Diagrams ld w Hw) as H1.
    destruct (_put Diagrams ld w) as [[k| | |] w1]; cbn [snd] in *; try exact H1.
    apply world_inv_put, H1.
  - unfold updateDiagram, sync. destruct (toDiagramLD _); [exact Hw|].
    apply world_inv_put, Hw.
  - unfold addProject, await_, lift.
    destruct (toProjectLD _) as [e|ld]; [exact Hw|].
    pose proof (world_inv_put Projects ld w Hw) as H1.
    destruct (_put Projects ld w) as [[k| | |] w1]; cbn [snd] in *; try exact H1.
    apply world_inv_put, H1.
  - unfold updateProject, sync. destruct (toProjectLD _); [exact Hw|].
    apply world_inv_put, Hw.
Qed.

Lemma world_inv_fresh : world_inv fresh.
Proof. intros n. destruct n; apply store_inv_empty. Qed.

Lemma reachable_world_inv w : reachable w -> world_inv w.
Proof.
  induction 1 as [|w _ IH|c w _ IH].
  - exact world_inv_fresh.
  - apply world_inv_init, IH.
  - apply world_inv_perform, IH.
Qed.

Lemma reachable_stocked : reachable stocked.
Proof.
  unfold stocked, opened.
  apply reachable_call, reachable_call, reachable_init, reachable_fresh.
Qed.


Lemma stored_at (m : gmap key obj) (k : key) (r : obj) :
  VObj <$> m !! k = Some (VObj r) -> m !! k = Some r.
Proof. destruct (m !! k) as [x|]; cbn; [intros [= ->]; reflexivity | discriminate]. Qed.

Lemma only_key (m : gmap key obj) (k0 : key) :
  forallb (fun kr : key * obj => bool_decide (kr.1 = k0)) (map_to_list m) = true ->
  forall k r, k <> k0 -> m !! k = Some r -> False.
Proof.
  intros H k r Hne Hl. rewrite forallb_forall in H.
  apply elem_of_map_to_list, list_elem_of_In in Hl.
  specialize (H _ Hl). cbn in H. apply bool_decide_eq_true_1 in H. contradiction.
Qed.

Lemma stocked_only_diagram k r :
  k <> KNum 1 -> records (diagrams stocked) !! k = Some r -> False.
Proof. apply only_key. vm_compute. reflexivity. Qed.

(** X15: in every state the operations lead to, the unique indexes hold:
    no two stored diagrams have the same pair of [projectId] and
    [_name_for_index], and no two stored projects the same
    [_name_for_index]. *)
Theorem reachable_index_unique (w : world) :
  reachable w ->
  index_unique DIAGRAM_INDEX (diagrams w) /\ index_unique PROJECT_INDEX (projects w).
Proof.
  intros H. apply reachable_world_inv in H. split.
  - destruct (H Diagrams) as (_ & _ & HU). exact (HU _ eq_refl).
  - destruct (H Projects) as (_ & _ & HU). exact (HU _ eq_refl).
Qed.

Lemma reachable_index_unique_witness :
  index_unique DIAGRAM_INDEX (diagrams stocked)
  /\ index_unique PROJECT_INDEX (projects stocked).
Proof. exact (reachable_index_unique stocked reachable_stocked). Defined.

(** X16: in every state the operations lead to, the key generator of each
    store is at least 1 and, as long as it has not run out, past every
    numeric key in use: the next generated id is not the id of a stored
    record. *)
Theorem generated_keys_are_fresh (w : world) (n : store_name) :
  reachable w ->
  1 <= generator (store n w)
  /\ (generator (store n w) <= max_generated ->
      store_ok (store n w) /\ records (store n w) !! KNum (generator (store n w)) = None).
Proof.
  intros H. apply reachable_world_inv in H.
  destruct (H n) as (_ & (HG1 & HG2) & _). split; [exact HG1|].
  intros Hmax.
  assert (Hok : store_ok (store n w)).
  { intros m r Hl. destruct (HG2 m r Hl); lia. }
  split; [exact Hok | apply store_ok_fresh, Hok].
Qed.

Lemma generated_keys_are_fresh_witness :
  1 <= generator (store Diagrams stocked)
  /\ (generator (store Diagrams stocked) <= max_generated ->
      store_ok (store Diagrams stocked)
      /\ records (store Diagrams stocked) !! KNum (generator (store Diagrams stocked)) = None).
Proof. exact (generated_keys_are_fresh stocked Diagrams reachable_stocked). Defined.

Lemma lookup_without_other ks (o : obj) k : k ∉ ks -> without ks o !! k = o !! k.
Proof.
  unfold without. induction ks as [|k' ks IH]; intros H; [reflexivity|].
  apply not_elem_of_cons in H as [Hne H]. cbn [foldr].
  rewrite lookup_delete_ne by congruence. apply IH, H.
Qed.

Lemma normalize_for_keeps_id n (r o : obj) v :
  r !! "id" = Some v -> normalize_for n (VObj r) = inr (VObj o) -> o !! "id" = Some v.
Proof.
  intros Hid. destruct n; cbn [normalize_for].
  - unfold normalizeProject.
    destruct (truthy (get r "@context") && is_string PROJECT_TYPE (get r "@type")).
    + destruct (parse_urn _) as [e|i]; cbn [JS.bind]; [discriminate|].
      intros Heq.
      apply (f_equal (fun x : error + value =>
                        match x with inr (VObj m) => m !! "id" | _ => None end)) in Heq.
      cbn beta iota in Heq. rewrite <- Heq. apply lookup_union_Some_l.
      rewrite lookup_without_other; [exact Hid|].
      unfold project_ld_keys. intros H.
      repeat (apply elem_of_cons in H as [H|H]; [discriminate H|]).
      apply elem_of_nil in H; exact H.
    + intros [= <-]. exact Hid.
  - unfold normalizeDiagram.
    destruct (truthy (get r "@context") && is_string DIAGRAM_TYPE (get r "@type")).
    + destruct (parse_urn _) as [e|i]; cbn [JS.bind]; [discriminate|].
      destruct (get_prop _ _) as [e|m]; cbn [JS.bind]; [discriminate|].
      destruct (parse_urn _) as [e|p]; cbn [JS.bind]; [discriminate|].
      intros Heq.
      apply (f_equal (fun x : error + value =>
                        match x with inr (VObj m) => m !! "id" | _ => None end)) in Heq.
      cbn beta iota in Heq. rewrite <- Heq. apply lookup_union_Some_l.
      rewrite lookup_without_other; [exact Hid|].
      unfold diagram_ld_keys. intros H.
      repeat (apply elem_of_cons in H as [H|H]; [discriminate H|]).
      apply elem_of_nil in H; exact H.
    + intros [= <-]. exact Hid.
  - intros [= <-]. exact Hid.
Qed.

(** X17: in every state the operations lead to, a read by id that returns
    a record returns one whose [id] is the id asked for, whatever the
    ['@id'] of the stored record says; and the read changes nothing. *)
Theorem read_returns_requested_id (w w' : world) (n : store_name) (v : value) (o : obj) :
  reachable w ->
  _get n v w = (Fulfilled (VObj o), w') ->
  o !! "id" = Some v /\ w' = w.
Proof.
  intros H. apply reachable_world_inv in H. destruct (H n) as (HK & _).
  unfold _get. destruct (negb (db w)); [discriminate|].
  destruct (to_key v) as [k|] eqn:Ek; [|discriminate].
  apply to_key_inv in Ek. subst v.
  destruct (records (store n w) !! k) as [r|] eqn:El.
  - destruct (normalize_for n (VObj r)) as [e|res] eqn:En; [discriminate|].
    intros [= -> <-]. split; [|reflexivity].
    exact (normalize_for_keeps_id n r o _ (HK k r El) En).
  - destruct n; cbn; discriminate.
Qed.

Lemma read_returns_requested_id_witness :
  _get Diagrams (VNum 1) stocked = (Fulfilled (VObj stocked_diagram), stocked)
  /\ stocked_diagram !! "id" = Some (VNum 1).
Proof.
  assert (H : _get Diagrams (VNum 1) stocked = (Fulfilled (VObj stocked_diagram), stocked))
    by (vm_compute; reflexivity).
  split; [exact H|].
  exact (proj1 (read_returns_requested_id stocked stocked Diagrams (VNum 1)
                  stocked_diagram reachable_stocked H)).
Defined.

Lemma _put_outcome n item w :
  (exists k w', _put n item w = (Fulfilled k, w'))
  \/ (exists e, _put n item w = (Rejected e, w)).
Proof.
  unfold _put. destruct (negb (db w)); [right; eauto|].
  destruct (put _ _ _) as [e|[k st]]; [right | left]; eauto.
Qed.

(** X18: an operation that runs in one transaction (every operation but
    [addDiagram] and [addProject]) and does not fulfil leaves the database
    as it was. *)
Theorem failed_call_changes_nothing (c : call) (w : world) :
  one_transaction c -> portable_call c ->
  (perform c w).1 <> Fulfilled tt -> (perform c w).2 = w.
Proof.
  intros Hone _.
  destruct c; try contradiction; cbn [perform ended fst snd];
    unfold getDiagram, getProject, deleteDiagram, deleteProject,
      getSyncQueueItems, addSyncQueueItem, deleteSyncQueueItem;
    rewrite ?_getAll_reads, ?getAllProjects_reads, ?_get_reads,
      ?getDiagramsByProjectId_reads; try reflexivity.
  - destruct (_put_outcome storeName item w) as [(k & w' & ->)|(e & ->)];
      cbn; [congruence | reflexivity].
  - unfold _delete. destruct (negb (db w)); [reflexivity|].
    destruct (to_key k); cbn; [congruence | reflexivity].
  - unfold updateDiagram, sync. destruct (toDiagramLD _) as [e|ld]; [reflexivity|].
    destruct (_put_outcome Diagrams ld w) as [(k & w' & ->)|(e & ->)];
      cbn; [congruence | reflexivity].
  - unfold _delete. destruct (negb (db w)); [reflexivity|].
    destruct (to_key diagramId); cbn; [congruence | reflexivity].
  - unfold updateProject, sync. destruct (toProjectLD _) as [e|ld]; [reflexivity|].
    destruct (_put_outcome Projects ld w) as [(k & w' & ->)|(e & ->)];
      cbn; [congruence | reflexivity].
  - unfold _delete. destruct (negb (db w)); [reflexivity|].
    destruct (to_key projectId); cbn; [congruence | reflexivity].
  - unfold deleteDiagramsByProjectId. destruct (negb (db w)); [reflexivity|].
    destruct (to_key projectId); cbn; [congruence | reflexivity].
  - destruct (_put_outcome SyncQueue item w) as [(k & w' & ->)|(e & ->)];
      cbn; [congruence | reflexivity].
  - unfold _delete. destruct (negb (db w)); [reflexivity|].
    destruct (to_key itemId); cbn; [congruence | reflexivity].
Qed.

Lemma failed_call_changes_nothing_witness :
  (perform (Call_updateDiagram clashing_diagram) stocked).1 = Rejected ConstraintError
  /\ (perform (Call_updateDiagram clashing_diagram) stocked).2 = stocked.
Proof.
  assert (H : (perform (Call_updateDiagram clashing_diagram) stocked).1
              = Rejected ConstraintError) by (vm_compute; reflexivity).
  split; [exact H|].
  apply (failed_call_changes_nothing (Call_updateDiagram clashing_diagram) stocked I).
  - repeat split.
  - rewrite H. discriminate.
Defined.

Lemma normalize_for_undefined n : normalize_for n VUndef = inr VUndef.
Proof. destruct n; reflexivity. Qed.

(** X19: on an open database, deleting by a valid key fulfils whether or
    not a record has that key; afterwards a read by that key returns
    [undefined], every other record of the store is as before, the key
    generator has not moved and the other stores are untouched. *)
Theorem delete_then_get (n : store_name) (v : value) (k : key) (w : world) :
  db w = true -> to_key v = Some k ->
  exists w',
    _delete n v w = (Fulfilled tt, w')
    /\ _get n v w' = (Fulfilled VUndef, w')
    /\ records (store n w') !! k = None
    /\ (forall k', k' <> k -> records (store n w') !! k' = records (store n w) !! k')
    /\ generator (store n w') = generator (store n w)
    /\ (forall n', n' <> n -> store n' w' = store n' w).
Proof.
  intros Hdb Hk. unfold _delete. rewrite Hdb, Hk. cbn [negb].
  eexists. split; [reflexivity|].
  split.
  { unfold _get. rewrite db_set_store, Hdb, Hk, store_set_store. cbn [negb records].
    rewrite lookup_delete_eq, normalize_for_undefined. reflexivity. }
  rewrite store_set_store. cbn [records generator].
  split; [apply lookup_delete_eq|].
  split; [intros k' Hne; apply lookup_delete_ne; congruence|].
  split; [reflexivity|].
  intros n' Hne. apply store_set_store_ne. congruence.
Qed.

Lemma delete_then_get_witness :
  exists w',
    _delete Diagrams (VNum 1) stocked = (Fulfilled tt, w')
    /\ _get Diagrams (VNum 1) w' = (Fulfilled VUndef, w')
    /\ generator (diagrams w') = 2.
Proof.
  destruct (delete_then_get Diagrams (VNum 1) (KNum 1) stocked eq_refl eq_refl)
    as (w' & H1 & H2 & _ & _ & H3 & _).
  exists w'. split; [exact H1|]. split; [exact H2|]. exact H3.
Defined.






Lemma project_index_key d (name : value) ld :
  new_named_project d name ->
  ld !! "_name_for_index" = Some (default (get d "name") (d !! "_name_for_index")) ->
  index_key PROJECT_INDEX ld = match to_key name with Some kn => Some [kn] | None => None end.
Proof.
  intros (_ & Hn & _ & HN & _) H. unfold index_key, PROJECT_INDEX. cbn [mapM].
  rewrite H, Hn, HN. cbn. destruct (to_key name); reflexivity.
Qed.

(** X21: on an open store where a name is free, a first project of that
    name is added under the id the key generator assigns; a second project
    of the same name is rejected with the ConstraintError of the unique
    index and leaves the store as it was. *)
Theorem duplicate_project_name_rejected (w : world) (d1 d2 : obj) (name : value) (kn : key) :
  db w = true ->
  generator (projects w) <= max_generated ->
  to_key name = Some kn ->
  new_named_project d1 name -> new_named_project d2 name ->
  name_free w kn ->
  exists w1,
    addProject d1 w = (Fulfilled (KNum (generator (projects w))), w1)
    /\ addProject d2 w1 = (Rejected ConstraintError, w1).
Proof.
  intros Hdb Hgen Hk N1 N2 F.
  pose proof N1 as (S1 & _ & I1 & _ & C1 & U1).
  pose proof N2 as (S2 & _ & I2 & _ & C2 & U2).
  destruct (toProjectLD_new d1 S1 I1 C1 U1) as (ld1 & E1 & A1 & _ & _ & D1).
  destruct (toProjectLD_new d2 S2 I2 C2 U2) as (ld2 & E2 & A2 & _ & _ & D2).
  pose proof (project_index_key _ _ _ N1 D1) as K1. rewrite Hk in K1.
  pose proof (project_index_key _ _ _ N2 D2) as K2. rewrite Hk in K2.
  set (g := generator (projects w)) in *.
  destruct (id_not_indexed Projects) as [Hin1 Hin2]. cbn [unique_index default] in Hin1, Hin2.
  pose proof (put_twice_generated Projects _ project_urn w ld1
                eq_refl Hin1 Hin2 Hdb (extract_key_absent _ A1)) as Hput1.
  cbn [store] in Hput1. fold g in Hput1. specialize (Hput1 Hgen).
  rewrite <- (addProject_unfold d1 ld1 w E1) in Hput1.
  eexists. split.
  { apply Hput1. intros k r ik Hl Hr. rewrite K1. intros [= <-]. exact (F k r Hl Hr). }
  set (r1 := <["@id":=VStr (project_urn (VNum g))]> (<["id":=VNum g]> ld1)).
  set (w1 := set_store Projects _ w).
  assert (Hr1 : index_key PROJECT_INDEX r1 = Some [kn]).
  { subst r1. rewrite !index_key_insert by assumption. exact K1. }
  rewrite (addProject_unfold d2 ld2 w1 E2). unfold await_.
  rewrite (_put_conflict Projects _ w1 ld2 (KNum g) r1 [kn] eq_refl Hin1);
    [reflexivity | exact Hdb | apply extract_key_absent, A2 | exact K2
    | apply lookup_insert_eq | cbn; intros [= H]; lia | exact Hr1].
Qed.

Lemma new_project_named : new_named_project new_project (VStr "Demo").
Proof.
  unfold new_named_project. split; [repeat constructor|].
  split; [reflexivity|]. split; [reflexivity|]. split; [reflexivity|].
  split; left; reflexivity.
Qed.

Lemma name_free_opened kn : name_free opened kn.
Proof.
  intros k r H. change ((∅ : gmap key obj) !! k = Some r) in H.
  rewrite lookup_empty in H. discriminate H.
Qed.

Lemma duplicate_project_name_rejected_witness :
  exists w1,
    addProject new_project opened = (Fulfilled (KNum 1), w1)
    /\ addProject new_project w1 = (Rejected ConstraintError, w1).
Proof.
  exact (duplicate_project_name_rejected opened new_project new_project (VStr "Demo")
           (KStr "Demo") eq_refl ltac:(discriminate) eq_refl
           new_project_named new_project_named (name_free_opened _)).
Defined.

(** X22: a project whose name is not a valid key (a missing name, [null],
    a boolean, an object) is outside the unique index: it is added
    whatever the store holds, so any number of such projects coexist. *)
Theorem unnamed_projects_coexist (w : world) (d : obj) (name : value) :
  db w = true ->
  generator (projects w) <= max_generated ->
  to_key name = None ->
  new_named_project d name ->
  exists w', addProject d w = (Fulfilled (KNum (generator (projects w))), w').
Proof.
  intros Hdb Hgen Hk N.
  pose proof N as (S1 & _ & I1 & _ & C1 & U1).
  destruct (toProjectLD_new d S1 I1 C1 U1) as (ld1 & E1 & A1 & _ & _ & D1).
  pose proof (project_index_key _ _ _ N D1) as K1. rewrite Hk in K1.
  destruct (id_not_indexed Projects) as [Hin1 Hin2]. cbn [unique_index default] in Hin1, Hin2.
  pose proof (put_twice_generated Projects _ project_urn w ld1
                eq_refl Hin1 Hin2 Hdb (extract_key_absent _ A1)) as Hput1.
  cbn [store] in Hput1. specialize (Hput1 Hgen).
  rewrite <- (addProject_unfold d ld1 w E1) in Hput1.
  eexists. apply Hput1. intros k r ik Hl Hr. rewrite K1. discriminate.
Qed.

Lemma unnamed_projects_coexist_witness :
  exists w', addProject nameless_project stocked = (Fulfilled (KNum 2), w').
Proof.
  apply (unnamed_projects_coexist stocked nameless_project VUndef).
  - reflexivity.
  - vm_compute. discriminate.
  - reflexivity.
  - unfold new_named_project. split; [repeat constructor|].
    split; [reflexivity|]. split; [reflexivity|]. split; [reflexivity|].
    split; left; reflexivity.
Defined.

(** What [toDiagramLD] makes of a caller's record. *)
Lemma toDiagramLD_given (d : obj) (id P : value) (T : string) :
  given_diagram d id P T ->
  exists ld, toDiagramLD d = inr ld
    /\ toDiagramLD (with_id d) = inr ld
    /\ ld !! "id" = (if truthy id then Some id else None)
    /\ ld !! "@id" = Some (VStr (diagram_urn id))
    /\ ld !! "schema:name" = Some (VStr T)
    /\ index_key DIAGRAM_INDEX ld = match to_key P with
                                     | Some kp => Some [kp; KStr T]
                                     | None => None
                                     end.
Proof.
  intros (Hs & Hn & Hid & HP & HT & Hc & Hu).
  unfold simple_diagram, diagram_ld_keys in Hs.
  repeat (apply Forall_cons in Hs; destruct Hs as [? Hs]).
  destruct (iso_or_undefined_ok _ Hc) as (sc & Hsc).
  destruct (iso_or_undefined_ok _ Hu) as (su & Hsu).
  assert (Hctx : get d "@context" = VUndef) by (unfold get; rewrite H; reflexivity).
  assert (Hw : without diagram_simple_keys (with_id d) = without diagram_simple_keys d).
  { unfold without, diagram_simple_keys, with_id. cbn [foldr].
    apply map_eq. intros k. lookups.
    destruct (String.eqb_spec k "lastModifiedRemoteSha"); [reflexivity|].
    destruct (String.eqb_spec k "updatedAt"); [reflexivity|].
    destruct (String.eqb_spec k "createdAt"); [reflexivity|].
    destruct (String.eqb_spec k "content"); [reflexivity|].
    destruct (String.eqb_spec k "title"); [reflexivity|].
    destruct (String.eqb_spec k "projectId"); [reflexivity|].
    destruct (String.eqb_spec k "id"); reflexivity. }
  assert (E : toDiagramLD (with_id d) = toDiagramLD d).
  { unfold toDiagramLD. rewrite !get_with_id, Hw, Hctx. reflexivity. }
  rewrite E. unfold toDiagramLD. rewrite Hctx, Hsc, Hsu, Hid, HP, HT.
  cbn [truthy JS.bind].
  eexists. split; [reflexivity|]. split; [reflexivity|].
  unfold index_key, DIAGRAM_INDEX, diagram_simple_keys. cbn [mapM].
  destruct (truthy id) eqn:Et;
    (repeat split; lookups; cbn -[diagram_urn project_urn];
     try match goal with H : d !! ?k = None |- context [d !! ?k] => rewrite H end;
     rewrite ?Hn; try reflexivity; destruct (to_key P); reflexivity).
Qed.

Lemma _put_explicit n (w : world) (item : obj) (k : key) :
  db w = true ->
  extract_key item = HasKey k ->
  violates (unique_index n) (records (store n w)) k item = false ->
  _put n item w
  = (Fulfilled k,
     set_store n {| records := <[k := item]> (records (store n w));
                    generator := bump (generator (store n w)) k |} w).
Proof.
  intros Hdb He Hv. unfold _put, put. rewrite Hdb, He. cbn [negb JS.bind].
  rewrite Hv. reflexivity.
Qed.

(** X23: [addDiagram] with a record that brings its own id, a non-zero
    number up to 2^53 in magnitude or a non-empty string, writes under
    that id: a record already stored there is replaced without an error,
    provided no other record has the same project and title. *)
Theorem addDiagram_with_id_replaces (w : world) (d : obj) (id P : value) (T : string)
    (k kp : key) :
  db w = true ->
  given_diagram d id P T ->
  plain_text id ->
  truthy id = true -> to_key id = Some k -> to_key P = Some kp ->
  (forall k' r', k' <> k -> records (diagrams w) !! k' = Some r' ->
                 index_key DIAGRAM_INDEX r' <> Some [kp; KStr T]) ->
  exists r w',
    addDiagram d w = (Fulfilled k, w')
    /\ records (diagrams w') = <[k := r]> (records (diagrams w))
    /\ r !! "id" = Some id
    /\ r !! "@id" = Some (VStr (diagram_urn id))
    /\ r !! "schema:name" = Some (VStr T).
Proof.
  intros Hdb G _ Ht Hk HP Hfree.
  destruct (toDiagramLD_given d id P T G) as (ld & _ & E & Hid & Hat & Hname & Hik).
  rewrite Ht in Hid. rewrite HP in Hik.
  pose proof (to_key_inv _ _ Hk) as Hv.
  assert (He : extract_key ld = HasKey k).
  { unfold extract_key. rewrite Hid, Hk. destruct id; try discriminate Ht; try discriminate Hk; reflexivity. }
  assert (Hsame : <["@id" := VStr (diagram_urn (of_key k))]> (<["id" := of_key k]> ld) = ld).
  { rewrite <- Hv. rewrite (insert_id ld "id" id Hid). apply insert_id, Hat. }
  rewrite (addDiagram_unfold d ld w E). unfold await_.
  rewrite (_put_explicit Diagrams w ld k Hdb He).
  2:{ apply violates_false. intros k' r' ik Hl Hne Hr. rewrite Hik. intros [= <-].
      exact (Hfree k' r' Hne Hl Hr). }
  rewrite Hsame.
  rewrite (_put_explicit Diagrams _ ld k); [| exact Hdb | exact He |].
  2:{ cbn [unique_index set_store store diagrams records].
      apply violates_false. intros k' r' ik Hl Hne Hr. rewrite Hik. intros [= <-].
      rewrite lookup_insert_ne in Hl by congruence.
      exact (Hfree k' r' Hne Hl Hr). }
  exists ld. eexists. split; [reflexivity|].
  cbn [set_store store diagrams records].
  split; [apply insert_insert_eq|]. auto.
Qed.

Lemma addDiagram_with_id_replaces_witness :
  exists r w',
    addDiagram sample_diagram stocked = (Fulfilled (KNum 1), w')
    /\ records (diagrams w') = <[KNum 1 := r]> (records (diagrams stocked))
    /\ r !! "id" = Some (VNum 1)
    /\ r !! "@id" = Some (VStr (diagram_urn (VNum 1)))
    /\ r !! "schema:name" = Some (VStr "A").
Proof.
  apply (addDiagram_with_id_replaces stocked sample_diagram (VNum 1) (VNum 2) "A"
           (KNum 1) (KNum 2)).
  - reflexivity.
  - unfold given_diagram. split; [repeat constructor|].
    split; [reflexivity|]. split; [reflexivity|]. split; [reflexivity|].
    split; [reflexivity|]. split; left; reflexivity.
  - vm_compute. discriminate.
  - reflexivity.
  - reflexivity.
  - reflexivity.
  - intros k' r' Hne Hl. destruct (stocked_only_diagram k' r' Hne Hl).
Defined.

(** X24: [updateDiagram] with a record that has no id does not update
    anything: it stores a new record under a generated id, and the ['@id']
    of that record stays the URN of "undefined". *)
Theorem updateDiagram_without_id_inserts (w : world) (d : obj) (P : value) (T : string)
    (kp : key) :
  db w = true ->
  generator (diagrams w) <= max_generated ->
  given_diagram d VUndef P T -> to_key P = Some kp ->
  title_free w kp T ->
  let g := generator (diagrams w) in
  exists r w',
    updateDiagram d w = (Fulfilled (KNum g), w')
    /\ records (diagrams w') = <[KNum g := r]> (records (diagrams w))
    /\ r !! "id" = Some (VNum g)
    /\ r !! "@id" = Some (VStr "urn:mermaid-ide:diagram:undefined").
Proof.
  intros Hdb Hgen G HP Hfree g.
  destruct (toDiagramLD_given d VUndef P T G) as (ld & E & _ & Hid & Hat & _ & Hik).
  cbn [truthy] in Hid. rewrite HP in Hik.
  unfold updateDiagram, sync. rewrite E.
  unfold _put, put. rewrite Hdb, (extract_key_absent _ Hid). cbn [negb store].
  destruct (Z.ltb_spec max_generated (generator (diagrams w))) as [|_]; [lia|].
  cbn [JS.bind unique_index]. fold g.
  rewrite violates_false.
  2:{ intros k' r' ik Hl _ Hr. rewrite index_key_insert.
      - rewrite Hik. intros [= <-]. exact (Hfree k' r' Hl Hr).
      - intros H; repeat (apply elem_of_cons in H as [H|H]; [discriminate H|]);
          apply elem_of_nil in H; exact H. }
  eexists _, _. split; [reflexivity|].
  cbn [set_store diagrams records]. split; [reflexivity|].
  split; [apply lookup_insert_eq|].
  rewrite lookup_insert_ne by discriminate. exact Hat.
Qed.

Lemma updateDiagram_without_id_inserts_witness :
  exists r w',
    updateDiagram (diagram_A 1) opened = (Fulfilled (KNum 1), w')
    /\ records (diagrams w') = <[KNum 1 := r]> (records (diagrams opened))
    /\ r !! "id" = Some (VNum 1)
    /\ r !! "@id" = Some (VStr "urn:mermaid-ide:diagram:undefined").
Proof.
  apply (updateDiagram_without_id_inserts opened (diagram_A 1) (VNum 1) "A" (KNum 1)).
  - reflexivity.
  - vm_compute. discriminate.
  - unfold given_diagram. split; [repeat constructor|].
    split; [reflexivity|]. split; [reflexivity|]. split; [reflexivity|].
    split; [reflexivity|]. split; left; reflexivity.
  - reflexivity.
  - apply empty_title_free.
Defined.

Lemma map_throw_fails {A B : Type} (f : A -> error + B) (l : list A) x e :
  x ∈ l -> f x = inl e -> exists e', map_throw f l = inl e'.
Proof.
  induction l as [|y l IH]; intros Hin Hf.
  - apply elem_of_nil in Hin. contradiction.
  - cbn [map_throw]. destruct (f y) as [e0|b] eqn:Ey; [eauto|].
    apply elem_of_cons in Hin as [->|Hin]; [congruence|].
    destruct (IH Hin Hf) as (e' & ->). eauto.
Qed.

(** X25: a stored record that the normalizer throws on blocks the reads
    that meet it.  [getDiagram] and [getProject] by its key, and
    [getDiagramsByProjectId] for its project, stay pending for ever: the
    normalizer throws inside the success handler of the request, where no
    one settles the promise.  [getAllProjects], which normalizes after its
    await, is rejected. *)
Theorem unreadable_record_blocks_reads (w : world) (k : key) (r : obj) (e : error) :
  db w = true ->
  (records (diagrams w) !! k = Some r -> normalizeDiagram (VObj r) = inl e ->
   getDiagram (of_key k) w = (Unsettled e, w)
   /\ forall P, r !! "projectId" ≫= to_key = to_key P -> to_key P <> None ->
        exists e', getDiagramsByProjectId P w = (Unsettled e', w))
  /\ (records (projects w) !! k = Some r -> normalizeProject (VObj r) = inl e ->
      getProject (of_key k) w = (Unsettled e, w)
      /\ exists e', getAllProjects w = (Rejected e', w)).
Proof.
  intros Hdb. split; intros Hl Hn.
  - split.
    + unfold getDiagram, _get. rewrite Hdb, to_key_of_key. cbn [negb store normalize_for].
      rewrite Hl, Hn. reflexivity.
    + intros P HP Hk. destruct (to_key P) as [kp|] eqn:EP; [|contradiction].
      unfold getDiagramsByProjectId. rewrite Hdb. cbn [negb].
      assert (Ei : index_getAll P (records (diagrams w))
                   = inr (index_matches "projectId" kp (records (diagrams w)))).
      { unfold index_getAll. rewrite EP. destruct P; try discriminate EP; reflexivity. }
      rewrite Ei.
      destruct (map_throw_fails (fun kr : key * obj => normalizeDiagram (VObj kr.2))
                  (index_matches "projectId" kp (records (diagrams w))) (k, r) e)
        as (e' & ->); [|exact Hn|eauto].
      apply elem_of_index_matches. auto.
  - split.
    + unfold getProject, _get. rewrite Hdb, to_key_of_key. cbn [negb store normalize_for].
      rewrite Hl, Hn. reflexivity.
    + unfold getAllProjects, await_, _getAll, lift. rewrite Hdb. cbn [negb store].
      destruct (map_throw_fails normalizeProject
                  (map (fun kr : key * obj => VObj kr.2) (in_key_order (records (projects w))))
                  (VObj r) e) as (e' & ->); [|exact Hn|eauto].
      apply list_elem_of_fmap. exists (k, r). split; [reflexivity|].
      apply elem_of_in_key_order, Hl.
Qed.

Lemma unreadable_record_blocks_reads_witness :
  getDiagram (VNum 1) broken = (Unsettled TypeError, broken).
Proof.
  destruct (unreadable_record_blocks_reads broken (KNum 1)
              (<["id" := VNum 1]> orphan_ld_diagram) TypeError eq_refl) as [HD _].
  apply HD.
  - apply stored_at. vm_compute. reflexivity.
  - vm_compute. reflexivity.
Defined.




(** X27: in every state the operations lead to, an item added to the sync
    queue without an id is stored under the next generated id with that id
    in it; deleting it by that id gives back the queue as it was, except
    that the key generator has moved on: the id is not given out again. *)
Theorem queue_add_then_delete (w : world) (item : obj) :
  reachable w -> db w = true ->
  generator (syncQueue w) <= max_generated ->
  item !! "id" = None ->
  let g := generator (syncQueue w) in
  exists w1 w2,
    addSyncQueueItem item w = (Fulfilled (KNum g), w1)
    /\ records (syncQueue w1) !! KNum g = Some (<["id" := VNum g]> item)
    /\ deleteSyncQueueItem (VNum g) w1 = (Fulfilled tt, w2)
    /\ records (syncQueue w2) = records (syncQueue w)
    /\ generator (syncQueue w2) = g + 1
    /\ (getSyncQueueItems w2).1 = (getSyncQueueItems w).1.
Proof.
  intros Hre Hdb Hgen Hid g.
  apply reachable_world_inv in Hre. destruct (Hre SyncQueue) as (_ & (_ & HG) & _).
  cbn [store] in HG.
  assert (Hfresh : records (syncQueue w) !! KNum g = None).
  { destruct (records (syncQueue w) !! KNum g) as [r|] eqn:E; [|reflexivity].
    destruct (HG g r E); subst g; lia. }
  unfold addSyncQueueItem, _put, put. rewrite Hdb, (extract_key_absent _ Hid).
  cbn [negb store unique_index violates].
  destruct (Z.ltb_spec max_generated (generator (syncQueue w))) as [|_]; [lia|].
  cbn [JS.bind]. fold g.
  eexists _, _. split; [reflexivity|].
  cbn [set_store syncQueue records].
  split; [apply lookup_insert_eq|].
  unfold deleteSyncQueueItem, _delete.
  cbn [db to_key negb store set_store syncQueue records generator]. rewrite Hdb. cbn [negb].
  split; [reflexivity|]. cbn [syncQueue records generator].
  assert (Hrec : delete (KNum g) (<[KNum g := <["id" := VNum g]> item]> (records (syncQueue w)))
                 = records (syncQueue w)).
  { rewrite delete_insert_eq. apply delete_id, Hfresh. }
  split; [exact Hrec|]. split; [reflexivity|].
  unfold getSyncQueueItems, _getAll. cbn [db store syncQueue records]. rewrite Hdb.
  cbn [negb fst]. rewrite Hrec. reflexivity.
Qed.

Lemma queue_add_then_delete_witness :
  exists w1 w2,
    addSyncQueueItem queued_item stocked = (Fulfilled (KNum 1), w1)
    /\ deleteSyncQueueItem (VNum 1) w1 = (Fulfilled tt, w2)
    /\ records (syncQueue w2) = records (syncQueue stocked)
    /\ generator (syncQueue w2) = 2.
Proof.
  destruct (queue_add_then_delete stocked queued_item reachable_stocked eq_refl
              ltac:(vm_compute; discriminate) eq_refl)
    as (w1 & w2 & H1 & _ & H2 & H3 & H4 & _).
  exists w1, w2. split; [exact H1|]. split; [exact H2|]. split; [exact H3 | exact H4].
Defined.

(** X28: renaming a diagram by changing the [title] of the record a read
    returned and passing it to [updateDiagram] stores the new title with
    the old index name: the record read carries [_name_for_index], and the
    conversion keeps it.  The old title therefore stays taken in the
    project: a new diagram of that title is rejected with
    ConstraintError although no stored diagram has it any more. *)
Theorem rename_leaves_old_title_reserved (w : world) (R d : obj) (n : Z) (P : value)
    (kp : key) (A B : string) :
  db w = true ->
  simple_diagram R -> R !! "id" = Some (VNum n) -> n <> 0 ->
  n < generator (diagrams w) ->
  get R "projectId" = P -> to_key P = Some kp ->
  R !! "_name_for_index" = Some (VStr A) ->
  timestamp_ok (get R "createdAt") -> timestamp_ok (get R "updatedAt") ->
  (forall k' r', k' <> KNum n -> records (diagrams w) !! k' = Some r' ->
                 index_key DIAGRAM_INDEX r' <> Some [kp; KStr A]) ->
  new_diagram d P A ->
  exists r w',
    updateDiagram (<["title" := VStr B]> R) w = (Fulfilled (KNum n), w')
    /\ records (diagrams w') = <[KNum n := r]> (records (diagrams w))
    /\ r !! "schema:name" = Some (VStr B)
    /\ r !! "_name_for_index" = Some (VStr A)
    /\ addDiagram d w' = (Rejected ConstraintError, w').
Proof.
  intros Hdb Hs Hid Hn0 Hlt HP Hk Hnfi Hc Hu Hfree Nd.
  unfold simple_diagram, diagram_ld_keys in Hs.
  repeat (apply Forall_cons in Hs; destruct Hs as [? Hs]).
  destruct (iso_or_undefined_ok _ Hc) as (sc & Hsc).
  destruct (iso_or_undefined_ok _ Hu) as (su & Hsu).
  set (R' := <["title" := VStr B]> R).
  assert (G : forall k, k <> "title"%string -> get R' k = get R k).
  { intros k Hk'. unfold get, R'. rewrite lookup_insert_ne by congruence. reflexivity. }
  assert (Hgid : get R "id" = VNum n) by (unfold get; rewrite Hid; reflexivity).
  assert (Hctx : get R "@context" = VUndef) by (unfold get; rewrite H; reflexivity).
  assert (E : exists ld, toDiagramLD R' = inr ld
                /\ ld !! "id" = Some (VNum n)
                /\ ld !! "schema:name" = Some (VStr B)
                /\ ld !! "_name_for_index" = Some (VStr A)
                /\ index_key DIAGRAM_INDEX ld = Some [kp; KStr A]).
  { assert (GT : get R' "title" = VStr B).
    { unfold get, R'. rewrite lookup_insert_eq. reflexivity. }
    unfold toDiagramLD. rewrite GT, !G by discriminate.
    rewrite Hctx, Hsc, Hsu, Hgid, HP. cbn [truthy JS.bind].
    destruct (Z.eqb_spec n 0); [contradiction|]. cbn [negb].
    eexists. split; [reflexivity|].
    assert (L : forall (m : obj) k v, m !! k = Some v ->
                  (<["id" := VNum n]> m) !! k = Some v \/ k = "id"%string).
    { intros m k v Hm. destruct (String.eqb_spec k "id"); [right; assumption|].
      left. rewrite lookup_insert_ne by congruence. exact Hm. }
    unfold index_key, DIAGRAM_INDEX, diagram_simple_keys, R'. cbn [mapM].
    split; [apply lookup_insert_eq|].
    rewrite !lookup_insert_ne by discriminate.
    rewrite !lookup_union_obj, !lookup_without. cbn [existsb String.eqb Ascii.eqb Bool.eqb orb].
    rewrite !lookup_insert_ne by discriminate.
    match goal with H : R !! "schema:name" = None |- _ => rewrite H end.
    rewrite Hnfi, !lookup_object. cbn [assoc String.eqb Ascii.eqb Bool.eqb].
    split; [reflexivity|]. split; [reflexivity|].
    cbn. rewrite Hk. reflexivity. }
  destruct E as (ld & E & Hlid & Hname & Hlnfi & Hik).
  assert (He : extract_key ld = HasKey (KNum n)).
  { unfold extract_key. rewrite Hlid. reflexivity. }
  unfold updateDiagram, sync. rewrite E.
  rewrite (_put_explicit Diagrams w ld (KNum n) Hdb He).
  2:{ apply violates_false. intros k' r' ik Hl Hne Hr. rewrite Hik. intros [= <-].
      exact (Hfree k' r' Hne Hl Hr). }
  exists ld. eexists. split; [reflexivity|].
  cbn [set_store store diagrams records].
  split; [reflexivity|]. split; [exact Hname|]. split; [exact Hlnfi|].
  pose proof Nd as (S2 & _ & I2 & _ & _ & C2 & U2).
  destruct (toDiagramLD_new d S2 I2 C2 U2) as (ld2 & E2 & A2 & _ & _ & _ & B2 & D2).
  pose proof (new_diagram_index_key _ _ _ _ _ Nd Hk B2 D2) as K2.
  rewrite (addDiagram_unfold d ld2 _ E2). unfold await_.
  rewrite (_put_conflict Diagrams DIAGRAM_INDEX _ ld2 (KNum n) ld [kp; KStr A] eq_refl);
    [reflexivity | | exact Hdb | apply extract_key_absent, A2 | exact K2
    | apply lookup_insert_eq | | exact Hik].
  - intros Hin; repeat (apply elem_of_cons in Hin as [Hin|Hin]; [discriminate Hin|]);
      apply elem_of_nil in Hin; exact Hin.
  - cbn [store set_store diagrams generator]. unfold bump.
    destruct (Z.leb_spec (generator (diagrams w)) (Z.min n max_generated));
      intros [= Heq]; lia.
Qed.

Lemma rename_leaves_old_title_reserved_witness :
  exists r w',
    updateDiagram (<["title" := VStr "B"]> stocked_diagram) stocked
      = (Fulfilled (KNum 1), w')
    /\ records (diagrams w') = <[KNum 1 := r]> (records (diagrams stocked))
    /\ r !! "schema:name" = Some (VStr "B")
    /\ r !! "_name_for_index" = Some (VStr "A")
    /\ addDiagram (diagram_A 1) w' = (Rejected ConstraintError, w').
Proof.
  apply (rename_leaves_old_title_reserved stocked stocked_diagram (diagram_A 1) 1
           (VNum 1) (KNum 1) "A" "B").
  - reflexivity.
  - repeat constructor.
  - reflexivity.
  - discriminate.
  - vm_compute. reflexivity.
  - reflexivity.
  - reflexivity.
  - reflexivity.
  - left; reflexivity.
  - left; reflexivity.
  - intros k' r' Hne Hl. destruct (stocked_only_diagram k' r' Hne Hl).
  - apply new_diagram_A.
Defined.

(* ===================================================================== *)
(** ** The diagram concept                                                 *)
(* ===================================================================== *)

Section Editor.

Import DiagramConcept.






(** X30: when the diagram that is open is deleted, the concept announces
    that no diagram is loaded and forgets it at once, before it looks for
    the project to reload; from then on saving and exporting do nothing. *)
Theorem deleted_diagram_is_not_saved (s : state) (diagramId : value) :
  strict_eq (opt_get (currentDiagram s) "id") diagramId = true ->
  exists log r,
    let s' := {| diagrams := diagrams s; currentDiagram := VNull |} in
    listen (HandleDiagramDeleted diagramId) s = (s', DiagramContentLoaded VNull :: log, r)
    /\ listen SaveCurrentDiagram s' = (s', [], inr tt)
    /\ listen ExportCurrentDiagramAsMmd s' = (s', [], inr tt).
Proof.
  intros H. cbn [listen]. unfold _handleDiagramDeleted, and_then, read.
  rewrite H. cbn [set_current notify diagrams currentDiagram app].
  unfold set_current, notify, throws. cbn [diagrams currentDiagram app].
  destruct (find_by_id diagramId (diagrams s)) as [e|found].
  - eexists _, _. split; [reflexivity|]. split; reflexivity.
  - destruct (truthy (opt_get found "projectId")) eqn:Ep.
    + unfold _loadDiagrams. rewrite Ep. unfold notify.
      eexists _, _. split; [reflexivity|]. split; reflexivity.
    + eexists _, _. split; [reflexivity|]. split; reflexivity.
Qed.

Lemma deleted_diagram_is_not_saved_witness :
  exists log r,
    let s' := {| diagrams := []; currentDiagram := VNull |} in
    listen (HandleDiagramDeleted (VNum 7))
      {| diagrams := []; currentDiagram := VObj open_diagram |}
      = (s', DiagramContentLoaded VNull :: log, r)
    /\ listen SaveCurrentDiagram s' = (s', [], inr tt)
    /\ listen ExportCurrentDiagramAsMmd s' = (s', [], inr tt).
Proof.
  exact (deleted_diagram_is_not_saved
           {| diagrams := []; currentDiagram := VObj open_diagram |} (VNum 7) eq_refl).
Defined.

End Editor.
